(** * react-task-manager: the Express task store and the React state layer

    A shallow embedding of [server.js] (the in-memory REST API) and of the
    client-side state logic of [TaskContext.jsx] and [TaskBoard.jsx].

    JavaScript objects are finite maps from property names to JSON values
    ([gmap string json]); a property that is absent and a property whose
    value is [undefined] are not told apart, since the program only reads
    properties (it never enumerates keys with [in] or [Object.keys]).
    A [TypeError] raised by a method call on a value of the wrong type is
    an explicit outcome ([result]).  What the engine computes from its
    Unicode tables, its clock and its prototype objects is a parameter of
    the definitions that use it; the theorems hold for every engine, and
    the module [Engine] gives one for the examples. *)

From Stdlib Require Import Ascii String ZArith Permutation.
From stdpp Require Import gmap strings pretty list fin_maps sorting.

Set Warnings "-register-all".

Local Open Scope Z_scope.

(* ===================================================================== *)
(** ** JavaScript values *)
(* ===================================================================== *)

(** A value produced by [JSON.parse].  Numbers are kept as integers: the
    program never computes with a number it stores, it only tests it for
    truthiness. *)
Inductive json : Type :=
| JNull
| JBool (b : bool)
| JNum (n : Z)
| JStr (s : string)
| JArr (l : list json)
| JObj (m : gmap string json).

(** A JavaScript object as the program uses it. *)
Abbreviation obj := (gmap string json).

(** The result of reading a property or a variable: [None] is [undefined]. *)
Abbreviation jsval := (option json).

(** [ToBoolean]: what [if (v)], [!v] and [v || d] look at. *)
Definition truthy (v : jsval) : bool :=
  match v with
  | None => false
  | Some JNull => false
  | Some (JBool b) => b
  | Some (JNum n) => negb (n =? 0)
  | Some (JStr s) => negb (bool_decide (s = ""))
  | Some (JArr _) => true
  | Some (JObj _) => true
  end.

(** [v || d] *)
Definition or_else (v : jsval) (d : json) : json :=
  match v with
  | Some x => if truthy v then x else d
  | None => d
  end.

(** A destructuring default [{ k = d }]: the default is taken only for
    [undefined], not for [null] or other falsy values. *)
Definition default_to (v : jsval) (d : json) : json :=
  match v with
  | Some x => x
  | None => d
  end.

(** [v === s] where [s] is a primitive string. *)
Definition is_string (v : jsval) (s : string) : bool :=
  match v with
  | Some (JStr s') => bool_decide (s' = s)
  | _ => false
  end.

(** [a === b] on two values.  Primitives are compared by value.  Arrays and
    objects are compared by reference in JavaScript; two values read from
    different places are different references, which is the case modelled
    here. *)
Definition strict_equal (a b : jsval) : bool :=
  match a, b with
  | None, None => true
  | Some JNull, Some JNull => true
  | Some (JBool x), Some (JBool y) => bool_decide (x = y)
  | Some (JNum x), Some (JNum y) => bool_decide (x = y)
  | Some (JStr x), Some (JStr y) => bool_decide (x = y)
  | _, _ => false
  end.

(** ** Exceptions *)

(** The outcome of evaluating an expression that may call a method on a
    value that does not have it. *)
Inductive result (A : Type) : Type :=
| Ok (a : A)
| TypeError.
Arguments Ok {A} a.
Arguments TypeError {A}.

#[global] Instance result_ret : MRet result := fun A a => Ok a.
#[global] Instance result_bind : MBind result := fun A B k r =>
  match r with
  | Ok a => k a
  | TypeError => TypeError
  end.

(** [Array.prototype.filter] with a callback that may throw: elements are
    visited in order and the first exception aborts the call. *)
Fixpoint filterE {A} (p : A → result bool) (l : list A) : result (list A) :=
  match l with
  | [] => Ok []
  | x :: l' =>
      b ← p x ;
      r ← filterE p l' ;
      Ok (if (b : bool) then x :: r else r)
  end.

(** [Array.prototype.some] with a callback that may throw: stops at the
    first element for which the callback answers true. *)
Fixpoint someE {A} (p : A → result bool) (l : list A) : result bool :=
  match l with
  | [] => Ok false
  | x :: l' =>
      b ← p x ;
      if (b : bool) then Ok true else someE p l'
  end.

(** ** Strings *)

(** A string is the sequence of the bytes of its UTF-8 form.  The two
    operations of the engine whose result depends on the Unicode tables or
    on the UTF-16 code units of a string are not computed here: they are
    taken from the engine.  [lower] is [String.prototype.toLowerCase] and
    [string_lt] is [<] on two strings.  Nothing is assumed about them; a
    theorem that needs a property of one of them states it. *)
Class Strings := {
  lower : string → string;
  string_lt : string → string → bool }.

(** [hay.includes(needle)]: the needle occurs in the hay.  In well-formed
    text the bytes of the needle occur in the bytes of the hay exactly when
    its code units occur in the code units of the hay. *)
Fixpoint includes (hay needle : string) : bool :=
  String.prefix needle hay
  || match hay with
     | EmptyString => false
     | String _ hay' => includes hay' needle
     end.

Section WithStrings.
Context {strings : Strings}.

(** [v.toLowerCase()]: defined on strings only. *)
Definition toLowerCase (v : jsval) : result string :=
  match v with
  | Some (JStr s) => Ok (lower s)
  | _ => TypeError
  end.

(** What the specification calls a case-insensitive substring, as the
    program decides it: the term in lower case occurs in the text in lower
    case. *)
Definition ci_substring (term text : string) : Prop :=
  ∃ pre post, lower text = (pre +:+ lower term +:+ post).

End WithStrings.

(** ** Object literals *)

(** [o.k = v]; storing [undefined] leaves the property unreadable. *)
Definition set_prop (k : string) (v : jsval) (o : obj) : obj :=
  match v with
  | Some x => <[k := x]> o
  | None => delete k o
  end.

(** [{ k1: v1, ..., kn: vn }]: later properties win. *)
Definition object (props : list (string * jsval)) : obj :=
  foldl (fun o kv => set_prop kv.1 kv.2 o) ∅ props.

(** [{ ...a, ...b }]: the shallow merge, [b] over [a]. *)
Definition spread2 (a b : obj) : obj := b ∪ a.

(* ===================================================================== *)
(** ** The entity store and its endpoints ([server.js]) *)
(* ===================================================================== *)

Module Server.
Section WithStrings.
Context {strings : Strings}.

(** The two module-level arrays. *)
Record store := Store { tasks : list obj; reminders : list obj }.

(** [res.status(n).json(v)] or [res.status(n).send()]. *)
Record response := Response { status : nat; payload : option json }.

Definition error_response (n : nat) (msg : string) : response :=
  Response n (Some (JObj (object [("error", Some (JStr msg))]))).

(** An exception that escapes a handler: Express answers 500. *)
Definition uncaught : response := Response 500 None.

(** What the handler of one request obtains from [uuidv4()] and from its
    first and second evaluation of [new Date().toISOString()]. *)
Record oracle := Oracle { uuidv4 : string; now : string; now2 : string }.

(** The clock readings taken while the module is loaded. *)
Record boot := Boot {
  created1 : string; updated1 : string;
  created2 : string; updated2 : string;
  reminderTime1 : string }.

Definition initial_tasks (b : boot) : list obj :=
  [ object
      [ ("id", Some (JStr "1"));
        ("title", Some (JStr "Learn React Hooks"));
        ("description", Some (JStr "Study useEffect, useState, and custom hooks"));
        ("status", Some (JStr "in-progress"));
        ("priority", Some (JStr "high"));
        ("dueDate", Some (JStr "2025-01-20"));
        ("createdAt", Some (JStr (created1 b)));
        ("updatedAt", Some (JStr (updated1 b)));
        ("subtasks", Some (JArr
           [ JObj (object [ ("id", Some (JStr "sub1"));
                            ("title", Some (JStr "Read useEffect documentation"));
                            ("completed", Some (JBool true)) ]);
             JObj (object [ ("id", Some (JStr "sub2"));
                            ("title", Some (JStr "Practice custom hooks"));
                            ("completed", Some (JBool false)) ]) ]));
        ("tags", Some (JArr [JStr "react"; JStr "learning"]));
        ("assignee", Some (JStr "John Doe")) ];
    object
      [ ("id", Some (JStr "2"));
        ("title", Some (JStr "Build Task Manager"));
        ("description", Some (JStr "Create a comprehensive task management application"));
        ("status", Some (JStr "todo"));
        ("priority", Some (JStr "medium"));
        ("dueDate", Some (JStr "2025-01-25"));
        ("createdAt", Some (JStr (created2 b)));
        ("updatedAt", Some (JStr (updated2 b)));
        ("subtasks", Some (JArr
           [ JObj (object [ ("id", Some (JStr "sub3"));
                            ("title", Some (JStr "Setup backend API"));
                            ("completed", Some (JBool true)) ]);
             JObj (object [ ("id", Some (JStr "sub4"));
                            ("title", Some (JStr "Create React components"));
                            ("completed", Some (JBool false)) ]);
             JObj (object [ ("id", Some (JStr "sub5"));
                            ("title", Some (JStr "Add form validation"));
                            ("completed", Some (JBool false)) ]) ]));
        ("tags", Some (JArr [JStr "project"; JStr "development"]));
        ("assignee", Some (JStr "Jane Smith")) ] ].

Definition initial_reminders (b : boot) : list obj :=
  [ object
      [ ("id", Some (JStr "rem1"));
        ("taskId", Some (JStr "1"));
        ("message", Some (JStr "Don't forget to complete your React learning!"));
        ("reminderTime", Some (JStr (reminderTime1 b)));
        ("isActive", Some (JBool true)) ] ].

Definition initial_store (b : boot) : store :=
  Store (initial_tasks b) (initial_reminders b).

(** *** GET /api/tasks *)

(** A value of [req.query]: a string when the name occurs once, and an
    array or an object when the name is repeated or written with brackets.
    The handler tests such a value for truthiness, compares it with [===]
    and calls [toLowerCase] on it; none of these looks inside an array or
    an object, so their content is left out. *)
Inductive qvalue : Type :=
| QString (s : string)
| QStructured.

(** [req.query] restricted to the three names the handler reads. *)
Record query := Query {
  q_status : option qvalue;
  q_priority : option qvalue;
  q_search : option qvalue }.

(** [if (p)] on a query parameter: absent and the empty string are falsy,
    an array or an object is truthy. *)
Definition supplied (p : option qvalue) : option qvalue :=
  match p with
  | Some (QString s) => if truthy (Some (JStr s)) then p else None
  | Some QStructured => p
  | None => None
  end.

(** [task.status === status]: an array or an object made by the query
    parser is no value of a task. *)
Definition field_is (v : jsval) (p : qvalue) : bool :=
  match p with
  | QString s => is_string v s
  | QStructured => false
  end.

(** [search.toLowerCase()]: arrays and objects have no such method. *)
Definition term_lower (search : qvalue) : result string :=
  match search with
  | QString s => Ok (lower s)
  | QStructured => TypeError
  end.

(** The callback of the search filter:
    [task.title.toLowerCase().includes(search.toLowerCase()) ||
     task.description.toLowerCase().includes(search.toLowerCase())] *)
Definition matches_search (search : qvalue) (task : obj) : result bool :=
  title ← toLowerCase (task !! "title");
  term ← term_lower search;
  if includes title term then Ok true
  else
    description ← toLowerCase (task !! "description");
    Ok (includes description term).

Definition get_tasks (q : query) (tasks : list obj) : result (list obj) :=
  let filteredTasks := tasks in
  let filteredTasks :=
    match supplied (q_status q) with
    | Some status =>
        List.filter (fun task => field_is (task !! "status") status) filteredTasks
    | None => filteredTasks
    end in
  let filteredTasks :=
    match supplied (q_priority q) with
    | Some priority =>
        List.filter (fun task => field_is (task !! "priority") priority) filteredTasks
    | None => filteredTasks
    end in
  match supplied (q_search q) with
  | Some search => filterE (matches_search search) filteredTasks
  | None => Ok filteredTasks
  end.

Definition get_tasks_handler (q : query) (s : store) : response :=
  match get_tasks q (tasks s) with
  | Ok l => Response 200 (Some (JArr (JObj <$> l)))
  | TypeError => uncaught
  end.

(** *** Single tasks *)

(** [t => t.id === id] *)
Definition has_id (id : string) (t : obj) : bool := is_string (t !! "id") id.

(** [tasks.find(...)] and [tasks.findIndex(...)]: the first match and its
    position. *)
Definition find_task (id : string) (tasks : list obj) : option (nat * obj) :=
  list_find (fun t => has_id id t) tasks.

Definition get_task (id : string) (s : store) : response :=
  match find_task id (tasks s) with
  | None => error_response 404 "Task not found"
  | Some (_, task) => Response 200 (Some (JObj task))
  end.

Definition set_tasks (l : list obj) (s : store) : store :=
  Store l (reminders s).

Definition set_reminders (l : list obj) (s : store) : store :=
  Store (tasks s) l.

(** POST /api/tasks *)
Definition post_task (o : oracle) (body : obj) (s : store) : response * store :=
  let title := body !! "title" in
  let description := body !! "description" in
  let priority := default_to (body !! "priority") (JStr "medium") in
  let dueDate := body !! "dueDate" in
  let tags := default_to (body !! "tags") (JArr []) in
  let assignee := body !! "assignee" in
  if negb (truthy title) then
    (error_response 400 "Title is required", s)
  else
    let newTask :=
      object
        [ ("id", Some (JStr (uuidv4 o)));
          ("title", title);
          ("description", Some (or_else description (JStr "")));
          ("status", Some (JStr "todo"));
          ("priority", Some priority);
          ("dueDate", dueDate);
          ("createdAt", Some (JStr (now o)));
          ("updatedAt", Some (JStr (now2 o)));
          ("subtasks", Some (JArr []));
          ("tags", Some tags);
          ("assignee", Some (or_else assignee (JStr ""))) ] in
    (Response 201 (Some (JObj newTask)), set_tasks (tasks s ++ [newTask]) s).

(** PUT /api/tasks/:id *)
Definition put_task (o : oracle) (id : string) (body : obj) (s : store)
  : response * store :=
  match find_task id (tasks s) with
  | None => (error_response 404 "Task not found", s)
  | Some (taskIndex, old) =>
      let updatedTask := <["updatedAt" := JStr (now o)]> (spread2 old body) in
      (Response 200 (Some (JObj updatedTask)),
       set_tasks (<[taskIndex := updatedTask]> (tasks s)) s)
  end.

(** DELETE /api/tasks/:id *)
Definition delete_task (id : string) (s : store) : response * store :=
  match find_task id (tasks s) with
  | None => (error_response 404 "Task not found", s)
  | Some (taskIndex, _) =>
      (Response 204 None, set_tasks (delete taskIndex (tasks s)) s)
  end.

(** *** Subtasks *)

(** POST /api/tasks/:id/subtasks.  [task.subtasks.push] exists only when
    [task.subtasks] is an array. *)
Definition post_subtask (o : oracle) (id : string) (body : obj) (s : store)
  : response * store :=
  match find_task id (tasks s) with
  | None => (error_response 404 "Task not found", s)
  | Some (i, task) =>
      let title := body !! "title" in
      if negb (truthy title) then
        (error_response 400 "Subtask title is required", s)
      else
        let newSubtask :=
          object
            [ ("id", Some (JStr (uuidv4 o)));
              ("title", title);
              ("completed", Some (JBool false)) ] in
        match task !! "subtasks" with
        | Some (JArr subtasks) =>
            let task1 := <["subtasks" := JArr (subtasks ++ [JObj newSubtask])]> task in
            let task2 := <["updatedAt" := JStr (now o)]> task1 in
            (Response 201 (Some (JObj newSubtask)),
             set_tasks (<[i := task2]> (tasks s)) s)
        | _ => (uncaught, s)
        end
  end.

(** [task.subtasks.findIndex(st => st.id === subtaskId)]: reading [.id]
    throws on [null]; on a number, a boolean, a string or an array it
    yields [undefined].  A match is therefore always an object. *)
Fixpoint find_subtask (subtaskId : string) (l : list json)
  : result (option (nat * obj)) :=
  match l with
  | [] => Ok None
  | st :: l' =>
      let next :=
        r ← find_subtask subtaskId l';
        Ok (prod_map S (fun m : obj => m) <$> (r : option (nat * obj))) in
      match st with
      | JNull => TypeError
      | JObj m => if is_string (m !! "id") subtaskId then Ok (Some (0%nat, m)) else next
      | _ => next
      end
  end.

(** PUT /api/tasks/:taskId/subtasks/:subtaskId *)
Definition put_subtask (o : oracle) (taskId subtaskId : string) (body : obj)
  (s : store) : response * store :=
  match find_task taskId (tasks s) with
  | None => (error_response 404 "Task not found", s)
  | Some (i, task) =>
      match task !! "subtasks" with
      | Some (JArr subtasks) =>
          match find_subtask subtaskId subtasks with
          | TypeError => (uncaught, s)
          | Ok None => (error_response 404 "Subtask not found", s)
          | Ok (Some (subtaskIndex, st)) =>
              let st' := spread2 st body in
              let task1 :=
                <["subtasks" := JArr (<[subtaskIndex := JObj st']> subtasks)]> task in
              let task2 := <["updatedAt" := JStr (now o)]> task1 in
              (Response 200 (Some (JObj st')),
               set_tasks (<[i := task2]> (tasks s)) s)
          end
      | _ => (uncaught, s)
      end
  end.

(** DELETE /api/tasks/:taskId/subtasks/:subtaskId *)
Definition delete_subtask (o : oracle) (taskId subtaskId : string) (s : store)
  : response * store :=
  match find_task taskId (tasks s) with
  | None => (error_response 404 "Task not found", s)
  | Some (i, task) =>
      match task !! "subtasks" with
      | Some (JArr subtasks) =>
          match find_subtask subtaskId subtasks with
          | TypeError => (uncaught, s)
          | Ok None => (error_response 404 "Subtask not found", s)
          | Ok (Some (subtaskIndex, _)) =>
              let task1 := <["subtasks" := JArr (delete subtaskIndex subtasks)]> task in
              let task2 := <["updatedAt" := JStr (now o)]> task1 in
              (Response 204 None, set_tasks (<[i := task2]> (tasks s)) s)
          end
      | _ => (uncaught, s)
      end
  end.

(** *** Reminders *)

Definition get_reminders (s : store) : response :=
  Response 200 (Some (JArr (JObj <$> reminders s))).

Definition post_reminder (o : oracle) (body : obj) (s : store) : response * store :=
  let taskId := body !! "taskId" in
  let message := body !! "message" in
  let reminderTime := body !! "reminderTime" in
  if negb (truthy taskId) || negb (truthy message) || negb (truthy reminderTime) then
    (error_response 400 "TaskId, message, and reminderTime are required", s)
  else
    let newReminder :=
      object
        [ ("id", Some (JStr (uuidv4 o)));
          ("taskId", taskId);
          ("message", message);
          ("reminderTime", reminderTime);
          ("isActive", Some (JBool true)) ] in
    (Response 201 (Some (JObj newReminder)),
     set_reminders (reminders s ++ [newReminder]) s).

Definition delete_reminder (id : string) (s : store) : response * store :=
  match list_find (fun r => has_id id r) (reminders s) with
  | None => (error_response 404 "Reminder not found", s)
  | Some (reminderIndex, _) =>
      (Response 204 None, set_reminders (delete reminderIndex (reminders s)) s)
  end.

(** *** The endpoint layer *)

(** A request as a handler sees it: the route, its path parameters, and
    [req.body] after [express.json()].  The body is given by its own
    properties: the parser yields an object or an array (an array shows its
    elements under their decimal indices), and the empty object when the
    request carries no JSON.  GET /api/stats reads the store and the clock
    and changes nothing; it is not part of this type. *)
Inductive request : Type :=
| GET_tasks (q : query)
| GET_task (id : string)
| POST_task (body : obj)
| PUT_task (id : string) (body : obj)
| DELETE_task (id : string)
| POST_subtask (id : string) (body : obj)
| PUT_subtask (taskId subtaskId : string) (body : obj)
| DELETE_subtask (taskId subtaskId : string)
| GET_reminders
| POST_reminder (body : obj)
| DELETE_reminder (id : string).

Definition handle (o : oracle) (r : request) (s : store) : response * store :=
  match r with
  | GET_tasks q => (get_tasks_handler q s, s)
  | GET_task id => (get_task id s, s)
  | POST_task body => post_task o body s
  | PUT_task id body => put_task o id body s
  | DELETE_task id => delete_task id s
  | POST_subtask id body => post_subtask o id body s
  | PUT_subtask taskId subtaskId body => put_subtask o taskId subtaskId body s
  | DELETE_subtask taskId subtaskId => delete_subtask o taskId subtaskId s
  | GET_reminders => (get_reminders s, s)
  | POST_reminder body => post_reminder o body s
  | DELETE_reminder id => delete_reminder id s
  end.

(** The stores the process can be in: the one it boots with, and any store
    obtained from a reachable one by serving a request. *)
Inductive reachable : store → Prop :=
| reachable_boot (b : boot) : reachable (initial_store b)
| reachable_step (o : oracle) (r : request) (s : store) :
    reachable s → reachable (handle o r s).2.

(** The task a mutating request on a task or on one of its subtasks is
    addressed to: task replace-merge, subtask create, subtask replace-merge
    and subtask delete. *)
Definition mutated_task (r : request) : option string :=
  match r with
  | PUT_task id _ => Some id
  | POST_subtask id _ => Some id
  | PUT_subtask taskId _ _ => Some taskId
  | DELETE_subtask taskId _ => Some taskId
  | _ => None
  end.

(** *** The filter as the specification words it *)

(** The term is a case-insensitive substring of a text field. *)
Definition text_includes (v : jsval) (term : string) : bool :=
  match v with
  | Some (JStr text) => includes (lower text) (lower term)
  | _ => false
  end.

(** The status and priority filters alone.  A parameter that is absent or
    the empty string does not filter; one that is an array or an object
    matches no task. *)
Definition admits_fields (q : query) (t : obj) : bool :=
  match supplied (q_status q) with
  | Some status => field_is (t !! "status") status
  | None => true
  end
  && match supplied (q_priority q) with
     | Some priority => field_is (t !! "priority") priority
     | None => true
     end.

(** One predicate for the whole query: the conjunction over the filter
    dimensions, a disjunction inside the text search. *)
Definition admits (q : query) (t : obj) : bool :=
  admits_fields q t
  && match supplied (q_search q) with
     | Some (QString term) =>
         text_includes (t !! "title") term || text_includes (t !! "description") term
     | Some QStructured => false
     | None => true
     end.

(** The same reading with every string parameter that is present taken as
    a filter, the empty string included. *)
Definition admits_present (q : query) (t : obj) : Prop :=
  (∀ status, q_status q = Some (QString status) → t !! "status" = Some (JStr status))
  ∧ (∀ priority, q_priority q = Some (QString priority) →
       t !! "priority" = Some (JStr priority))
  ∧ (∀ term, q_search q = Some (QString term) →
       (∃ text, t !! "title" = Some (JStr text) ∧ ci_substring term text)
       ∨ (∃ text, t !! "description" = Some (JStr text) ∧ ci_substring term text)).

(** The title and the description of a task are strings. *)
Definition has_text (t : obj) : Prop :=
  (∃ title, t !! "title" = Some (JStr title))
  ∧ (∃ description, t !! "description" = Some (JStr description)).

(** The search callback can read the task: the title is a string and,
    unless the term is found in it, the description is a string too. *)
Definition readable (term : string) (t : obj) : Prop :=
  ∃ title, t !! "title" = Some (JStr title)
    ∧ (ci_substring term title
       ∨ ∃ description, t !! "description" = Some (JStr description)).

(** The search raises on no task it is run on: no search is in force, or
    the term is one string and the callback can read every task that the
    status and priority filters let through. *)
Definition searchable (q : query) (l : list obj) : Prop :=
  supplied (q_search q) = None
  ∨ ∀ t, t ∈ l → admits_fields q t = true →
      ∃ term, q_search q = Some (QString term) ∧ readable term t.

(** The query [?status=st]. *)
Definition by_status (st : string) : query := Query (Some (QString st)) None None.

(** The status of a task is one of the three the data model names. *)
Definition known_status (t : obj) : bool :=
  is_string (t !! "status") "todo"
  || is_string (t !! "status") "in-progress"
  || is_string (t !! "status") "completed".

(** A 2xx answer. *)
Definition succeeded (r : response) : bool :=
  ((200 <=? status r) && (status r <? 300))%nat.

End WithStrings.
End Server.

(* ===================================================================== *)
(** ** The state layer of the client *)
(* ===================================================================== *)

(** *** Property access through the prototype chain *)

(** [ToString] of an array element inside [Array.prototype.join]: [null]
    prints as nothing. *)
Fixpoint to_property_key (v : json) : string :=
  match v with
  | JNull => "null"
  | JBool true => "true"
  | JBool false => "false"
  | JNum n => pretty n
  | JStr s => s
  | JArr l =>
      (fix join (l : list json) : string :=
         match l with
         | [] => ""
         | [x] => match x with JNull => "" | _ => to_property_key x end
         | x :: l' =>
             (match x with JNull => "" | _ => to_property_key x end)
             +:+ "," +:+ join l'
         end) l
  | JObj _ => "[object Object]"
  end.

(** [ToPropertyKey] of the value used in [table[v]]. *)
Definition property_key (v : jsval) : string :=
  match v with
  | Some x => to_property_key x
  | None => "undefined"
  end.

(** What [table[v]] finds in an object literal whose own properties are
    [own]: an own property, a property inherited from [Object.prototype],
    or nothing. *)
Inductive literal_lookup (A : Type) : Type :=
| Own (a : A)
| Inherited (text : string)
| Missing.
Arguments Own {A} a.
Arguments Inherited {A} text.
Arguments Missing {A}.

Definition lookup_literal {A} (inherited : string → option string)
  (own : list (string * A)) (v : jsval) : literal_lookup A :=
  let k := property_key v in
  match (list_to_map own : gmap string A) !! k with
  | Some a => Own a
  | None =>
      match inherited k with
      | Some text => Inherited text
      | None => Missing
      end
  end.

(** *** Dates *)

(** [x < y] on the time values of two [Date] objects; an Invalid Date
    ([None]) compares false with everything. *)
Definition time_lt (x y : option Z) : bool :=
  match x, y with
  | Some a, Some b => a <? b
  | _, _ => false
  end.

(** The callback that both [taskStats] and [stats] pass to [filter]:
    [if (!t.dueDate || t.status === 'completed') return false;
     return new Date(t.dueDate) < new Date();]
    [Date_value v] is the time value of [new Date(v)] and [clock] the
    time value of [new Date()]; the derivation runs synchronously and all
    its readings of the clock are taken to be the same instant. *)
Definition is_overdue (Date_value : jsval → option Z) (clock : Z) (t : obj) : bool :=
  if negb (truthy (t !! "dueDate")) || is_string (t !! "status") "completed"
  then false
  else time_lt (Date_value (t !! "dueDate")) (Some clock).

(** [tasks.filter(p).length] *)
Definition count (p : obj → bool) (l : list obj) : nat :=
  length (List.filter p l).

Module TaskContext.

(** The state cells of [TaskProvider] that the task handlers touch. *)
Record state := State {
  tasks : list obj;
  error : option string;
  showEditModal : bool;
  editingTask : option obj;
  isSubmitting : bool }.

Definition setTasks (l : list obj) (s : state) : state :=
  State l (error s) (showEditModal s) (editingTask s) (isSubmitting s).
Definition setError (e : option string) (s : state) : state :=
  State (tasks s) e (showEditModal s) (editingTask s) (isSubmitting s).
Definition setShowEditModal (b : bool) (s : state) : state :=
  State (tasks s) (error s) b (editingTask s) (isSubmitting s).
Definition setEditingTask (t : option obj) (s : state) : state :=
  State (tasks s) (error s) (showEditModal s) t (isSubmitting s).
Definition setIsSubmitting (b : bool) (s : state) : state :=
  State (tasks s) (error s) (showEditModal s) (editingTask s) b.

(** How the promise of [updateTask] settles: it resolves, or it rejects
    with an [Error] carrying a message. *)
Inductive settlement : Type :=
| Resolved
| Rejected (message : string).

(** What [handleUpdateTask] holds across its [await]: the rollback copy
    [previousTasks] and the request it has issued. *)
Record pending := Pending {
  previousTasks : list obj;
  request_id : jsval;
  request_body : obj }.

(** [handleUpdateTask] up to the [await].  The callback closes over the
    [tasks] and [editingTask] of the render that created it ([rendered]);
    the setters act on the live state.  Without an [editingTask] the
    function returns at once and nothing is issued. *)
Definition handleUpdateTask_start (rendered : state) (taskData : obj) (live : state)
  : state * option pending :=
  match editingTask rendered with
  | None => (live, None)
  | Some editing =>
      let live := setIsSubmitting true live in
      let previousTasks := tasks rendered in
      let updatedTasks :=
        (fun task : obj =>
           if strict_equal (task !! "id") (editing !! "id")
           then spread2 task taskData else task) <$> tasks rendered in
      let live := setTasks updatedTasks live in
      (live, Some (Pending previousTasks (editing !! "id") taskData))
  end.

(** [error.message || 'Failed to update task'] *)
Definition update_error_message (message : string) : string :=
  if truthy (Some (JStr message)) then message else "Failed to update task".

(** [handleUpdateTask] after the [await]: the rest of the [try] block, or
    the [catch] block, and then [finally]. *)
Definition handleUpdateTask_settle (p : pending) (o : settlement) (live : state)
  : state :=
  let live :=
    match o with
    | Resolved =>
        let live := setShowEditModal false live in
        setEditingTask None live
    | Rejected message =>
        let live := setTasks (previousTasks p) live in
        setError (Some (update_error_message message)) live
    end in
  setIsSubmitting false live.

(** The memoized [taskStats]. *)
Record task_stats := TaskStats {
  total : nat;
  completed : nat;
  inProgress : nat;
  overdue : nat;
  completionRate : Z }.

Section WithEngine.
(** The time value of [new Date(v)]; [None] for an Invalid Date. *)
Variable Date_value : jsval → option Z.
(** [Math.round((completed / total) * 100)] on doubles. *)
Variable round_percent : nat → nat → Z.

Definition taskStats (clock : Z) (s : state) : task_stats :=
  let total := length (tasks s) in
  let completed := count (fun t => is_string (t !! "status") "completed") (tasks s) in
  let inProgress := count (fun t => is_string (t !! "status") "in-progress") (tasks s) in
  let overdue := count (is_overdue Date_value clock) (tasks s) in
  let completionRate :=
    if (0 <? total)%nat then round_percent completed total else 0 in
  TaskStats total completed inProgress overdue completionRate.
End WithEngine.

End TaskContext.

Module TaskBoard.

(** The five preferences kept under [useLocalStorage]. *)
Record selections := Selections {
  searchTerm : string;
  statusFilter : string;
  priorityFilter : string;
  sortBy : string;
  sortOrder : string }.

(** The memoized [stats]. *)
Record statistics := Statistics {
  total : nat;
  completed : nat;
  inProgress : nat;
  overdue : nat }.

(** The value of [tasksByStatus]. *)
Record groups := Groups {
  todo_tasks : list obj;
  in_progress_tasks : list obj;
  completed_tasks : list obj }.

(** Everything in scope when the component body runs: the props, the
    stored preferences, and the clock that [new Date()] reads. *)
Record render := Render {
  r_tasks : option (list obj);
  r_isLoading : bool;
  r_error : option string;
  r_selections : selections;
  r_clock : Z }.

(** A task as the data model describes its text: title and description
    are strings and the tags are an array of strings. *)
Definition well_formed (t : obj) : Prop :=
  (∃ title, t !! "title" = Some (JStr title))
  ∧ (∃ description, t !! "description" = Some (JStr description))
  ∧ (∃ tags : list string, t !! "tags" = Some (JArr (JStr <$> tags))).

(** What the comparator puts in [aValue] and [bValue]: a string, a number
    (or the time value of a date), or something that converts to [NaN]
    ([undefined], an Invalid Date). *)
Inductive sort_value : Type :=
| SString (s : string)
| SNumber (n : Z)
| SNaN.

Section WithStrings.
Context {strings : Strings}.

(** [aValue < bValue].  Two strings are compared as strings, two numbers
    as numbers; every other pair converts one side to [NaN]. *)
Definition less_than (a b : sort_value) : bool :=
  match a, b with
  | SString x, SString y => string_lt x y
  | SNumber x, SNumber y => x <? y
  | _, _ => false
  end.

(** [Array.prototype.sort] with a comparator that may throw.  The standard
    asks for a stable sort; this is the stable insertion sort, to which
    every stable sort is equal when the comparator is a consistent order. *)
Fixpoint insertE {A} (cmp : A → A → result Z) (x : A) (l : list A)
  : result (list A) :=
  match l with
  | [] => Ok [x]
  | y :: l' =>
      c ← cmp x y;
      if ((c : Z) <=? 0) then Ok (x :: y :: l')
      else r ← insertE cmp x l'; Ok (y :: (r : list A))
  end.

Fixpoint sortE {A} (cmp : A → A → result Z) (l : list A) : result (list A) :=
  match l with
  | [] => Ok []
  | x :: l' => r ← sortE cmp l'; insertE cmp x r
  end.

(** [Array.prototype.forEach] threading the object the callback mutates. *)
Fixpoint forEachE {A S} (f : S → A → result S) (acc : S) (l : list A) : result S :=
  match l with
  | [] => Ok acc
  | x :: l' => acc' ← f acc x; forEachE f acc' l'
  end.

Section WithEngine.
(** The time value of [new Date(v)]; [None] for an Invalid Date. *)
Variable Date_value : jsval → option Z.
(** For a property name that [Object.prototype] defines, the string its
    value converts to; [None] for every other name. *)
Variable inherited : string → option string.

(** [tag => tag.toLowerCase().includes(searchTerm.toLowerCase())] *)
Definition tag_matches (searchTerm : string) (tag : json) : result bool :=
  t ← toLowerCase (Some tag);
  Ok (includes t (lower searchTerm)).

Definition matchesSearch (searchTerm : string) (task : obj) : result bool :=
  if negb (truthy (Some (JStr searchTerm))) then Ok true
  else
    title ← toLowerCase (task !! "title");
    if includes title (lower searchTerm) then Ok true
    else
      description ← toLowerCase (task !! "description");
      if includes description (lower searchTerm) then Ok true
      else
        match task !! "tags" with
        | Some (JArr tags) => someE (tag_matches searchTerm) tags
        | _ => TypeError
        end.

Definition matchesStatus (statusFilter : string) (task : obj) : bool :=
  bool_decide (statusFilter = "all") || is_string (task !! "status") statusFilter.

Definition matchesPriority (priorityFilter : string) (task : obj) : bool :=
  bool_decide (priorityFilter = "all") || is_string (task !! "priority") priorityFilter.

(** The callback of [tasks.filter]. *)
Definition passes (sel : selections) (task : obj) : result bool :=
  m ← matchesSearch (searchTerm sel) task;
  Ok ((m : bool) && matchesStatus (statusFilter sel) task
      && matchesPriority (priorityFilter sel) task).

Definition priorityOrder : list (string * Z) :=
  [("high", 3); ("medium", 2); ("low", 1)].
Definition statusOrder : list (string * Z) :=
  [("todo", 1); ("in-progress", 2); ("completed", 3)].

Definition order_value (table : list (string * Z)) (v : jsval) : sort_value :=
  match lookup_literal inherited table v with
  | Own n => SNumber n
  | Inherited text => SString text
  | Missing => SNaN
  end.

Definition date_value (v : jsval) : sort_value :=
  match Date_value v with
  | Some t => SNumber t
  | None => SNaN
  end.

(** The [switch (sortBy)] of the comparator, for one of its two
    arguments. *)
Definition sort_key (sortBy : string) (a : obj) : result sort_value :=
  if bool_decide (sortBy = "title") then
    s ← toLowerCase (a !! "title"); Ok (SString s)
  else if bool_decide (sortBy = "priority") then
    Ok (order_value priorityOrder (a !! "priority"))
  else if bool_decide (sortBy = "dueDate") then
    Ok (date_value (if truthy (a !! "dueDate") then a !! "dueDate"
                    else Some (JStr "9999-12-31")))
  else if bool_decide (sortBy = "status") then
    Ok (order_value statusOrder (a !! "status"))
  else
    Ok (date_value (a !! "createdAt")).

Definition compareTasks (sel : selections) (a b : obj) : result Z :=
  aValue ← sort_key (sortBy sel) a;
  bValue ← sort_key (sortBy sel) b;
  let asc := bool_decide (sortOrder sel = "asc") in
  Ok (if less_than aValue bValue then (if asc then -1 else 1)
      else if less_than bValue aValue then (if asc then 1 else -1)
      else 0).

(** The memoized [filteredAndSortedTasks]; the [tasks] prop may be
    missing. *)
Definition filteredAndSortedTasks (tasks : option (list obj)) (sel : selections)
  : result (list obj) :=
  match tasks with
  | None => Ok []
  | Some tasks =>
      filtered ← filterE (passes sel) tasks;
      sortE (compareTasks sel) filtered
  end.

(** [if (grouped[task.status]) grouped[task.status].push(task)]: the
    three own properties are arrays; an inherited property is truthy and
    has no [push]. *)
Definition push_grouped (grouped : groups) (task : obj) : result groups :=
  let k := property_key (task !! "status") in
  if bool_decide (k = "todo") then
    Ok (Groups (todo_tasks grouped ++ [task]) (in_progress_tasks grouped)
               (completed_tasks grouped))
  else if bool_decide (k = "in-progress") then
    Ok (Groups (todo_tasks grouped) (in_progress_tasks grouped ++ [task])
               (completed_tasks grouped))
  else if bool_decide (k = "completed") then
    Ok (Groups (todo_tasks grouped) (in_progress_tasks grouped)
               (completed_tasks grouped ++ [task]))
  else
    match inherited k with
    | Some _ => TypeError
    | None => Ok grouped
    end.

(** The memoized [tasksByStatus], computed from [filteredAndSortedTasks]. *)
Definition tasksByStatus (tasks : option (list obj)) (sel : selections)
  : result groups :=
  view ← filteredAndSortedTasks tasks sel;
  forEachE push_grouped (Groups [] [] []) view.

Definition stats (clock : Z) (tasks : option (list obj)) : statistics :=
  match tasks with
  | None => Statistics 0 0 0 0
  | Some tasks =>
      let total := length tasks in
      let completed := count (fun t => is_string (t !! "status") "completed") tasks in
      let inProgress := count (fun t => is_string (t !! "status") "in-progress") tasks in
      let overdue := count (is_overdue Date_value clock) tasks in
      Statistics total completed inProgress overdue
  end.

Definition render_view (r : render) : result (list obj) :=
  filteredAndSortedTasks (r_tasks r) (r_selections r).
Definition render_groups (r : render) : result groups :=
  tasksByStatus (r_tasks r) (r_selections r).
Definition render_stats (r : render) : statistics :=
  stats (r_clock r) (r_tasks r).
End WithEngine.
End WithStrings.

End TaskBoard.

(* ===================================================================== *)
(** ** One JavaScript engine, for the examples *)
(* ===================================================================== *)

Module Engine.

(** [toLowerCase] on ASCII text: the letters A to Z are lowered and every
    other byte is kept. *)
Definition lower_ascii (c : ascii) : ascii :=
  let n := nat_of_ascii c in
  if ((65 <=? n) && (n <=? 90))%nat then ascii_of_nat (n + 32) else c.

Fixpoint lower_text (s : string) : string :=
  match s with
  | EmptyString => EmptyString
  | String c s' => String (lower_ascii c) (lower_text s')
  end.

(** The string operations on ASCII text, where every code unit is one
    byte. *)
Definition ascii_strings : Strings :=
  {| lower := lower_text; string_lt := String.ltb |}.

(** Days between 1970-01-01 and a date of the proleptic Gregorian
    calendar. *)
Definition days_from_civil (y m d : Z) : Z :=
  let y := if m <=? 2 then y - 1 else y in
  let era := y / 400 in
  let yoe := y - era * 400 in
  let doy := (153 * (if 2 <? m then m - 3 else m + 9) + 2) / 5 + d - 1 in
  let doe := yoe * 365 + yoe / 4 - yoe / 100 + doy in
  era * 146097 + doe - 719468.

Definition digit (c : ascii) : option Z := Z.of_nat <$> Ascii.is_nat c.

Fixpoint number (acc : Z) (l : list ascii) : option Z :=
  match l with
  | [] => Some acc
  | c :: l' => d ← digit c; number (10 * acc + d) l'
  end.

Definition civil (y m d : list ascii) : option Z :=
  y ← number 0 y; m ← number 0 m; d ← number 0 d;
  if (1 <=? m) && (m <=? 12) && (1 <=? d) && (d <=? 31)
  then Some (days_from_civil y m d * 86400000) else None.

Definition time_of_day (h m s ms : list ascii) : option Z :=
  h ← number 0 h; m ← number 0 m; s ← number 0 s; ms ← number 0 ms;
  if (h <=? 23) && (m <=? 59) && (s <=? 59)
  then Some (((h * 60 + m) * 60 + s) * 1000 + ms) else None.

(** [Date.parse] on the two forms the program itself writes: the date
    form [YYYY-MM-DD] and the [toISOString] form
    [YYYY-MM-DDTHH:mm:ss.sssZ], both in UTC. *)
Definition Date_parse (s : string) : option Z :=
  match list_ascii_of_string s with
  | [y1; y2; y3; y4; "-"; m1; m2; "-"; d1; d2]%char =>
      civil [y1; y2; y3; y4] [m1; m2] [d1; d2]
  | [y1; y2; y3; y4; "-"; m1; m2; "-"; d1; d2; "T";
     h1; h2; ":"; n1; n2; ":"; s1; s2; "."; f1; f2; f3; "Z"]%char =>
      day ← civil [y1; y2; y3; y4] [m1; m2] [d1; d2];
      t ← time_of_day [h1; h2] [n1; n2] [s1; s2] [f1; f2; f3];
      Some (day + t)
  | _ => None
  end.

(** The time value of [new Date(v)] for a string in one of these forms or
    for a number of milliseconds. *)
Definition Date_value (v : jsval) : option Z :=
  match v with
  | Some (JStr s) => Date_parse s
  | Some (JNum n) => Some n
  | _ => None
  end.

(** The properties every object literal inherits, with the text their
    value converts to. *)
Definition Object_prototype (k : string) : option string :=
  if bool_decide (k = "__proto__") then Some "[object Object]"
  else if bool_decide
            (k ∈ ["constructor"; "hasOwnProperty"; "isPrototypeOf";
                  "propertyIsEnumerable"; "toLocaleString"; "toString";
                  "valueOf"; "__defineGetter__"; "__defineSetter__";
                  "__lookupGetter__"; "__lookupSetter__"])
  then Some ("function " +:+ k +:+ "() { [native code] }")
  else None.

(** [Math.round((completed / total) * 100)] in exact arithmetic: halves
    round up. *)
Definition round_percent (completed total : nat) : Z :=
  (200 * Z.of_nat completed + Z.of_nat total) / (2 * Z.of_nat total).

End Engine.

(* ===================================================================== *)
(** ** Sample data *)
(* ===================================================================== *)

Module Sample.

Definition boot : Server.boot :=
  Server.Boot "2025-01-10T09:00:00.000Z" "2025-01-10T09:00:00.000Z"
              "2025-01-10T09:00:00.000Z" "2025-01-10T09:00:00.000Z"
              "2025-01-11T09:00:00.000Z".

Definition oracle : Server.oracle :=
  Server.Oracle "3f2504e0-4f89-41d3-9a0c-0305e82c3301"
                "2025-01-12T08:30:00.000Z" "2025-01-12T08:30:00.001Z".

Definition store0 : Server.store := Server.initial_store boot.

(** [{ "title": "Write spec" }] *)
Definition write_spec : obj := object [("title", Some (JStr "Write spec"))].

(** [{ "status": "completed" }] *)
Definition mark_completed : obj := object [("status", Some (JStr "completed"))].

(** [{ "status": "archived" }] *)
Definition mark_archived : obj := object [("status", Some (JStr "archived"))].

(** [{ "title": "Read the docs", "completed": true, "id": "mine" }] *)
Definition eager_subtask : obj :=
  object [ ("title", Some (JStr "Read the docs"));
           ("completed", Some (JBool true));
           ("id", Some (JStr "mine")) ].

(** [{ "completed": true }] *)
Definition tick : obj := object [("completed", Some (JBool true))].

(** [{ "title": 42 }] *)
Definition numeric_title : obj := object [("title", Some (JNum 42))].

(** The state of the provider while the first task is being edited. *)
Definition editing_first : TaskContext.state :=
  TaskContext.State (Server.tasks store0) None true
                    (Server.tasks store0 !! 0%nat) false.

(** The board's preferences with a search term typed in. *)
Definition searching (term : string) : TaskBoard.selections :=
  TaskBoard.Selections term "all" "all" "createdAt" "desc".

(** Two renders of the board over the same tasks and preferences, on
    2025-01-01 and on 2025-02-01. *)
Definition render_january : TaskBoard.render :=
  TaskBoard.Render (Some (Server.tasks store0)) false None (searching "")
                   1735689600000.
Definition render_february : TaskBoard.render :=
  TaskBoard.Render (Some (Server.tasks store0)) true (Some "offline") (searching "")
                   1738368000000.

End Sample.

(* ===================================================================== *)
(** ** More of the endpoint layer *)
(* ===================================================================== *)

Module ServerExtra.
Import Server.

(** The task id in the path of a request, for the routes under
    [/api/tasks/:id]. *)
Definition addressed_task (r : request) : option string :=
  match r with
  | GET_task id => Some id
  | PUT_task id _ => Some id
  | DELETE_task id => Some id
  | POST_subtask id _ => Some id
  | PUT_subtask taskId _ _ => Some taskId
  | DELETE_subtask taskId _ => Some taskId
  | _ => None
  end.

(** The subtask id in the path of a request. *)
Definition addressed_subtask (r : request) : option (string * string) :=
  match r with
  | PUT_subtask taskId subtaskId _ => Some (taskId, subtaskId)
  | DELETE_subtask taskId subtaskId => Some (taskId, subtaskId)
  | _ => None
  end.

(** The routes under [/api/reminders]. *)
Definition is_reminder_request (r : request) : bool :=
  match r with
  | GET_reminders | POST_reminder _ | DELETE_reminder _ => true
  | _ => false
  end.

(** The value of GET /api/stats. *)
Record stats := Stats {
  total : nat;
  todo : nat;
  inProgress : nat;
  completed : nat;
  overdue : nat }.

(** [t => t.dueDate && new Date(t.dueDate) < new Date()
          && t.status !== 'completed'] *)
Definition stats_overdue (Date_value : jsval → option Z) (clock : Z) (t : obj) : bool :=
  truthy (t !! "dueDate")
  && time_lt (Date_value (t !! "dueDate")) (Some clock)
  && negb (is_string (t !! "status") "completed").

(** The handler of GET /api/stats; it reads the store and the clock. *)
Definition get_stats (Date_value : jsval → option Z) (clock : Z) (s : store) : stats :=
  Stats (length (tasks s))
        (count (fun t => is_string (t !! "status") "todo") (tasks s))
        (count (fun t => is_string (t !! "status") "in-progress") (tasks s))
        (count (fun t => is_string (t !! "status") "completed") (tasks s))
        (count (stats_overdue Date_value clock) (tasks s)).

(** An element that [st => st.id === subtaskId] rejects without raising. *)
Definition skipped (subtaskId : string) (v : json) : Prop :=
  v ≠ JNull ∧ ∀ m, v = JObj m → m !! "id" ≠ Some (JStr subtaskId).

End ServerExtra.

(* ===================================================================== *)
(** ** The API client ([api.js]) *)
(* ===================================================================== *)

Module Api.

(** What [fetch] delivers: a response, or a failure of the transport. *)
Inductive delivery : Type :=
| Delivered (r : Server.response)
| Failed (message : string).

(** How the promise of [apiRequest] settles: with the data of the
    response, or with a thrown [Error] and its message. *)
Inductive settled : Type :=
| Fulfilled (data : json)
| Thrown (message : string).

Section WithEngine.
(** The message of the [TypeError] raised by reading [.error] of [null],
    and the message of the [SyntaxError] raised by [response.json()] on a
    body that is not JSON. *)
Variable TypeError_message : string.
Variable SyntaxError_message : string.

(** [errorData.error] where [errorData] is the parsed body of a failed
    response, or [{}] when the body does not parse. *)
Definition error_field (payload : option json) : jsval :=
  match payload with
  | Some (JObj m) => m !! "error"
  | _ => None
  end.

(** [apiRequest]: the [catch] block logs and throws again, so every
    exception raised in the [try] block is the outcome. *)
Definition apiRequest (d : delivery) : settled :=
  match d with
  | Failed message => Thrown message
  | Delivered r =>
      if negb (Server.succeeded r) then
        match Server.payload r with
        | Some JNull => Thrown TypeError_message
        | payload =>
            let error := error_field payload in
            Thrown (if truthy error then property_key error
                    else "HTTP error! status: " +:+ pretty (Server.status r))
        end
      else if bool_decide (Server.status r = 204%nat) then Fulfilled JNull
      else
        match Server.payload r with
        | Some data => Fulfilled data
        | None => Thrown SyntaxError_message
        end
  end.

(** A request function of the client run against the server: [fetch]
    delivers the answer of the handler. *)
Definition call {strings : Strings} (o : Server.oracle) (r : Server.request)
  (s : Server.store) : settled * Server.store :=
  (apiRequest (Delivered (Server.handle o r s).1), (Server.handle o r s).2).
End WithEngine.

(** [fetchTasks()] as [loadTasks] calls it, without filters: the query
    string is empty. *)
Definition fetchTasks : Server.request :=
  Server.GET_tasks (Server.Query None None None).
Definition createTask (taskData : obj) : Server.request :=
  Server.POST_task taskData.

(** The other request functions put ids in the path, as in
    [`/tasks/${id}`]: the id is converted with [ToString] and is not
    escaped.  The URL parser of [fetch] and the router of the server split
    the path at [/], [?] and [#], drop dot segments and decode [%]
    sequences.  A character that all of them leave alone: *)
Definition unreserved (c : ascii) : bool :=
  let n := nat_of_ascii c in
  ((48 <=? n) && (n <=? 57) || (65 <=? n) && (n <=? 90)
   || (97 <=? n) && (n <=? 122) || (n =? 45) || (n =? 95))%nat.

(** A text that arrives at the handler as the path parameter it was sent
    as: it is not empty and is made of letters, digits, [-] and [_]; the
    ids the server generates and the ids of the initial data are of this
    kind. *)
Definition plain (s : string) : bool :=
  negb (bool_decide (s = "")) && forallb unreserved (list_ascii_of_string s).

(** [${id}] as the handler receives it; [None] for an id that is not
    plain: which route such a request reaches, and with which parameters,
    is not modelled. *)
Definition path_param (id : jsval) : option string :=
  if plain (property_key id) then Some (property_key id) else None.

(** The requests that reach a handler, with the parameters it receives. *)
Definition updateTask (id : jsval) (taskData : obj) : option Server.request :=
  id ← path_param id; Some (Server.PUT_task id taskData).
Definition deleteTask (id : jsval) : option Server.request :=
  id ← path_param id; Some (Server.DELETE_task id).
Definition createSubtask (taskId : jsval) (subtaskData : obj)
  : option Server.request :=
  taskId ← path_param taskId; Some (Server.POST_subtask taskId subtaskData).
Definition updateSubtask (taskId subtaskId : jsval) (subtaskData : obj)
  : option Server.request :=
  taskId ← path_param taskId; subtaskId ← path_param subtaskId;
  Some (Server.PUT_subtask taskId subtaskId subtaskData).
Definition deleteSubtask (taskId subtaskId : jsval) : option Server.request :=
  taskId ← path_param taskId; subtaskId ← path_param subtaskId;
  Some (Server.DELETE_subtask taskId subtaskId).

End Api.

(* ===================================================================== *)
(** ** More of the task provider ([TaskContext.jsx]) *)
(* ===================================================================== *)

Module TaskProvider.
Import TaskContext.

(** [handleTaskUpdate]: the updater
    [prevTasks => prevTasks.map(task =>
       task.id === updatedTask.id ? updatedTask : task)]. *)
Definition handleTaskUpdate (updatedTask : obj) (prevTasks : list obj) : list obj :=
  (fun task : obj =>
     if strict_equal (task !! "id") (updatedTask !! "id") then updatedTask else task)
  <$> prevTasks.

(** [handleTaskDelete]: the updater
    [prevTasks => prevTasks.filter(task => task.id !== taskId)]. *)
Definition handleTaskDelete (taskId : jsval) (prevTasks : list obj) : list obj :=
  List.filter (fun task : obj => negb (strict_equal (task !! "id") taskId)) prevTasks.

(** [handleEditTask] *)
Definition handleEditTask (task : obj) (s : state) : state :=
  setShowEditModal true (setEditingTask (Some task) s).

(** [handleCloseEditModal] *)
Definition handleCloseEditModal (s : state) : state :=
  setEditingTask None (setShowEditModal false s).

(** The provider's state with the cells that [handleCreateTask] and
    [loadTasks] touch besides those of [state]. *)
Record provider := Provider {
  cells : state;
  isLoading : bool;
  showCreateModal : bool;
  lastRefresh : option string }.

Definition on_cells (f : state → state) (p : provider) : provider :=
  Provider (f (cells p)) (isLoading p) (showCreateModal p) (lastRefresh p).
Definition setShowCreateModal (b : bool) (p : provider) : provider :=
  Provider (cells p) (isLoading p) b (lastRefresh p).
Definition setIsLoading (b : bool) (p : provider) : provider :=
  Provider (cells p) b (showCreateModal p) (lastRefresh p).
Definition setLastRefresh (t : option string) (p : provider) : provider :=
  Provider (cells p) (isLoading p) (showCreateModal p) t.

(** How [createTask] settles: with the task the server made, or with an
    error. *)
Inductive creation : Type :=
| Created (newTask : obj)
| NotCreated (message : string).

(** [handleCreateTask] up to the [await]: nothing but the submitting flag
    changes before the server answers. *)
Definition handleCreateTask_start (p : provider) : provider :=
  on_cells (setIsSubmitting true) p.

(** [handleCreateTask] after the [await]. *)
Definition handleCreateTask_settle (c : creation) (p : provider) : provider :=
  let p :=
    match c with
    | Created newTask =>
        let p := on_cells (fun s => setTasks (newTask :: tasks s) s) p in
        setShowCreateModal false p
    | NotCreated message =>
        on_cells (setError (Some (if truthy (Some (JStr message)) then message
                                  else "Failed to create task"))) p
    end in
  on_cells (setIsSubmitting false) p.

(** How [fetchTasks] settles. *)
Inductive loading : Type :=
| Loaded (fetchedTasks : list obj)
| NotLoaded (message : string).

(** [loadTasks] up to the [await]. *)
Definition loadTasks_start (p : provider) : provider :=
  on_cells (setError None) (setIsLoading true p).

(** [loadTasks] after the [await]; [clock] is
    [new Date().toISOString()]. *)
Definition loadTasks_settle (clock : string) (l : loading) (p : provider) : provider :=
  let p :=
    match l with
    | Loaded fetchedTasks =>
        setLastRefresh (Some clock) (on_cells (setTasks fetchedTasks) p)
    | NotLoaded message =>
        on_cells (setError (Some (if truthy (Some (JStr message)) then message
                                  else "Failed to load tasks"))) p
    end in
  setIsLoading false p.

(** The settlement of [updateTask] as [handleUpdateTask] sees it: the data
    of the answer is not used. *)
Definition update_settlement (r : Api.settled) : settlement :=
  match r with
  | Api.Fulfilled _ => Resolved
  | Api.Thrown message => Rejected message
  end.

End TaskProvider.

(* ===================================================================== *)
(** ** The task card ([TaskCard.jsx]) *)
(* ===================================================================== *)

Module TaskCard.

(** [handleStatusChange] up to the [await]: the call
    [onTaskUpdate({ ...task, status: newStatus })] on the provider's tasks
    and the request [updateTask(task.id, { status: newStatus })], as it
    reaches the server. *)
Definition handleStatusChange_start (task : obj) (newStatus : string)
  (tasks : list obj) : list obj * option Server.request :=
  (TaskProvider.handleTaskUpdate (<["status" := JStr newStatus]> task) tasks,
   Api.updateTask (task !! "id") (object [("status", Some (JStr newStatus))])).

(** [handleStatusChange] after the [await]: the [catch] block calls
    [onTaskUpdate(previousTask)] with the copy [{ ...task }]. *)
Definition handleStatusChange_settle (task : obj) (r : Api.settled)
  (tasks : list obj) : list obj :=
  match r with
  | Api.Fulfilled _ => tasks
  | Api.Thrown _ => TaskProvider.handleTaskUpdate task tasks
  end.

(** [handleDelete]: nothing happens unless [window.confirm] answers yes
    ([None]); then [deleteTask(task.id)] is issued, and the value is the
    request as it reaches the server. *)
Definition handleDelete_start (task : obj) (confirmed : bool)
  : option (option Server.request) :=
  if confirmed then Some (Api.deleteTask (task !! "id")) else None.

(** [handleDelete] after the [await]: [onTaskDelete(task.id)] on success,
    nothing on failure. *)
Definition handleDelete_settle (task : obj) (r : Api.settled)
  (tasks : list obj) : list obj :=
  match r with
  | Api.Fulfilled _ => TaskProvider.handleTaskDelete (task !! "id") tasks
  | Api.Thrown _ => tasks
  end.

End TaskCard.

(* ===================================================================== *)
(** ** Subtasks on the task card ([TaskCard.jsx]) *)
(* ===================================================================== *)

(** [v.k] for a property name [k] that arrays and strings do not define
    themselves (such as [id] and [completed]): reading it from [null]
    throws, and only an object can have it. *)
Definition member (v : json) (k : string) : result jsval :=
  match v with
  | JNull => TypeError
  | JObj m => Ok (m !! k)
  | _ => Ok None
  end.

(** [String.prototype.trim] for ASCII white space. *)
Definition is_space (c : ascii) : bool :=
  let n := nat_of_ascii c in
  ((9 <=? n) && (n <=? 13) || (n =? 32))%nat.

Fixpoint trimStart (s : string) : string :=
  match s with
  | EmptyString => EmptyString
  | String c s' => if is_space c then trimStart s' else s
  end.

Fixpoint trimEnd (s : string) : string :=
  match s with
  | EmptyString => EmptyString
  | String c s' =>
      match trimEnd s' with
      | EmptyString => if is_space c then EmptyString else String c EmptyString
      | r => String c r
      end
  end.

Definition trim (s : string) : string := trimEnd (trimStart s).

(** The own enumerable properties that object spread [{ ...v }] copies. *)
Definition spread_json (v : json) : obj :=
  match v with
  | JObj m => m
  | JArr l => list_to_map (imap (fun i x => (pretty i, x)) l)
  | JStr s =>
      list_to_map (imap (fun i c => (pretty i, JStr (String c EmptyString)))
                        (list_ascii_of_string s))
  | _ => ∅
  end.

(** The elements that array spread [[...v]] iterates over: those of an
    array, the characters of a string; nothing else that JSON yields is
    iterable. *)
Definition iterate (v : jsval) : result (list json) :=
  match v with
  | Some (JArr l) => Ok l
  | Some (JStr s) =>
      Ok ((fun c => JStr (String c EmptyString)) <$> list_ascii_of_string s)
  | _ => TypeError
  end.

(** [Array.prototype.findIndex] with a callback that may throw, together
    with the element found. *)
Fixpoint findE {A} (p : A → result bool) (l : list A) : result (option (nat * A)) :=
  match l with
  | [] => Ok None
  | x :: l' =>
      b ← p x;
      if (b : bool) then Ok (Some (0%nat, x))
      else r ← findE p l'; Ok (prod_map S (fun y : A => y) <$> (r : option (nat * A)))
  end.

Module TaskCardSubtasks.

(** [st => st.id === subtaskId] *)
Definition has_subtask_id (subtaskId : jsval) (st : json) : result bool :=
  id ← member st "id"; Ok (strict_equal id subtaskId).

(** [st => st.id !== subtaskId] *)
Definition lacks_subtask_id (subtaskId : jsval) (st : json) : result bool :=
  id ← member st "id"; Ok (negb (strict_equal id subtaskId)).

(** A handler that raised before it called anything ([TypeError]), that
    returned early ([Ok None]), or that updated the provider's tasks and
    issued a request, given as it reaches the server. *)
Abbreviation started := (result (option (list obj * option Server.request))).

(** [handleSubtaskToggle] up to the [await].  [task.subtasks.findIndex]
    exists on arrays only. *)
Definition handleSubtaskToggle_start (task : obj) (subtaskId : jsval)
  (tasks : list obj) : started :=
  match task !! "subtasks" with
  | Some (JArr subtasks) =>
      found ← findE (has_subtask_id subtaskId) subtasks;
      match (found : option (nat * json)) with
      | None => Ok None
      | Some (subtaskIndex, st) =>
          completed ← member st "completed";
          let flipped := JBool (negb (truthy completed)) in
          let updatedSubtasks :=
            <[subtaskIndex := JObj (<["completed" := flipped]> (spread_json st))]>
              subtasks in
          Ok (Some
                (TaskProvider.handleTaskUpdate
                   (<["subtasks" := JArr updatedSubtasks]> task) tasks,
                 Api.updateSubtask (task !! "id") subtaskId
                   (object [("completed", Some flipped)])))
      end
  | _ => TypeError
  end.

(** The [catch] block shared by the subtask handlers:
    [onTaskUpdate(previousTask)]. *)
Definition revert (task : obj) (tasks : list obj) : list obj :=
  TaskProvider.handleTaskUpdate task tasks.

(** [handleSubtaskToggle] and [handleDeleteSubtask] after the [await]. *)
Definition settle (task : obj) (r : Api.settled) (tasks : list obj) : list obj :=
  match r with
  | Api.Fulfilled _ => tasks
  | Api.Thrown _ => revert task tasks
  end.

(** [handleAddSubtask] up to the [await]; [clock] is [Date.now()].  The
    form fields of the card are not part of the provider's state. *)
Definition handleAddSubtask_start (clock : Z) (task : obj) (newSubtaskTitle : string)
  (tasks : list obj) : started :=
  if negb (truthy (Some (JStr (trim newSubtaskTitle)))) then Ok None
  else
    let tempSubtask :=
      object [ ("id", Some (JStr ("temp-" +:+ pretty clock)));
               ("title", Some (JStr (trim newSubtaskTitle)));
               ("completed", Some (JBool false)) ] in
    subtasks ← iterate (task !! "subtasks");
    Ok (Some
          (TaskProvider.handleTaskUpdate
             (<["subtasks" := JArr (subtasks ++ [JObj tempSubtask])]> task) tasks,
           Api.createSubtask (task !! "id")
             (object [("title", Some (JStr (trim newSubtaskTitle)))]))).

(** [handleAddSubtask] after the [await].  On success the handler first
    evaluates [task.subtasks.map(st => st.id === tempSubtask.id ? ... )],
    whose value it does not use but which raises on a string and on a
    [null] element; an exception there lands in the [catch] block. *)
Definition handleAddSubtask_settle (clock : Z) (task : obj) (r : Api.settled)
  (tasks : list obj) : list obj :=
  match r with
  | Api.Thrown _ => revert task tasks
  | Api.Fulfilled createdSubtask =>
      match task !! "subtasks" with
      | Some (JArr subtasks) =>
          match filterE (has_subtask_id (Some (JStr ("temp-" +:+ pretty clock)))) subtasks with
          | Ok _ =>
              TaskProvider.handleTaskUpdate
                (<["subtasks" := JArr (subtasks ++ [createdSubtask])]> task) tasks
          | TypeError => revert task tasks
          end
      | _ => revert task tasks
      end
  end.

(** [handleDeleteSubtask] up to the [await]. *)
Definition handleDeleteSubtask_start (task : obj) (subtaskId : jsval)
  (tasks : list obj) : started :=
  match task !! "subtasks" with
  | Some (JArr subtasks) =>
      updatedSubtasks ← filterE (lacks_subtask_id subtaskId) subtasks;
      Ok (Some
            (TaskProvider.handleTaskUpdate
               (<["subtasks" := JArr updatedSubtasks]> task) tasks,
             Api.deleteSubtask (task !! "id") subtaskId))
  | _ => TypeError
  end.

(** Two task lists that agree position by position on every property
    except updatedAt. *)
Definition in_step (client server : list obj) : Prop :=
  length client = length server
  ∧ ∀ j tc, client !! j = Some tc →
      ∃ ts, server !! j = Some ts ∧ ∀ k, k ≠ "updatedAt" → tc !! k = ts !! k.

End TaskCardSubtasks.

(* ===================================================================== *)
(** ** Validation, the input hook and the task form *)
(* ===================================================================== *)

(** [validation.js], on strings. *)
Module Validation.

Definition isNotEmpty (value : string) : bool :=
  negb (bool_decide (trim value = "")).

Definition isValidPriority (value : string) : bool :=
  bool_decide (value ∈ ["low"; "medium"; "high"]).

End Validation.

(** [useInput]: the value of a field and whether it was left since the
    last change. *)
Module UseInput.

Record input := Input { value : string; didEdit : bool }.

Definition initial (initialValue : string) : input := Input initialValue false.

(** What can happen to a field: [handleChange] with the new text,
    [handleBlur], and [reset]. *)
Inductive event : Type :=
| Change (text : string)
| Blur
| Reset.

Definition handle (initialValue : string) (i : input) (e : event) : input :=
  match e with
  | Change text => Input text false
  | Blur => Input (value i) true
  | Reset => Input initialValue false
  end.

(** The field after a sequence of events, oldest first. *)
Definition after (initialValue : string) (events : list event) : input :=
  foldl (handle initialValue) (initial initialValue) events.

(** [validationFn ? validationFn(value) : true] *)
Definition isValid (validationFn : option (string → bool)) (i : input) : bool :=
  match validationFn with
  | Some f => f (value i)
  | None => true
  end.

(** [didEdit && !isValid] *)
Definition hasError (validationFn : option (string → bool)) (i : input) : bool :=
  didEdit i && negb (isValid validationFn i).

End UseInput.

(** [TaskForm.jsx].  The fields hold strings: what the inputs deliver. *)
Module TaskForm.

Record form := Form {
  title : UseInput.input;
  description : UseInput.input;
  priority : UseInput.input;
  dueDate : UseInput.input;
  assignee : UseInput.input;
  tags : list string;
  tagInput : string }.

Definition titleHasError (f : form) : bool :=
  UseInput.hasError (Some Validation.isNotEmpty) (title f).

Definition priorityHasError (f : form) : bool :=
  UseInput.hasError (Some Validation.isValidPriority) (priority f).

Definition setTags (l : list string) (f : form) : form :=
  Form (title f) (description f) (priority f) (dueDate f) (assignee f) l (tagInput f).

Definition setTagInput (s : string) (f : form) : form :=
  Form (title f) (description f) (priority f) (dueDate f) (assignee f) (tags f) s.

(** [tags.includes(tag)] *)
Definition has_tag (tag : string) (l : list string) : bool :=
  existsb (fun t => bool_decide (t = tag)) l.

(** [handleAddTag] *)
Definition handleAddTag (f : form) : form :=
  if truthy (Some (JStr (trim (tagInput f)))) && negb (has_tag (trim (tagInput f)) (tags f))
  then setTagInput "" (setTags (tags f ++ [trim (tagInput f)]) f)
  else f.

(** [handleRemoveTag] *)
Definition handleRemoveTag (tagToRemove : string) (f : form) : form :=
  setTags (List.filter (fun tag => negb (bool_decide (tag = tagToRemove))) (tags f)) f.

(** What the user can do to the tags: type in the tag field, press Add
    (or Enter), and remove a tag. *)
Inductive tag_event : Type :=
| TypeTag (text : string)
| AddTag
| RemoveTag (tag : string).

Definition handle_tag (f : form) (e : tag_event) : form :=
  match e with
  | TypeTag text => setTagInput text f
  | AddTag => handleAddTag f
  | RemoveTag tag => handleRemoveTag tag f
  end.

(** What the five [useInput] calls take from [initialData]:
    [initialData.title || ''], ..., [initialData.priority || 'medium']. *)
Record initial_values := InitialValues {
  title0 : string;
  description0 : string;
  priority0 : string;
  dueDate0 : string;
  assignee0 : string }.

(** The values of a form opened without initial data. *)
Definition blank_values : initial_values := InitialValues "" "" "medium" "" "".

(** The form when it is first rendered. *)
Definition opened (i0 : initial_values) (tags0 : list string) : form :=
  Form (UseInput.initial (title0 i0)) (UseInput.initial (description0 i0))
       (UseInput.initial (priority0 i0)) (UseInput.initial (dueDate0 i0))
       (UseInput.initial (assignee0 i0)) tags0 "".

(** [resetForm] *)
Definition resetForm (i0 : initial_values) (f : form) : form :=
  Form (UseInput.handle (title0 i0) (title f) UseInput.Reset)
       (UseInput.handle (description0 i0) (description f) UseInput.Reset)
       (UseInput.handle (priority0 i0) (priority f) UseInput.Reset)
       (UseInput.handle (dueDate0 i0) (dueDate f) UseInput.Reset)
       (UseInput.handle (assignee0 i0) (assignee f) UseInput.Reset)
       [] "".

(** [handleSubmit]: the [formData] passed to [onSubmit], or nothing when
    the final validation check returns early, and the form afterwards; a
    form that creates a task ([initialData.id] is missing) is reset. *)
Definition handleSubmit (creating : bool) (i0 : initial_values) (f : form)
  : option obj * form :=
  if titleHasError f || priorityHasError f
     || negb (Validation.isNotEmpty (UseInput.value (title f)))
  then (None, f)
  else
    (Some (object
             [ ("title", Some (JStr (UseInput.value (title f))));
               ("description", Some (JStr (UseInput.value (description f))));
               ("priority", Some (JStr (UseInput.value (priority f))));
               ("dueDate", Some (or_else (Some (JStr (UseInput.value (dueDate f)))) JNull));
               ("assignee", Some (JStr (UseInput.value (assignee f))));
               ("tags", Some (JArr (JStr <$> tags f))) ]),
     if creating then resetForm i0 f else f).

End TaskForm.

(** [handleClearFilters] of the board: the five preferences it stores. *)
Definition handleClearFilters : TaskBoard.selections :=
  TaskBoard.Selections "" "all" "all" "createdAt" "desc".

(** A creation form in which a title was typed and a tag was added, and a
    board sorted by title. *)
Module FormSample.

Definition typed : TaskForm.form :=
  foldl TaskForm.handle_tag
    (TaskForm.Form (UseInput.Input "Ship it" false) (UseInput.initial "")
       (UseInput.initial "medium") (UseInput.initial "") (UseInput.initial "")
       [] "")
    [TaskForm.TypeTag " urgent "; TaskForm.AddTag].

Definition by_title : TaskBoard.selections :=
  TaskBoard.Selections "" "all" "all" "title" "asc".

End FormSample.

(* ===================================================================== *)
(** ** Lemmas on the JavaScript primitives *)
(* ===================================================================== *)

Lemma append_cons (a : ascii) (s t : string) :
  (String a s +:+ t) = String a (s +:+ t).
Proof. reflexivity. Qed.

Lemma prefix_spec (needle hay : string) :
  String.prefix needle hay = true ↔ ∃ post, hay = (needle +:+ post).
Proof.
  revert hay. induction needle as [|a needle IH]; intros [|b hay]; simpl.
  - split; eauto.
  - split; eauto.
  - split; [discriminate | intros [post H]; rewrite append_cons in H; discriminate].
  - destruct (ascii_dec a b) as [->|Hne].
    + rewrite IH. split; intros [post H]; exists post.
      * rewrite append_cons. by f_equal.
      * rewrite append_cons in H. by injection H.
    + split; [discriminate|].
      intros [post H]. rewrite append_cons in H. injection H as ??. congruence.
Qed.

Lemma includes_spec (hay needle : string) :
  includes hay needle = true ↔ ∃ pre post, hay = (pre +:+ needle +:+ post).
Proof.
  induction hay as [|c hay IH]; cbn [includes]; rewrite orb_true_iff, prefix_spec.
  - split.
    + intros [[post H]|H]; [|discriminate]. by exists "", post.
    + intros ([|a pre] & post & H).
      * left. by exists post.
      * rewrite append_cons in H. discriminate.
  - rewrite IH. split.
    + intros [[post H]|(pre & post & H)].
      * by exists "", post.
      * exists (String c pre), post. rewrite append_cons. by f_equal.
    + intros ([|a pre] & post & H).
      * left. by exists post.
      * right. rewrite append_cons in H. injection H as _ H. by exists pre, post.
Qed.

Lemma includes_ci {strings : Strings} (text term : string) :
  includes (lower text) (lower term) = true ↔ ci_substring term text.
Proof. apply includes_spec. Qed.

Lemma truthy_string (s : string) : truthy (Some (JStr s)) = true ↔ s ≠ "".
Proof. simpl. rewrite negb_true_iff, bool_decide_eq_false. done. Qed.

Lemma is_string_spec (v : jsval) (s : string) :
  is_string v s = true ↔ v = Some (JStr s).
Proof.
  destruct v as [[]|]; simpl; try (split; [discriminate | congruence]).
  rewrite bool_decide_eq_true. split; [by intros -> | congruence].
Qed.

(** Reading a property of an object literal: the last binding of the
    name decides. *)
Lemma object_lookup (props : list (string * jsval)) (k : string) :
  object props !! k
  = foldl (fun acc kv => if bool_decide (kv.1 = k) then kv.2 else acc) None props.
Proof.
  unfold object.
  change (@None json) with ((∅ : obj) !! k) at 1.
  generalize (∅ : obj). induction props as [|[k' v] props IH]; intros m; simpl.
  - done.
  - rewrite IH. f_equal. unfold set_prop.
    case_bool_decide as Hk; subst.
    + destruct v; by simplify_map_eq.
    + destruct v; by simplify_map_eq.
Qed.

(* ===================================================================== *)
(** ** The endpoints *)
(* ===================================================================== *)

Module ServerFacts.
Import Server.

Section WithStrings.
Context {strings : Strings}.

Lemma find_task_Some (id : string) (l : list obj) (i : nat) (t : obj) :
  find_task id l = Some (i, t) ↔
    l !! i = Some t ∧ t !! "id" = Some (JStr id)
    ∧ ∀ j u, l !! j = Some u → (j < i)%nat → u !! "id" ≠ Some (JStr id).
Proof.
  unfold find_task. rewrite list_find_Some. unfold has_id.
  setoid_rewrite Is_true_true. setoid_rewrite is_string_spec. done.
Qed.

Lemma find_task_exists (id : string) (l : list obj) (t : obj) :
  t ∈ l → t !! "id" = Some (JStr id) → ∃ i u, find_task id l = Some (i, u).
Proof.
  intros Hin Hid.
  destruct (list_find_elem_of (fun t => has_id id t) l t Hin) as [[i u] H].
  - apply Is_true_true. by apply is_string_spec.
  - by exists i, u.
Qed.

Lemma find_task_None (id : string) (l : list obj) :
  find_task id l = None ↔ ∀ t, t ∈ l → t !! "id" ≠ Some (JStr id).
Proof.
  unfold find_task. rewrite list_find_None, Forall_forall. unfold has_id.
  setoid_rewrite Is_true_true. setoid_rewrite is_string_spec. done.
Qed.

Lemma find_task_lt (id : string) (l : list obj) (i : nat) (t : obj) :
  find_task id l = Some (i, t) → (i < length l)%nat.
Proof. intros (H & _)%find_task_Some. by eapply lookup_lt_Some. Qed.

(** A truthy title passes the guard of POST /api/tasks. *)
Lemma post_task_truthy (o : oracle) (body : obj) (s : store) :
  truthy (body !! "title") = true →
  ∃ newTask,
    post_task o body s
    = (Response 201 (Some (JObj newTask)),
       Store (tasks s ++ [newTask]) (reminders s))
    ∧ newTask !! "id" = Some (JStr (uuidv4 o))
    ∧ newTask !! "title" = body !! "title"
    ∧ newTask !! "status" = Some (JStr "todo")
    ∧ newTask !! "priority" = Some (default_to (body !! "priority") (JStr "medium"))
    ∧ newTask !! "subtasks" = Some (JArr [])
    ∧ newTask !! "tags" = Some (default_to (body !! "tags") (JArr []))
    ∧ newTask !! "assignee" = Some (or_else (body !! "assignee") (JStr "")).
Proof.
  intros Ht. unfold post_task. rewrite Ht. cbn [negb].
  eexists. split; [reflexivity|].
  repeat split; rewrite object_lookup; reflexivity.
Qed.

(** C1. POST /api/tasks with a body whose title is a non-empty string
    answers 201 with a new task that is appended to the stored collection;
    its status is 'todo', its priority is the supplied one or 'medium' when
    the body has none, its subtasks are the empty list, its tags are the
    supplied ones or the empty list when the body has none, and its
    assignee is the empty string when the body has none (a truthy supplied
    assignee is kept). *)
Theorem post_task_creates (o : oracle) (body : obj) (s : store) (title : string) :
  body !! "title" = Some (JStr title) → title ≠ "" →
  ∃ newTask,
    (post_task o body s).1 = Response 201 (Some (JObj newTask))
    ∧ tasks (post_task o body s).2 = tasks s ++ [newTask]
    ∧ newTask !! "title" = Some (JStr title)
    ∧ newTask !! "status" = Some (JStr "todo")
    ∧ newTask !! "priority"
      = Some (match body !! "priority" with Some p => p | None => JStr "medium" end)
    ∧ newTask !! "subtasks" = Some (JArr [])
    ∧ newTask !! "tags"
      = Some (match body !! "tags" with Some t => t | None => JArr [] end)
    ∧ (body !! "assignee" = None → newTask !! "assignee" = Some (JStr ""))
    ∧ (∀ a, body !! "assignee" = Some a → truthy (Some a) = true →
            newTask !! "assignee" = Some a).
Proof.
  intros Hb Hne.
  destruct (post_task_truthy o body s) as (t & E & Hid & Hti & Hst & Hpr & Hsu & Hta & Has).
  { rewrite Hb. by apply truthy_string. }
  exists t. rewrite E. cbn [fst snd tasks].
  split_and!; try done.
  - by rewrite Hti.
  - intros Hn. by rewrite Has, Hn.
  - intros a Ha Htr. rewrite Has, Ha. unfold or_else. by rewrite Htr.
Qed.

(** C5. POST /api/tasks with a body whose title is missing or is the empty
    string answers 400 and leaves the store as it was: the tasks
    collection has the same elements and the same length. *)
Theorem post_task_without_title (o : oracle) (body : obj) (s : store) :
  body !! "title" = None ∨ body !! "title" = Some (JStr "") →
  status (post_task o body s).1 = 400%nat
  ∧ (post_task o body s).2 = s
  ∧ tasks (post_task o body s).2 = tasks s
  ∧ length (tasks (post_task o body s).2) = length (tasks s).
Proof.
  intros H. assert (post_task o body s = (error_response 400 "Title is required", s)) as ->.
  { unfold post_task. by destruct H as [-> | ->]. }
  done.
Qed.

(** C3. PUT /api/tasks/:id on an id some stored task has replaces the first
    such task by the shallow merge of the old record with the body: a
    property the body lacks keeps its previous value, a property the body
    has takes the body's value (id, status and priority included), and
    updatedAt is the handler's clock reading whatever the body says; the
    collection keeps its length and every other position, and the
    reminders are untouched. *)
Theorem put_task_shallow_merge (o : oracle) (id : string) (body : obj) (s : store) :
  (∃ t, t ∈ tasks s ∧ t !! "id" = Some (JStr id)) →
  ∃ i old updated,
    find_task id (tasks s) = Some (i, old)
    ∧ (put_task o id body s).1 = Response 200 (Some (JObj updated))
    ∧ tasks (put_task o id body s).2 !! i = Some updated
    ∧ (∀ k, k ≠ "updatedAt" → body !! k = None → updated !! k = old !! k)
    ∧ (∀ k v, k ≠ "updatedAt" → body !! k = Some v → updated !! k = Some v)
    ∧ updated !! "updatedAt" = Some (JStr (now o))
    ∧ length (tasks (put_task o id body s).2) = length (tasks s)
    ∧ (∀ j, j ≠ i → tasks (put_task o id body s).2 !! j = tasks s !! j)
    ∧ reminders (put_task o id body s).2 = reminders s.
Proof.
  intros (t & Hin & Hid).
  destruct (find_task_exists id (tasks s) t Hin Hid) as (i & old & Hf).
  exists i, old. eexists. split; [exact Hf|].
  unfold put_task. rewrite Hf. cbn [fst snd tasks reminders set_tasks].
  split; [reflexivity|].
  split_and!.
  - apply list_lookup_insert_eq. by eapply find_task_lt.
  - intros k Hk Hb. rewrite lookup_insert_ne by done.
    unfold spread2. by apply lookup_union_r.
  - intros k v Hk Hb. rewrite lookup_insert_ne by done.
    unfold spread2. by apply lookup_union_Some_l.
  - apply lookup_insert_eq.
  - apply length_insert.
  - intros j Hj. by apply list_lookup_insert_ne.
  - reflexivity.
Qed.

(** C9. POST /api/tasks/:id/subtasks on an existing task with a non-empty
    title reads nothing but the title of the body: two bodies with the
    same title have the same effect.  When the task's subtasks are an
    array, the answer is 201 with a subtask made of exactly three
    properties, the generated id, the title and completed = false, which is
    appended to the task's subtasks. *)
Theorem post_subtask_uses_title_only
  (o : oracle) (id : string) (body : obj) (s : store) (title : string) :
  (∃ t, t ∈ tasks s ∧ t !! "id" = Some (JStr id)) →
  body !! "title" = Some (JStr title) → title ≠ "" →
  (∀ body', body' !! "title" = Some (JStr title) →
            post_subtask o id body' s = post_subtask o id body s)
  ∧ ∃ i task,
      find_task id (tasks s) = Some (i, task)
      ∧ ∀ subtasks, task !! "subtasks" = Some (JArr subtasks) →
          let sub := object [ ("id", Some (JStr (uuidv4 o)));
                              ("title", Some (JStr title));
                              ("completed", Some (JBool false)) ] in
          (post_subtask o id body s).1 = Response 201 (Some (JObj sub))
          ∧ sub !! "completed" = Some (JBool false)
          ∧ sub !! "id" = Some (JStr (uuidv4 o))
          ∧ sub !! "title" = Some (JStr title)
          ∧ (∀ k, k ≠ "id" → k ≠ "title" → k ≠ "completed" → sub !! k = None)
          ∧ ∃ task',
              tasks (post_subtask o id body s).2 !! i = Some task'
              ∧ task' !! "subtasks" = Some (JArr (subtasks ++ [JObj sub])).
Proof.
  intros (t & Hin & Hid) Hb Hne.
  destruct (find_task_exists id (tasks s) t Hin Hid) as (i & task & Hf).
  split.
  - intros body' Hb'. unfold post_subtask. by rewrite Hb, Hb'.
  - exists i, task. split; [exact Hf|]. intros subtasks Hsub sub.
    unfold post_subtask. rewrite Hf, Hb, Hsub.
    assert (truthy (Some (JStr title)) = true) as -> by by apply truthy_string.
    cbn [negb fst snd tasks set_tasks].
    split_and!; try reflexivity.
    + intros k H1 H2 H3. unfold sub. rewrite object_lookup. simpl.
      repeat case_bool_decide; congruence.
    + eexists. split.
      * apply list_lookup_insert_eq. by eapply find_task_lt.
      * rewrite lookup_insert_ne by done. apply lookup_insert_eq.
Qed.

(** C7. A task replace-merge, a subtask create, a subtask replace-merge or
    a subtask delete that is answered with a 2xx status leaves the task it
    was addressed to (the first task with that id, which keeps its
    position) with updatedAt equal to the handler's clock reading. *)
Theorem mutations_refresh_updatedAt
  (o : oracle) (r : request) (s : store) (id : string) :
  mutated_task r = Some id →
  succeeded (handle o r s).1 = true →
  ∃ i old new,
    find_task id (tasks s) = Some (i, old)
    ∧ tasks (handle o r s).2 !! i = Some new
    ∧ new !! "updatedAt" = Some (JStr (now o)).
Proof.
  intros Hr Hok.
  destruct r; simplify_eq/=.
  - (* PUT /api/tasks/:id *)
    unfold put_task in *.
    destruct (find_task id (tasks s)) as [[i old]|] eqn:Hf; [|done].
    exists i, old. eexists. split; [done|]. cbn. split.
    + apply list_lookup_insert_eq. by eapply find_task_lt.
    + apply lookup_insert_eq.
  - (* POST /api/tasks/:id/subtasks *)
    unfold post_subtask in *.
    destruct (find_task id (tasks s)) as [[i old]|] eqn:Hf; [|done].
    destruct (truthy (body !! "title")); [|done]. cbn [negb] in *.
    destruct (old !! "subtasks") as [[]|]; try done.
    exists i, old. eexists. split; [done|]. cbn. split.
    + apply list_lookup_insert_eq. by eapply find_task_lt.
    + apply lookup_insert_eq.
  - (* PUT /api/tasks/:taskId/subtasks/:subtaskId *)
    unfold put_subtask in *.
    destruct (find_task id (tasks s)) as [[i old]|] eqn:Hf; [|done].
    destruct (old !! "subtasks") as [[| | | |l|]|]; try done.
    destruct (find_subtask subtaskId l) as [[[j st]|]|]; try done.
    exists i, old. eexists. split; [done|]. cbn. split.
    + apply list_lookup_insert_eq. by eapply find_task_lt.
    + apply lookup_insert_eq.
  - (* DELETE /api/tasks/:taskId/subtasks/:subtaskId *)
    unfold delete_subtask in *.
    destruct (find_task id (tasks s)) as [[i old]|] eqn:Hf; [|done].
    destruct (old !! "subtasks") as [[| | | |l|]|]; try done.
    destruct (find_subtask subtaskId l) as [[[j st]|]|]; try done.
    exists i, old. eexists. split; [done|]. cbn. split.
    + apply list_lookup_insert_eq. by eapply find_task_lt.
    + apply lookup_insert_eq.
Qed.

(** *** Listing and filtering *)

Lemma filterE_total {A} (p : A → result bool) (f : A → bool) (l : list A) :
  Forall (fun x => p x = Ok (f x)) l → filterE p l = Ok (List.filter f l).
Proof.
  induction 1 as [|x l Hx _ IH]; [done|].
  cbn [filterE List.filter]. rewrite Hx, IH. cbn. by destruct (f x).
Qed.

Lemma filter_filter {A} (f g : A → bool) (l : list A) :
  List.filter g (List.filter f l) = List.filter (fun x => f x && g x) l.
Proof.
  induction l as [|x l IH]; [done|]. cbn [List.filter].
  destruct (f x); cbn [List.filter andb]; [destruct (g x)|]; by rewrite IH.
Qed.

Lemma filter_true {A} (l : list A) : List.filter (fun _ => true) l = l.
Proof. induction l as [|x l IH]; [done|]. cbn. by rewrite IH. Qed.

Lemma supplied_string (p : option qvalue) (s : string) :
  supplied p = Some (QString s) ↔ p = Some (QString s) ∧ s ≠ "".
Proof.
  unfold supplied. destruct p as [[s'|]|]; [|split; [done | by intros [? _]]..].
  destruct (truthy (Some (JStr s'))) eqn:E.
  - apply truthy_string in E. split.
    + by intros [= <-].
    + by intros [-> _].
  - apply not_true_iff_false in E. rewrite truthy_string in E.
    split; [done|]. intros [[= ->] Hne]. by destruct E.
Qed.

Lemma supplied_structured (p : option qvalue) :
  supplied p = Some QStructured ↔ p = Some QStructured.
Proof.
  unfold supplied. destruct p as [[s'|]|]; [|done..].
  destruct (truthy (Some (JStr s'))); split; done.
Qed.

Lemma supplied_None (p : option qvalue) :
  supplied p = None ↔ p = None ∨ p = Some (QString "").
Proof.
  unfold supplied. destruct p as [[s'|]|].
  - destruct (truthy (Some (JStr s'))) eqn:E.
    + apply truthy_string in E. split; [done|]. intros [|[= ->]]; done.
    + apply not_true_iff_false in E. rewrite truthy_string in E.
      split; [|done]. intros _. right. destruct (decide (s' = "")) as [->|]; done.
  - split; [done|]. intros [|]; done.
  - split; [by left | done].
Qed.

Lemma text_includes_spec (v : jsval) (term : string) :
  text_includes v term = true ↔ ∃ text, v = Some (JStr text) ∧ ci_substring term text.
Proof.
  destruct v as [[]|]; simpl; try (split; [discriminate | by intros (? & ? & _)]).
  rewrite includes_ci. split.
  - intros H. eexists. by split.
  - by intros (text & [= <-] & H).
Qed.

(** On a task it can read, the search callback answers whether the term
    is in the title or in the description. *)
Lemma matches_search_readable (term : string) (t : obj) :
  readable term t →
  matches_search (QString term) t
  = Ok (text_includes (t !! "title") term || text_includes (t !! "description") term).
Proof.
  intros (title & Ht & Hd). unfold matches_search. rewrite Ht. cbn.
  destruct (includes (lower title) (lower term)) eqn:E; [done|].
  destruct Hd as [Hd | [description Hd]].
  - apply includes_ci in Hd. congruence.
  - by rewrite Hd.
Qed.

Lemma matches_search_text (term : string) (t : obj) :
  has_text t →
  matches_search (QString term) t
  = Ok (text_includes (t !! "title") term || text_includes (t !! "description") term).
Proof.
  intros [[title Ht] [description Hd]]. apply matches_search_readable.
  exists title. split; [done|]. right. by exists description.
Qed.

(** The two field filters of the handler are one filter by the
    conjunction. *)
Lemma get_tasks_fields (q : query) (l : list obj) :
  get_tasks q l
  = match supplied (q_search q) with
    | Some search => filterE (matches_search search) (List.filter (admits_fields q) l)
    | None => Ok (List.filter (admits_fields q) l)
    end.
Proof.
  unfold get_tasks, admits_fields.
  set (f1 := fun t : obj => match supplied (q_status q) with
                            | Some status => field_is (t !! "status") status
                            | None => true end).
  set (f2 := fun t : obj => match supplied (q_priority q) with
                            | Some priority => field_is (t !! "priority") priority
                            | None => true end).
  assert (match supplied (q_status q) with
          | Some status => List.filter (fun task => field_is (task !! "status") status) l
          | None => l end = List.filter f1 l) as ->.
  { unfold f1. destruct (supplied (q_status q)); [done | by rewrite filter_true]. }
  assert (∀ l', match supplied (q_priority q) with
          | Some priority => List.filter (fun task => field_is (task !! "priority") priority) l'
          | None => l' end = List.filter f2 l') as ->.
  { intros l'. unfold f2. destruct (supplied (q_priority q)); [done | by rewrite filter_true]. }
  by rewrite filter_filter.
Qed.

(** The three successive filters of the handler are one filter by the
    conjunction, when the search raises on no task. *)
Lemma get_tasks_searchable (q : query) (l : list obj) :
  searchable q l → get_tasks q l = Ok (List.filter (admits q) l).
Proof.
  intros H. rewrite get_tasks_fields. unfold admits.
  destruct (supplied (q_search q)) as [search|] eqn:Hs.
  - destruct H as [H|H]; [unfold searchable in *; congruence|].
    erewrite filterE_total.
    + by rewrite filter_filter.
    + apply Forall_forall. intros t Ht.
      apply list_elem_of_In, filter_In in Ht as [Ht Hf].
      destruct (H t) as (term & Hq & Hr); [by apply list_elem_of_In | done |].
      assert (search = QString term) as ->.
      { unfold supplied in Hs. rewrite Hq in Hs.
        destruct (truthy (Some (JStr term))); congruence. }
      by apply matches_search_readable.
  - f_equal. apply filter_ext. intros t. by rewrite andb_true_r.
Qed.

Lemma get_tasks_admits (q : query) (l : list obj) :
  supplied (q_search q) = None
  ∨ ((∃ term, q_search q = Some (QString term)) ∧ Forall has_text l) →
  get_tasks q l = Ok (List.filter (admits q) l).
Proof.
  intros H. apply get_tasks_searchable.
  destruct H as [H | [[term Hq] H]]; [by left | right].
  intros t Ht _. exists term. split; [done|].
  rewrite Forall_forall in H. destruct (H t Ht) as [[title ?] [description ?]].
  exists title. split; [done|]. right. by exists description.
Qed.

Lemma matches_search_Ok (search : qvalue) (t : obj) (b : bool) :
  matches_search search t = Ok b → ∃ term, search = QString term ∧ readable term t.
Proof.
  unfold matches_search.
  destruct (t !! "title") as [[| | |title| |]|] eqn:Ht; try done. cbn.
  destruct search as [term|]; [|done]. cbn. intros H.
  exists term. split; [done|]. exists title. split; [done|].
  destruct (includes (lower title) (lower term)) eqn:E.
  - left. by apply includes_ci.
  - destruct (t !! "description") as [[| | |description| |]|] eqn:Hd; try done.
    right. by exists description.
Qed.

Lemma filterE_Ok_all {A} (p : A → result bool) (l r : list A) :
  filterE p l = Ok r → ∀ x, x ∈ l → ∃ b, p x = Ok b.
Proof.
  revert r. induction l as [|y l IH]; intros r H x Hin.
  - by apply elem_of_nil in Hin.
  - cbn [filterE] in H. destruct (p y) as [b|] eqn:Hy; [|done]. cbn in H.
    destruct (filterE p l) as [r'|] eqn:Hl; [|done].
    apply elem_of_cons in Hin as [-> | Hin]; [by exists b | by eapply IH].
Qed.

Lemma get_tasks_unsearchable (q : query) (l : list obj) :
  ¬ searchable q l → get_tasks q l = TypeError.
Proof.
  intros H. rewrite get_tasks_fields.
  destruct (supplied (q_search q)) as [search|] eqn:Hs; [|destruct H; by left].
  destruct (filterE (matches_search search) (List.filter (admits_fields q) l))
    as [r|] eqn:E; [|done].
  destruct H. right. intros t Hin Hf.
  destruct (filterE_Ok_all _ _ _ E t) as [b Hb].
  { apply list_elem_of_In, filter_In. split; [by apply list_elem_of_In | done]. }
  apply matches_search_Ok in Hb as (term & -> & Hr).
  exists term. split; [|done].
  unfold supplied in Hs. destruct (q_search q) as [[s'|]|]; try done.
  by destruct (truthy (Some (JStr s'))).
Qed.

(** C4, as amended. GET /api/tasks, for every collection and every
    combination of the three query parameters, each absent, one string, or
    an array or object (a repeated name).  When the search raises on no task
    it is run on (no non-empty search parameter is given, or it is one
    string and every task that passes the status and priority filters has
    a string title and, unless the term is found in the title, a string
    description), the handler returns exactly the tasks that pass all
    filters, in their stored order: a non-empty status or priority
    parameter admits only the tasks whose field is that very string, a
    non-empty search term admits a task if and only if it is a
    case-insensitive substring of the title or of the description, the
    dimensions are combined by AND, a parameter that is absent or the empty
    string does not filter, and one that is an array or an object admits no
    task.  In every other case the handler raises. *)
Theorem get_tasks_filters (q : query) (l : list obj) :
  (searchable q l → get_tasks q l = Ok (List.filter (admits q) l))
  ∧ (¬ searchable q l → get_tasks q l = TypeError)
  ∧ ∀ t, admits q t = true ↔
      (∀ status, q_status q = Some (QString status) → status ≠ "" →
         t !! "status" = Some (JStr status))
      ∧ q_status q ≠ Some QStructured
      ∧ (∀ priority, q_priority q = Some (QString priority) → priority ≠ "" →
           t !! "priority" = Some (JStr priority))
      ∧ q_priority q ≠ Some QStructured
      ∧ (∀ term, q_search q = Some (QString term) → term ≠ "" →
           (∃ text, t !! "title" = Some (JStr text) ∧ ci_substring term text)
           ∨ (∃ text, t !! "description" = Some (JStr text) ∧ ci_substring term text))
      ∧ q_search q ≠ Some QStructured.
Proof.
  split; [apply get_tasks_searchable|]. split; [apply get_tasks_unsearchable|].
  intros t. unfold admits, admits_fields. rewrite !andb_true_iff.
  assert (∀ (p : option qvalue) (f : qvalue → bool) (P : string → Prop),
            (∀ s, f (QString s) = true ↔ P s) → f QStructured = false →
            match supplied p with Some v => f v | None => true end = true
            ↔ (∀ s, p = Some (QString s) → s ≠ "" → P s) ∧ p ≠ Some QStructured) as Hdim.
  { intros p f P Hf Hno. destruct (supplied p) as [[s|]|] eqn:E.
    - apply supplied_string in E as [-> ?]. rewrite Hf. split.
      + intros HP. split; [by intros s' [= <-] _ | done].
      + intros [HP _]. by apply HP.
    - apply supplied_structured in E as ->. rewrite Hno. split; [done|].
      by intros [_ ?].
    - apply supplied_None in E as [-> | ->]; (split; [|done]); intros _;
        (split; [|done]); by intros s [= <-].  }
  rewrite (Hdim (q_status q) (field_is (t !! "status"))
             (fun s => t !! "status" = Some (JStr s)))
    by (intros; try apply is_string_spec; done).
  rewrite (Hdim (q_priority q) (field_is (t !! "priority"))
             (fun s => t !! "priority" = Some (JStr s)))
    by (intros; try apply is_string_spec; done).
  rewrite (Hdim (q_search q)
             (fun v => match v with
                       | QString term =>
                           text_includes (t !! "title") term
                           || text_includes (t !! "description") term
                       | QStructured => false
                       end)
             (fun term =>
                (∃ text, t !! "title" = Some (JStr text) ∧ ci_substring term text)
                ∨ (∃ text, t !! "description" = Some (JStr text)
                           ∧ ci_substring term text)))
    by (intros; rewrite ?orb_true_iff, ?text_includes_spec; done).
  tauto.
Qed.

Lemma status_exclusive (v : jsval) (st1 st2 : string) :
  st1 ≠ st2 → is_string v st1 = true → is_string v st2 = false.
Proof.
  intros Hne H1. apply not_true_iff_false. intros H2.
  apply is_string_spec in H1, H2. congruence.
Qed.

Lemma status_partition (l : list obj) :
  List.filter (fun t => is_string (t !! "status") "todo") l
  ++ List.filter (fun t => is_string (t !! "status") "in-progress") l
  ++ List.filter (fun t => is_string (t !! "status") "completed") l
  ≡ₚ List.filter known_status l.
Proof.
  induction l as [|t l IH]; [done|].
  cbn [List.filter]. unfold known_status at 1.
  destruct (is_string (t !! "status") "todo") eqn:E1.
  - rewrite (status_exclusive _ "todo" "in-progress"), (status_exclusive _ "todo" "completed") by done.
    cbn. by rewrite IH.
  - destruct (is_string (t !! "status") "in-progress") eqn:E2.
    + rewrite (status_exclusive _ "in-progress" "completed") by done.
      cbn. rewrite <- Permutation_middle. by rewrite IH.
    + destruct (is_string (t !! "status") "completed") eqn:E3; cbn.
      * rewrite app_assoc, <- Permutation_middle, <- app_assoc. by rewrite IH.
      * exact IH.
Qed.

Lemma filter_all {A} (f : A → bool) (l : list A) :
  Forall (fun x => f x = true) l → List.filter f l = l.
Proof.
  induction 1 as [|x l Hx _ IH]; [done|]. cbn. by rewrite Hx, IH.
Qed.

(** C6, as amended. In every store, reachable or not,
    GET /api/tasks?status=completed returns exactly the tasks whose status
    is the string 'completed' (and likewise for any non-empty status); no
    task is in two of the status subsets; and the three subsets for todo,
    in-progress and completed together are, up to order, the tasks whose
    status is one of these three strings.  They make up the full
    collection when every stored task has such a status, which the update
    endpoint does not guarantee. *)
Theorem status_subsets (s : store) :
  let subset st := List.filter (fun t => is_string (t !! "status") st) (tasks s) in
  (∀ st, st ≠ "" → get_tasks (by_status st) (tasks s) = Ok (subset st))
  ∧ (∀ t, t ∈ subset "completed" ↔ t ∈ tasks s ∧ t !! "status" = Some (JStr "completed"))
  ∧ (∀ st1 st2 t, st1 ≠ st2 → t ∈ subset st1 → t ∉ subset st2)
  ∧ subset "todo" ++ subset "in-progress" ++ subset "completed"
    ≡ₚ List.filter known_status (tasks s)
  ∧ (Forall (fun t => known_status t = true) (tasks s) →
     subset "todo" ++ subset "in-progress" ++ subset "completed" ≡ₚ tasks s).
Proof.
  intros subset.
  assert (∀ st t, t ∈ subset st ↔ t ∈ tasks s ∧ t !! "status" = Some (JStr st)) as Hin.
  { intros st t. unfold subset.
    rewrite !list_elem_of_In, filter_In, is_string_spec. done. }
  split_and!.
  - intros st Hst. unfold get_tasks, by_status. cbn [q_status q_priority q_search supplied].
    assert (truthy (Some (JStr st)) = true) as -> by by apply truthy_string.
    reflexivity.
  - apply Hin.
  - intros st1 st2 t Hne [_ H1]%Hin [_ H2]%Hin. congruence.
  - apply status_partition.
  - intros Hall. unfold subset. rewrite status_partition. by rewrite filter_all.
Qed.

End WithStrings.

Section Samples.
#[local] Existing Instance Engine.ascii_strings.

Lemma post_task_creates_witness :
  ∃ newTask,
    (post_task Sample.oracle Sample.write_spec Sample.store0).1
    = Response 201 (Some (JObj newTask))
    ∧ newTask !! "status" = Some (JStr "todo")
    ∧ newTask !! "priority" = Some (JStr "medium")
    ∧ length (tasks (post_task Sample.oracle Sample.write_spec Sample.store0).2) = 3%nat.
Proof.
  destruct (post_task_creates Sample.oracle Sample.write_spec Sample.store0 "Write spec")
    as (t & E1 & E2 & _ & Hst & Hpr & _).
  - reflexivity.
  - discriminate.
  - exists t. split_and!; [exact E1 | exact Hst | exact Hpr | by rewrite E2].
Defined.

Lemma post_task_without_title_witness :
  status (post_task Sample.oracle ∅ Sample.store0).1 = 400%nat
  ∧ (post_task Sample.oracle ∅ Sample.store0).2 = Sample.store0.
Proof.
  destruct (post_task_without_title Sample.oracle ∅ Sample.store0) as (H1 & H2 & _).
  - left. reflexivity.
  - by split.
Defined.

Lemma put_task_shallow_merge_witness :
  ∃ updated,
    (put_task Sample.oracle "1" Sample.mark_completed Sample.store0).1
    = Response 200 (Some (JObj updated))
    ∧ updated !! "status" = Some (JStr "completed")
    ∧ updated !! "title" = Some (JStr "Learn React Hooks")
    ∧ updated !! "updatedAt" = Some (JStr "2025-01-12T08:30:00.000Z").
Proof.
  destruct (put_task_shallow_merge Sample.oracle "1" Sample.mark_completed Sample.store0)
    as (i & old & updated & Hf & E & _ & Hkeep & Htake & Hup & _).
  - eexists. split; [apply list_elem_of_here | reflexivity].
  - exists updated. split_and!; [exact E | | | exact Hup].
    + apply Htake; [discriminate | reflexivity].
    + rewrite Hkeep; [| discriminate | reflexivity].
      assert (find_task "1" (tasks Sample.store0)
              = Some (0%nat, default ∅ (tasks Sample.store0 !! 0%nat))) as Hfirst
        by (vm_compute; reflexivity).
      rewrite Hfirst in Hf. injection Hf as _ <-. reflexivity.
Defined.

Lemma post_subtask_uses_title_only_witness :
  ∃ sub,
    (post_subtask Sample.oracle "2" Sample.eager_subtask Sample.store0).1
    = Response 201 (Some (JObj sub))
    ∧ sub !! "completed" = Some (JBool false)
    ∧ sub !! "id" = Some (JStr "3f2504e0-4f89-41d3-9a0c-0305e82c3301").
Proof.
  destruct (post_subtask_uses_title_only Sample.oracle "2" Sample.eager_subtask
              Sample.store0 "Read the docs") as (_ & i & task & Hf & H).
  - eexists. split; [apply list_elem_of_further, list_elem_of_here | reflexivity].
  - reflexivity.
  - discriminate.
  - assert (find_task "2" (tasks Sample.store0)
            = Some (1%nat, default ∅ (tasks Sample.store0 !! 1%nat))) as Hsecond
      by (vm_compute; reflexivity).
    rewrite Hsecond in Hf. injection Hf as _ <-.
    destruct (H (match default ∅ (tasks Sample.store0 !! 1%nat) !! "subtasks" with
                 | Some (JArr l) => l
                 | _ => []
                 end)) as (E & Hc & Hi & _); [vm_compute; reflexivity|].
    eexists. split_and!; [exact E | exact Hc | exact Hi].
Defined.

Lemma mutations_refresh_updatedAt_witness :
  ∃ new,
    tasks (handle Sample.oracle (PUT_subtask "1" "sub2" Sample.tick) Sample.store0).2
      !! 0%nat = Some new
    ∧ new !! "updatedAt" = Some (JStr "2025-01-12T08:30:00.000Z").
Proof.
  destruct (mutations_refresh_updatedAt Sample.oracle
              (PUT_subtask "1" "sub2" Sample.tick) Sample.store0 "1")
    as (i & old & new & Hf & Hn & Hu).
  - reflexivity.
  - vm_compute. reflexivity.
  - assert (find_task "1" (tasks Sample.store0)
            = Some (0%nat, default ∅ (tasks Sample.store0 !! 0%nat))) as Hfirst
      by (vm_compute; reflexivity).
    rewrite Hfirst in Hf. injection Hf as <- _. by exists new.
Defined.

Lemma get_tasks_filters_witness :
  ∃ l, get_tasks (Query None (Some (QString "high")) (Some (QString "REACT")))
         (tasks Sample.store0) = Ok l
       ∧ length l = 1%nat.
Proof.
  destruct (get_tasks_filters (Query None (Some (QString "high")) (Some (QString "REACT")))
              (tasks Sample.store0)) as [E _].
  eexists. split.
  - apply E. right. intros t Hin _. exists "REACT". split; [done|].
    apply list_elem_of_In in Hin. cbn in Hin.
    destruct Hin as [<- | [<- | []]]; eexists; (split; [reflexivity|]);
      right; eexists; reflexivity.
  - reflexivity.
Defined.

(** C4 as stated fails in three ways.  An empty status parameter is
    present but does not filter: [?status=] returns a task whose status is
    'in-progress'.  Once a task with a numeric title is stored (POST accepts
    it), a search raises instead of returning a list.  And a search
    parameter given twice raises on every collection that is not empty. *)
Lemma get_tasks_filters_counterexample :
  (∃ l t, get_tasks (Query (Some (QString "")) None None) (tasks Sample.store0) = Ok l
          ∧ t ∈ l ∧ ¬ admits_present (Query (Some (QString "")) None None) t)
  ∧ get_tasks (Query None None (Some (QString "spec")))
      (tasks (handle Sample.oracle (POST_task Sample.numeric_title) Sample.store0).2)
    = TypeError
  ∧ get_tasks (Query None None (Some QStructured)) (tasks Sample.store0) = TypeError.
Proof.
  split_and!.
  - eexists. eexists. split; [reflexivity|]. split; [apply list_elem_of_here|].
    intros [H _]. specialize (H "" eq_refl). vm_compute in H. discriminate.
  - vm_compute. reflexivity.
  - reflexivity.
Qed.

Lemma status_subsets_witness :
  List.filter (fun t => is_string (t !! "status") "todo") (tasks Sample.store0)
  ++ List.filter (fun t => is_string (t !! "status") "in-progress") (tasks Sample.store0)
  ++ List.filter (fun t => is_string (t !! "status") "completed") (tasks Sample.store0)
  ≡ₚ tasks Sample.store0.
Proof.
  destruct (status_subsets Sample.store0) as (_ & _ & _ & _ & H).
  apply H. repeat constructor.
Defined.

(** C6 as stated fails on a store the API reaches: after
    PUT /api/tasks/1 with [{ "status": "archived" }] the first task is in
    none of the three status subsets, so their union is not the full
    collection. *)
Lemma status_subsets_counterexample :
  let s := (handle Sample.oracle (PUT_task "1" Sample.mark_archived) Sample.store0).2 in
  reachable s
  ∧ ∃ t, t ∈ tasks s
         ∧ ∀ st, st ∈ ["todo"; "in-progress"; "completed"] →
                 ∃ l, get_tasks (by_status st) (tasks s) = Ok l ∧ t ∉ l.
Proof.
  intros s. split.
  - apply reachable_step, reachable_boot.
  - exists (default ∅ (tasks s !! 0%nat)). split; [apply list_elem_of_here|].
    intros st Hst.
    assert (st ≠ "" ∧ is_string (default ∅ (tasks s !! 0%nat) !! "status") st = false)
      as [Hne Hnot].
    { apply list_elem_of_In in Hst. cbn in Hst.
      destruct Hst as [<- | [<- | [<- | []]]]; (split; [discriminate | vm_compute; reflexivity]). }
    exists (List.filter (fun t => is_string (t !! "status") st) (tasks s)). split.
    + unfold get_tasks, by_status. cbn [q_status q_priority q_search supplied].
      assert (truthy (Some (JStr st)) = true) as -> by by apply truthy_string.
      reflexivity.
    + rewrite list_elem_of_In, filter_In. intros [_ H]. congruence.
Qed.

End Samples.

End ServerFacts.

(* ===================================================================== *)
(** ** The task provider *)
(* ===================================================================== *)

Module TaskContextFacts.
Import TaskContext.

Lemma spread2_lookup (a b : obj) (k : string) :
  spread2 a b !! k = match b !! k with Some v => Some v | None => a !! k end.
Proof.
  unfold spread2. rewrite lookup_union. by destruct (b !! k), (a !! k).
Qed.

(** C2. When a task is being edited, [handleUpdateTask] captures the
    current tasks as the rollback copy and replaces, before the request is
    issued, every task with the edited id by the shallow merge of that task
    with the submitted data; the request carries the edited id and the
    data.  If the request is rejected, the tasks are set to the rollback
    copy whatever happened to the state meanwhile, and an error message is
    stored for display; if it is resolved, tasks and error are left as they
    are. *)
Theorem handleUpdateTask_optimistic (s : state) (taskData editing : obj) :
  editingTask s = Some editing →
  ∃ p,
    (handleUpdateTask_start s taskData s).2 = Some p
    ∧ previousTasks p = tasks s
    ∧ request_id p = editing !! "id"
    ∧ request_body p = taskData
    ∧ length (tasks (handleUpdateTask_start s taskData s).1) = length (tasks s)
    ∧ (∀ i task, tasks s !! i = Some task →
         ∃ task', tasks (handleUpdateTask_start s taskData s).1 !! i = Some task'
           ∧ (strict_equal (task !! "id") (editing !! "id") = false → task' = task)
           ∧ (strict_equal (task !! "id") (editing !! "id") = true →
              ∀ k, task' !! k
                   = match taskData !! k with Some v => Some v | None => task !! k end))
    ∧ (∀ live message,
         tasks (handleUpdateTask_settle p (Rejected message) live) = tasks s
         ∧ ∃ shown, error (handleUpdateTask_settle p (Rejected message) live) = Some shown
                    ∧ shown ≠ ""
                    ∧ (message ≠ "" → shown = message))
    ∧ (∀ live,
         tasks (handleUpdateTask_settle p Resolved live) = tasks live
         ∧ error (handleUpdateTask_settle p Resolved live) = error live).
Proof.
  intros He. unfold handleUpdateTask_start. rewrite He. cbn.
  eexists. split; [reflexivity|]. cbn. split_and!; try reflexivity.
  - apply length_fmap.
  - intros i task Hi. rewrite list_lookup_fmap, Hi. cbn.
    eexists. split; [reflexivity|]. split.
    + by intros ->.
    + intros -> k. apply spread2_lookup.
  - intros live message. split; [reflexivity|].
    exists (update_error_message message). split; [reflexivity|].
    unfold update_error_message.
    destruct (truthy (Some (JStr message))) eqn:E.
    + apply truthy_string in E. done.
    + split; [done|]. intros Hne%truthy_string. congruence.
  - done.
Qed.

Lemma handleUpdateTask_optimistic_witness :
  ∃ p first,
    (handleUpdateTask_start Sample.editing_first Sample.mark_completed
       Sample.editing_first).2 = Some p
    ∧ tasks (handleUpdateTask_start Sample.editing_first Sample.mark_completed
               Sample.editing_first).1 !! 0%nat = Some first
    ∧ first !! "status" = Some (JStr "completed")
    ∧ tasks (handleUpdateTask_settle p (Rejected "Task not found")
               (handleUpdateTask_start Sample.editing_first Sample.mark_completed
                  Sample.editing_first).1)
      = tasks Sample.editing_first.
Proof.
  destruct (handleUpdateTask_optimistic Sample.editing_first Sample.mark_completed
              (default ∅ (Server.tasks Sample.store0 !! 0%nat)))
    as (p & Hp & _ & _ & _ & _ & Hmap & Hrej & _).
  - reflexivity.
  - destruct (Hmap 0%nat _ eq_refl) as (first & H1 & _ & Hmerge).
    exists p, first. split_and!; [exact Hp | exact H1 | | apply Hrej].
    rewrite Hmerge; reflexivity.
Defined.

End TaskContextFacts.

(* ===================================================================== *)
(** ** The task board *)
(* ===================================================================== *)

Module TaskBoardFacts.
Import TaskBoard.

Section WithStrings.
Context {strings : Strings}.

(** C8, as amended. The filtered and sorted list and the per-status
    grouping are functions of the task collection and the filter and sort
    selections alone, and the totals, the completed and in-progress counts
    and the completion rate are functions of the task collection alone:
    two evaluations that agree on these inputs agree on these outputs,
    whatever the other props, the other state cells and the clock are.  The
    overdue count depends in addition on the clock reading at the time of
    evaluation: the whole statistics agree when the clock readings agree
    too. *)
Theorem derivations_depend_on_inputs
  (Date_value : jsval → option Z) (inherited : string → option string)
  (round_percent : nat → nat → Z)
  (r1 r2 : render) (c1 c2 : TaskContext.state) (clock1 clock2 : Z) :
  r_tasks r1 = r_tasks r2 →
  r_selections r1 = r_selections r2 →
  TaskContext.tasks c1 = TaskContext.tasks c2 →
  render_view Date_value inherited r1 = render_view Date_value inherited r2
  ∧ render_groups Date_value inherited r1 = render_groups Date_value inherited r2
  ∧ total (render_stats Date_value r1) = total (render_stats Date_value r2)
  ∧ completed (render_stats Date_value r1) = completed (render_stats Date_value r2)
  ∧ inProgress (render_stats Date_value r1) = inProgress (render_stats Date_value r2)
  ∧ (r_clock r1 = r_clock r2 →
     render_stats Date_value r1 = render_stats Date_value r2)
  ∧ TaskContext.total (TaskContext.taskStats Date_value round_percent clock1 c1)
    = TaskContext.total (TaskContext.taskStats Date_value round_percent clock2 c2)
  ∧ TaskContext.completed (TaskContext.taskStats Date_value round_percent clock1 c1)
    = TaskContext.completed (TaskContext.taskStats Date_value round_percent clock2 c2)
  ∧ TaskContext.inProgress (TaskContext.taskStats Date_value round_percent clock1 c1)
    = TaskContext.inProgress (TaskContext.taskStats Date_value round_percent clock2 c2)
  ∧ TaskContext.completionRate (TaskContext.taskStats Date_value round_percent clock1 c1)
    = TaskContext.completionRate (TaskContext.taskStats Date_value round_percent clock2 c2)
  ∧ (clock1 = clock2 →
     TaskContext.taskStats Date_value round_percent clock1 c1
     = TaskContext.taskStats Date_value round_percent clock2 c2).
Proof.
  intros Ht Hs Hc.
  unfold render_view, render_groups, render_stats, TaskContext.taskStats.
  rewrite Ht, Hs, Hc. split_and!; try reflexivity.
  - destruct (r_tasks r2); reflexivity.
  - destruct (r_tasks r2); reflexivity.
  - destruct (r_tasks r2); reflexivity.
  - by intros ->.
  - by intros ->.
Qed.

(** *** Filtering and sorting *)

Lemma filterE_ok {A} (p : A → result bool) (l : list A) :
  Forall (fun x => ∃ b, p x = Ok b) l →
  ∃ r, filterE p l = Ok r ∧ ∀ x, x ∈ r ↔ x ∈ l ∧ p x = Ok true.
Proof.
  induction 1 as [|x l [b Hb] _ (r & Hr & Hin)].
  - exists []. split; [done|]. intros x. rewrite elem_of_nil. tauto.
  - cbn [filterE]. rewrite Hb, Hr. cbn. eexists. split; [reflexivity|].
    intros y. destruct b.
    + rewrite !elem_of_cons, Hin. split.
      * intros [-> | [? ?]]; auto.
      * intros [[-> | ?] ?]; auto.
    + rewrite elem_of_cons, Hin. split.
      * intros [? ?]; auto.
      * intros [[-> | ?] ?]; [congruence | auto].
Qed.

Lemma insertE_perm {A} (cmp : A → A → result Z) (x : A) (l : list A) :
  (∀ y, y ∈ l → ∃ c, cmp x y = Ok c) →
  ∃ r, insertE cmp x l = Ok r ∧ r ≡ₚ x :: l.
Proof.
  induction l as [|y l IH]; intros Hc.
  - by exists [x].
  - cbn [insertE]. destruct (Hc y) as [c ->]; [apply list_elem_of_here|]. cbn.
    destruct (c <=? 0).
    + by eexists.
    + destruct IH as (r & -> & Hr).
      { intros z Hz. apply Hc. by apply list_elem_of_further. }
      cbn. eexists. split; [reflexivity|]. rewrite Hr. apply perm_swap.
Qed.

Lemma sortE_perm {A} (cmp : A → A → result Z) (l : list A) :
  (∀ x y, x ∈ l → y ∈ l → ∃ c, cmp x y = Ok c) →
  ∃ r, sortE cmp l = Ok r ∧ r ≡ₚ l.
Proof.
  induction l as [|x l IH]; intros Hc.
  - by exists [].
  - cbn [sortE]. destruct IH as (r & -> & Hr).
    { intros y z Hy Hz. apply Hc; by apply list_elem_of_further. }
    cbn. destruct (insertE_perm cmp x r) as (r' & -> & Hr').
    { intros y Hy. rewrite Hr in Hy.
      apply Hc; [apply list_elem_of_here | by apply list_elem_of_further]. }
    exists r'. split; [done|]. by rewrite Hr', Hr.
Qed.

Section WithEngine.
Variable Date_value : jsval → option Z.
Variable inherited : string → option string.

Lemma someE_tags (term : string) (tags : list string) :
  someE (tag_matches term) (JStr <$> tags)
  = Ok (existsb (fun tag => includes (lower tag) (lower term)) tags).
Proof.
  induction tags as [|tag tags IH]; [done|].
  cbn. destruct (includes (lower tag) (lower term)); [done|]. exact IH.
Qed.

Lemma matchesSearch_well_formed (term : string) (t : obj) :
  well_formed t → ∃ b, matchesSearch term t = Ok b.
Proof.
  intros ([title Ht] & [description Hd] & [tags Hg]). unfold matchesSearch.
  destruct (negb (truthy (Some (JStr term)))); [by eexists|].
  rewrite Ht. cbn. destruct (includes (lower title) (lower term)); [by eexists|].
  rewrite Hd. cbn. destruct (includes (lower description) (lower term)); [by eexists|].
  rewrite Hg, someE_tags. by eexists.
Qed.

Lemma matchesSearch_tag (term tag : string) (t : obj) (tags : list json) :
  well_formed t →
  t !! "tags" = Some (JArr tags) → JStr tag ∈ tags → ci_substring term tag →
  matchesSearch term t = Ok true.
Proof.
  intros ([title Ht] & [description Hd] & [tags' Hg]) Htags Hin Hci.
  unfold matchesSearch.
  destruct (negb (truthy (Some (JStr term)))); [done|].
  rewrite Ht. cbn. destruct (includes (lower title) (lower term)); [done|].
  rewrite Hd. cbn. destruct (includes (lower description) (lower term)); [done|].
  rewrite Hg, someE_tags. f_equal.
  rewrite Hg in Htags. injection Htags as <-.
  apply list_elem_of_fmap in Hin as (tag' & [= <-] & Hin).
  apply existsb_exists. exists tag. split; [by apply list_elem_of_In|].
  by apply includes_ci.
Qed.

Lemma compareTasks_well_formed (sel : selections) (a b : obj) :
  well_formed a → well_formed b → ∃ c, compareTasks Date_value inherited sel a b = Ok c.
Proof.
  intros ([ta Ha] & _) ([tb Hb] & _). unfold compareTasks, sort_key.
  rewrite Ha, Hb. repeat case_bool_decide; cbn; by eexists.
Qed.

End WithEngine.

End WithStrings.

Section Samples.
#[local] Existing Instance Engine.ascii_strings.

Lemma derivations_depend_on_inputs_witness :
  render_view Engine.Date_value Engine.Object_prototype Sample.render_january
  = render_view Engine.Date_value Engine.Object_prototype Sample.render_february
  ∧ completed (render_stats Engine.Date_value Sample.render_january)
    = completed (render_stats Engine.Date_value Sample.render_february).
Proof.
  destruct (derivations_depend_on_inputs Engine.Date_value Engine.Object_prototype
              Engine.round_percent Sample.render_january Sample.render_february
              Sample.editing_first Sample.editing_first 0 0)
    as (Hv & _ & _ & Hc & _); [reflexivity..|].
  by split.
Defined.

(** C8 as stated fails for the overdue count: two renders with the same
    tasks and the same selections, one on 2025-01-01 and one on
    2025-02-01, count no overdue task and two overdue tasks. *)
Lemma derivations_counterexample :
  r_tasks Sample.render_january = r_tasks Sample.render_february
  ∧ r_selections Sample.render_january = r_selections Sample.render_february
  ∧ overdue (render_stats Engine.Date_value Sample.render_january) = 0%nat
  ∧ overdue (render_stats Engine.Date_value Sample.render_february) = 2%nat
  ∧ render_stats Engine.Date_value Sample.render_january
    ≠ render_stats Engine.Date_value Sample.render_february.
Proof.
  split_and!; try reflexivity.
  intros H. apply (f_equal overdue) in H. vm_compute in H. discriminate.
Qed.


End Samples.

End TaskBoardFacts.

(* ===================================================================== *)
(** ** Scenarios *)
(* ===================================================================== *)

Module Scenarios.
Import Server.

#[local] Existing Instance Engine.ascii_strings.

(** Create a task, find it by a case-insensitive search, delete it, and
    look it up again. *)
Example create_search_delete :
  let id := uuidv4 Sample.oracle in
  let created := handle Sample.oracle (POST_task Sample.write_spec) Sample.store0 in
  let deleted := handle Sample.oracle (DELETE_task id) created.2 in
  let again := handle Sample.oracle (DELETE_task id) deleted.2 in
  status created.1 = 201%nat
  ∧ (fun t : obj => t !! "id")
    <$> match get_tasks (Query None None (Some (QString "write"))) (tasks created.2) with
        | Ok l => l
        | TypeError => []
        end = [Some (JStr id)]
  ∧ status deleted.1 = 204%nat
  ∧ status (get_task id deleted.2) = 404%nat
  ∧ status again.1 = 404%nat
  ∧ again.2 = Sample.store0.
Proof. split_and!; vm_compute; reflexivity. Qed.

(** Deleting the second subtask of the first task. *)
Example delete_a_subtask :
  let answer := handle Sample.oracle (DELETE_subtask "1" "sub2") Sample.store0 in
  status answer.1 = 204%nat
  ∧ length (match default ∅ (tasks answer.2 !! 0%nat) !! "subtasks" with
            | Some (JArr subtasks) => subtasks
            | _ => []
            end) = 1%nat.
Proof. split; vm_compute; reflexivity. Qed.

(** A task whose subtasks were overwritten by a number cannot take a new
    subtask: the handler raises and the store does not change. *)
Example subtasks_overwritten :
  let body := object [("subtasks", Some (JNum 0))] in
  let s1 := (handle Sample.oracle (PUT_task "1" body) Sample.store0).2 in
  handle Sample.oracle (POST_subtask "1" Sample.write_spec) s1 = (uncaught, s1).
Proof. vm_compute. reflexivity. Qed.

(** The board sorted by title, ascending. *)
Example sorted_by_title :
  (fun t : obj => t !! "title")
  <$> match TaskBoard.filteredAndSortedTasks Engine.Date_value Engine.Object_prototype
              (Some (tasks Sample.store0))
              (TaskBoard.Selections "" "all" "all" "title" "asc") with
      | Ok view => view
      | TypeError => []
      end
  = [Some (JStr "Build Task Manager"); Some (JStr "Learn React Hooks")].
Proof. vm_compute. reflexivity. Qed.

(** The board grouped by status. *)
Example grouped_by_status :
  match TaskBoard.tasksByStatus Engine.Date_value Engine.Object_prototype
          (Some (tasks Sample.store0)) (Sample.searching "") with
  | Ok g => Some (length (TaskBoard.todo_tasks g),
                  length (TaskBoard.in_progress_tasks g),
                  length (TaskBoard.completed_tasks g))
  | TypeError => None
  end = Some (1%nat, 1%nat, 0%nat).
Proof. vm_compute. reflexivity. Qed.

(** One of two tasks completed is a completion rate of 50. *)
Example completion_rate :
  let s1 := (handle Sample.oracle (PUT_task "2" Sample.mark_completed) Sample.store0).2 in
  TaskContext.completionRate
    (TaskContext.taskStats Engine.Date_value Engine.round_percent 1738368000000
       (TaskContext.State (tasks s1) None false None false)) = 50.
Proof. vm_compute. reflexivity. Qed.

End Scenarios.

(* ===================================================================== *)
(** ** More on the endpoints *)
(* ===================================================================== *)

Module ServerExtraFacts.
Import Server ServerExtra ServerFacts.

Section WithStrings.
Context {strings : Strings}.

Lemma succeeded_error (n : nat) (msg : string) :
  (400 ≤ n)%nat → succeeded (error_response n msg) = false.
Proof.
  intros H. unfold succeeded, error_response. cbn [status].
  apply andb_false_iff. right. apply Nat.ltb_ge. lia.
Qed.

Lemma succeeded_response (n : nat) (p : option json) :
  (200 ≤ n < 300)%nat → succeeded (Response n p) = true.
Proof.
  intros H. unfold succeeded. cbn [status].
  apply andb_true_iff. split; [apply Nat.leb_le | apply Nat.ltb_lt]; lia.
Qed.

Ltac ok_branch :=
  cbn [fst snd]; rewrite succeeded_response by lia; intros [=].

(** X1. A request that is not answered with a 2xx status leaves the store
    exactly as it was: no handler changes anything before it fails. *)
Theorem failed_request_keeps_store (o : oracle) (r : request) (s : store) :
  succeeded (handle o r s).1 = false → (handle o r s).2 = s.
Proof.
  destruct r; cbn [handle]; try reflexivity.
  - unfold post_task. destruct (negb (truthy (body !! "title"))); [reflexivity | ok_branch].
  - unfold put_task. destruct (find_task id (tasks s)) as [[i old]|];
      [ok_branch | reflexivity].
  - unfold delete_task. destruct (find_task id (tasks s)) as [[i old]|];
      [ok_branch | reflexivity].
  - unfold post_subtask. destruct (find_task id (tasks s)) as [[i old]|]; [|reflexivity].
    destruct (negb (truthy (body !! "title"))); [reflexivity|].
    destruct (old !! "subtasks") as [[| | | |l|]|]; try reflexivity. ok_branch.
  - unfold put_subtask. destruct (find_task taskId (tasks s)) as [[i old]|]; [|reflexivity].
    destruct (old !! "subtasks") as [[| | | |l|]|]; try reflexivity.
    destruct (find_subtask subtaskId l) as [[[j st]|]|]; try reflexivity. ok_branch.
  - unfold delete_subtask. destruct (find_task taskId (tasks s)) as [[i old]|]; [|reflexivity].
    destruct (old !! "subtasks") as [[| | | |l|]|]; try reflexivity.
    destruct (find_subtask subtaskId l) as [[[j st]|]|]; try reflexivity. ok_branch.
  - unfold post_reminder.
    destruct (negb (truthy (body !! "taskId")) || negb (truthy (body !! "message"))
              || negb (truthy (body !! "reminderTime"))); [reflexivity | ok_branch].
  - unfold delete_reminder.
    destruct (list_find (fun r => has_id id r) (reminders s)) as [[i old]|];
      [ok_branch | reflexivity].
Qed.

(** X2. Every route under /api/tasks/:id answers 404 'Task not found' and
    changes nothing when no stored task has that id, whatever the body and
    the subtask id are. *)
Theorem unknown_task_not_found (o : oracle) (r : request) (s : store) (id : string) :
  addressed_task r = Some id →
  (∀ t, t ∈ tasks s → t !! "id" ≠ Some (JStr id)) →
  handle o r s = (error_response 404 "Task not found", s).
Proof.
  intros Hr Hno. apply ServerFacts.find_task_None in Hno.
  destruct r; simplify_eq/=.
  - unfold get_task. by rewrite Hno.
  - unfold put_task. by rewrite Hno.
  - unfold delete_task. by rewrite Hno.
  - unfold post_subtask. by rewrite Hno.
  - unfold put_subtask. by rewrite Hno.
  - unfold delete_subtask. by rewrite Hno.
Qed.

Lemma in_delete {A} (l : list A) (i : nat) (x : A) :
  x ∈ delete i l → ∃ j, j ≠ i ∧ l !! j = Some x.
Proof.
  intros [k Hk]%list_elem_of_lookup_1. rewrite list_lookup_delete in Hk.
  case_decide; eexists; (split; [|exact Hk]); lia.
Qed.

(** X3. DELETE /api/tasks/:id on an id some stored task has answers 204
    and removes the first task with that id and nothing else: the tasks
    before and after it keep their order, the collection is one shorter and
    the reminders are untouched.  When no other task had the id, the same
    request repeated answers 404 and changes nothing. *)
Theorem delete_task_removes_first (o o' : oracle) (id : string) (s : store) :
  (∃ t, t ∈ tasks s ∧ t !! "id" = Some (JStr id)) →
  ∃ i t,
    find_task id (tasks s) = Some (i, t)
    ∧ handle o (DELETE_task id) s
      = (Response 204 None, Store (take i (tasks s) ++ drop (S i) (tasks s)) (reminders s))
    ∧ S (length (tasks (handle o (DELETE_task id) s).2)) = length (tasks s)
    ∧ ((∀ j u, tasks s !! j = Some u → j ≠ i → u !! "id" ≠ Some (JStr id)) →
       handle o' (DELETE_task id) (handle o (DELETE_task id) s).2
       = (error_response 404 "Task not found", (handle o (DELETE_task id) s).2)).
Proof.
  intros (t0 & Hin & Hid).
  destruct (ServerFacts.find_task_exists id (tasks s) t0 Hin Hid) as (i & t & Hf).
  exists i, t. split; [exact Hf|].
  assert (handle o (DELETE_task id) s
          = (Response 204 None,
             Store (take i (tasks s) ++ drop (S i) (tasks s)) (reminders s))) as E.
  { cbn [handle]. unfold delete_task. rewrite Hf. unfold set_tasks.
    by rewrite delete_take_drop. }
  rewrite E. cbn [fst snd tasks]. split; [reflexivity|]. split.
  - rewrite <- delete_take_drop, length_delete.
    + apply ServerFacts.find_task_lt in Hf. lia.
    + apply ServerFacts.find_task_Some in Hf as [Hl _]. by eexists.
  - intros Hothers. cbn [handle]. unfold delete_task.
    rewrite (proj2 (ServerFacts.find_task_None id _)); [done|].
    cbn [tasks]. rewrite <- delete_take_drop.
    intros u (j & Hj & Hu)%in_delete. by apply (Hothers j).
Qed.

(** X4. A task created by POST /api/tasks under an id no stored task has
    can be read back: GET /api/tasks/:id with the generated id answers 200
    with the very task the POST returned, and deleting that id restores
    the store as it was before the POST. *)
Theorem post_task_round_trip (o o' : oracle) (body : obj) (s : store) :
  truthy (body !! "title") = true →
  (∀ t, t ∈ tasks s → t !! "id" ≠ Some (JStr (uuidv4 o))) →
  ∃ newTask,
    (handle o (POST_task body) s).1 = Response 201 (Some (JObj newTask))
    ∧ get_task (uuidv4 o) (handle o (POST_task body) s).2
      = Response 200 (Some (JObj newTask))
    ∧ handle o' (DELETE_task (uuidv4 o)) (handle o (POST_task body) s).2
      = (Response 204 None, s).
Proof.
  intros Ht Hfresh.
  destruct (ServerFacts.post_task_truthy o body s Ht) as (newTask & E & Hid & _).
  exists newTask. cbn [handle]. rewrite E. cbn [fst snd].
  assert (find_task (uuidv4 o) (tasks s ++ [newTask]) = Some (length (tasks s), newTask))
    as Hf.
  { apply ServerFacts.find_task_Some. split_and!.
    - by rewrite lookup_app_r, Nat.sub_diag by lia.
    - exact Hid.
    - intros j u Hu Hj. rewrite lookup_app_l in Hu by done.
      apply Hfresh. by eapply list_elem_of_lookup_2. }
  split; [reflexivity|]. split.
  - unfold get_task. cbn [tasks]. by rewrite Hf.
  - unfold delete_task. cbn [tasks]. rewrite Hf. unfold set_tasks. cbn [reminders tasks].
    rewrite (delete_middle (tasks s) [] newTask), app_nil_r. by destruct s.
Qed.

(** X5. PUT /api/tasks/:id is idempotent up to the timestamp: when the body
    does not rename the task (it has no id, or the id of the path), sending
    the same request again gives the same answer and the same store as
    sending it once at the later time. *)
Theorem put_task_idempotent (o1 o2 : oracle) (id : string) (body : obj) (s : store) :
  body !! "id" = None ∨ body !! "id" = Some (JStr id) →
  handle o2 (PUT_task id body) (handle o1 (PUT_task id body) s).2
  = handle o2 (PUT_task id body) s.
Proof.
  intros Hbody. cbn [handle]. unfold put_task at 2.
  destruct (find_task id (tasks s)) as [[i old]|] eqn:Hf; [|done].
  cbn [snd]. unfold put_task. cbn [tasks set_tasks reminders]. rewrite Hf.
  pose proof Hf as (Hi & Hid & Hleast)%find_task_Some.
  set (u1 := <["updatedAt" := JStr (now o1)]> (spread2 old body)).
  assert (find_task id (<[i := u1]> (tasks s)) = Some (i, u1)) as ->.
  { apply find_task_Some. split_and!.
    - apply list_lookup_insert_eq. by eapply lookup_lt_Some.
    - unfold u1. rewrite lookup_insert_ne by done. unfold spread2.
      destruct Hbody as [Hb | Hb].
      + by rewrite lookup_union_r.
      + by apply lookup_union_Some_l.
    - intros j u Hu Hj. rewrite list_lookup_insert_ne in Hu by lia. by apply (Hleast j). }
  assert (<["updatedAt" := JStr (now o2)]> (spread2 u1 body)
          = <["updatedAt" := JStr (now o2)]> (spread2 old body)) as ->.
  { apply map_eq. intros k. destruct (decide (k = "updatedAt")) as [->|Hk].
    - by rewrite !lookup_insert_eq.
    - rewrite !lookup_insert_ne by done. unfold spread2, u1.
      destruct (body !! k) as [v|] eqn:Hb.
      + by rewrite !(lookup_union_Some_l _ _ _ v).
      + rewrite !lookup_union_r by done. rewrite lookup_insert_ne by done.
        unfold spread2. by rewrite lookup_union_r. }
  by rewrite list_insert_insert_eq.
Qed.

(** X6. Tasks and reminders are independent collections: a request outside
    /api/reminders never changes the reminders, so deleting a task keeps
    every reminder that refers to it, and a request under /api/reminders
    never changes the tasks. *)
Theorem tasks_and_reminders_independent (o : oracle) (r : request) (s : store) :
  (is_reminder_request r = false → reminders (handle o r s).2 = reminders s)
  ∧ (is_reminder_request r = true → tasks (handle o r s).2 = tasks s).
Proof.
  split; intros Hr; destruct r; try discriminate Hr; cbn [handle snd]; try reflexivity.
  - unfold post_task. by destruct (negb (truthy (body !! "title"))).
  - unfold put_task. by destruct (find_task id (tasks s)) as [[i old]|].
  - unfold delete_task. by destruct (find_task id (tasks s)) as [[i old]|].
  - unfold post_subtask. destruct (find_task id (tasks s)) as [[i old]|]; [|reflexivity].
    destruct (negb (truthy (body !! "title"))); [reflexivity|].
    by destruct (old !! "subtasks") as [[| | | |l|]|].
  - unfold put_subtask. destruct (find_task taskId (tasks s)) as [[i old]|]; [|reflexivity].
    destruct (old !! "subtasks") as [[| | | |l|]|]; try reflexivity.
    by destruct (find_subtask subtaskId l) as [[[j st]|]|].
  - unfold delete_subtask. destruct (find_task taskId (tasks s)) as [[i old]|]; [|reflexivity].
    destruct (old !! "subtasks") as [[| | | |l|]|]; try reflexivity.
    by destruct (find_subtask subtaskId l) as [[[j st]|]|].
  - unfold post_reminder.
    by destruct (negb (truthy (body !! "taskId")) || negb (truthy (body !! "message"))
                 || negb (truthy (body !! "reminderTime"))).
  - unfold delete_reminder.
    by destruct (list_find (fun r => has_id id r) (reminders s)) as [[i old]|].
Qed.

Lemma find_subtask_found (sid : string) (l : list json) (j : nat) (st : obj) :
  l !! j = Some (JObj st) →
  st !! "id" = Some (JStr sid) →
  (∀ k v, (k < j)%nat → l !! k = Some v → skipped sid v) →
  find_subtask sid l = Ok (Some (j, st)).
Proof.
  revert j. induction l as [|v l IH]; intros j Hj Hid Hbefore; [done|].
  destruct j as [|j].
  - injection Hj as ->. cbn [find_subtask].
    by rewrite (proj2 (is_string_spec _ _) Hid).
  - cbn [find_subtask].
    rewrite (IH j); [| done | done | intros k u Hk Hu; apply (Hbefore (S k)); [lia | done]].
    cbn. destruct (Hbefore 0%nat v) as [Hnull Hobj]; [lia | done |].
    destruct v as [| | | | |m]; try done.
    destruct (is_string (m !! "id") sid) eqn:E; [|done].
    apply is_string_spec in E. by destruct (Hobj m).
Qed.

Lemma find_subtask_none (sid : string) (l : list json) :
  Forall (skipped sid) l → find_subtask sid l = Ok None.
Proof.
  induction 1 as [|v l [Hnull Hobj] _ IH]; [done|].
  cbn [find_subtask]. rewrite IH. cbn.
  destruct v as [| | | | |m]; try done.
  destruct (is_string (m !! "id") sid) eqn:E; [|done].
  apply is_string_spec in E. by destruct (Hobj m).
Qed.

Lemma find_task_insert_same (id : string) (l : list obj) (i : nat) (t t' : obj) :
  find_task id l = Some (i, t) →
  t' !! "id" = Some (JStr id) →
  find_task id (<[i := t']> l) = Some (i, t').
Proof.
  intros (Hi & Hid & Hleast)%find_task_Some Hid'. apply find_task_Some. split_and!.
  - apply list_lookup_insert_eq. by eapply lookup_lt_Some.
  - done.
  - intros j u Hu Hj. rewrite list_lookup_insert_ne in Hu by lia. by apply (Hleast j).
Qed.

(** X7. PUT /api/tasks/:taskId/subtasks/:subtaskId replaces the first
    subtask with that id by the shallow merge of the old subtask with the
    body: a property the body lacks keeps its value (a body that only sets
    completed leaves id and title alone), a property the body has takes the
    body's value.  The other subtasks, the number of subtasks, every
    property of the task other than subtasks and updatedAt, and every other
    task stay as they were. *)
Theorem put_subtask_merges
  (o : oracle) (taskId subtaskId : string) (body : obj) (s : store)
  (i j : nat) (task st : obj) (subtasks : list json) :
  find_task taskId (tasks s) = Some (i, task) →
  task !! "subtasks" = Some (JArr subtasks) →
  subtasks !! j = Some (JObj st) →
  st !! "id" = Some (JStr subtaskId) →
  (∀ k v, (k < j)%nat → subtasks !! k = Some v → skipped subtaskId v) →
  ∃ st' task' subtasks',
    (handle o (PUT_subtask taskId subtaskId body) s).1 = Response 200 (Some (JObj st'))
    ∧ (∀ k, st' !! k = match body !! k with Some v => Some v | None => st !! k end)
    ∧ tasks (handle o (PUT_subtask taskId subtaskId body) s).2 !! i = Some task'
    ∧ task' !! "subtasks" = Some (JArr subtasks')
    ∧ subtasks' !! j = Some (JObj st')
    ∧ length subtasks' = length subtasks
    ∧ (∀ k, k ≠ j → subtasks' !! k = subtasks !! k)
    ∧ (∀ k, k ≠ "subtasks" → k ≠ "updatedAt" → task' !! k = task !! k)
    ∧ (∀ k, k ≠ i → tasks (handle o (PUT_subtask taskId subtaskId body) s).2 !! k
                     = tasks s !! k).
Proof.
  intros Hf Hsub Hj Hid Hbefore.
  cbn [handle]. unfold put_subtask.
  rewrite Hf, Hsub, (find_subtask_found subtaskId subtasks j st) by done.
  cbn [fst snd tasks set_tasks].
  eexists _, _, _. split; [reflexivity|]. split_and!.
  - intros k. apply TaskContextFacts.spread2_lookup.
  - apply list_lookup_insert_eq. by eapply find_task_lt.
  - rewrite lookup_insert_ne by done. apply lookup_insert_eq.
  - apply list_lookup_insert_eq. by eapply lookup_lt_Some.
  - apply length_insert.
  - intros k Hk. by apply list_lookup_insert_ne.
  - intros k H1 H2. by rewrite !lookup_insert_ne.
  - intros k Hk. by apply list_lookup_insert_ne.
Qed.

(** X8. DELETE /api/tasks/:taskId/subtasks/:subtaskId answers 204 and
    removes the first subtask with that id and nothing else: the subtasks
    before and after it keep their order, the task has one subtask less,
    its other properties apart from updatedAt are unchanged, and so is
    every other task. *)
Theorem delete_subtask_removes_first
  (o : oracle) (taskId subtaskId : string) (s : store)
  (i j : nat) (task st : obj) (subtasks : list json) :
  find_task taskId (tasks s) = Some (i, task) →
  task !! "subtasks" = Some (JArr subtasks) →
  subtasks !! j = Some (JObj st) →
  st !! "id" = Some (JStr subtaskId) →
  (∀ k v, (k < j)%nat → subtasks !! k = Some v → skipped subtaskId v) →
  ∃ task',
    (handle o (DELETE_subtask taskId subtaskId) s).1 = Response 204 None
    ∧ tasks (handle o (DELETE_subtask taskId subtaskId) s).2 !! i = Some task'
    ∧ task' !! "subtasks" = Some (JArr (take j subtasks ++ drop (S j) subtasks))
    ∧ S (length (take j subtasks ++ drop (S j) subtasks)) = length subtasks
    ∧ (∀ k, k ≠ "subtasks" → k ≠ "updatedAt" → task' !! k = task !! k)
    ∧ (∀ k, k ≠ i → tasks (handle o (DELETE_subtask taskId subtaskId) s).2 !! k
                     = tasks s !! k).
Proof.
  intros Hf Hsub Hj Hid Hbefore.
  cbn [handle]. unfold delete_subtask.
  rewrite Hf, Hsub, (find_subtask_found subtaskId subtasks j st) by done.
  cbn [fst snd tasks set_tasks].
  eexists. split; [reflexivity|]. split_and!.
  - apply list_lookup_insert_eq. by eapply find_task_lt.
  - rewrite lookup_insert_ne by done. rewrite lookup_insert_eq.
    by rewrite delete_take_drop.
  - rewrite <- delete_take_drop, length_delete by by eexists.
    apply lookup_lt_Some in Hj. lia.
  - intros k H1 H2. by rewrite !lookup_insert_ne.
  - intros k Hk. by apply list_lookup_insert_ne.
Qed.

(** X9. Errors are reported at the right level: when the task exists and
    its subtasks are an array in which no element has the subtask id (and
    none is null), updating or deleting that subtask answers 404
    'Subtask not found' and changes nothing. *)
Theorem unknown_subtask_not_found
  (o : oracle) (r : request) (s : store) (taskId subtaskId : string)
  (i : nat) (task : obj) (subtasks : list json) :
  addressed_subtask r = Some (taskId, subtaskId) →
  find_task taskId (tasks s) = Some (i, task) →
  task !! "subtasks" = Some (JArr subtasks) →
  Forall (skipped subtaskId) subtasks →
  handle o r s = (error_response 404 "Subtask not found", s).
Proof.
  intros Hr Hf Hsub Hnone.
  destruct r; simplify_eq/=.
  - unfold put_subtask. by rewrite Hf, Hsub, find_subtask_none.
  - unfold delete_subtask. by rewrite Hf, Hsub, find_subtask_none.
Qed.

(** X10. A subtask created under an id that no subtask of the task has (in
    a subtask array without null) can be deleted again by that id, and the
    task is then as it was before the creation except for updatedAt, which
    is the time of the deletion. *)
Theorem subtask_round_trip
  (o o' : oracle) (id : string) (body : obj) (s : store)
  (i : nat) (task : obj) (subtasks : list json) :
  find_task id (tasks s) = Some (i, task) →
  task !! "subtasks" = Some (JArr subtasks) →
  truthy (body !! "title") = true →
  Forall (skipped (uuidv4 o)) subtasks →
  status (handle o (POST_subtask id body) s).1 = 201%nat
  ∧ handle o' (DELETE_subtask id (uuidv4 o)) (handle o (POST_subtask id body) s).2
    = (Response 204 None,
       Store (<[i := <["updatedAt" := JStr (now o')]> task]> (tasks s)) (reminders s)).
Proof.
  intros Hf Hsub Ht Hfresh.
  cbn [handle]. unfold post_subtask. rewrite Hf, Ht, Hsub. cbn [negb fst snd].
  split; [reflexivity|].
  set (sub := object [("id", Some (JStr (uuidv4 o))); ("title", body !! "title");
                      ("completed", Some (JBool false))]).
  set (task2 := <["updatedAt" := JStr (now o)]>
                  (<["subtasks" := JArr (subtasks ++ [JObj sub])]> task)).
  unfold delete_subtask. cbn [tasks set_tasks reminders].
  pose proof Hf as (_ & Hid & _)%find_task_Some.
  rewrite (find_task_insert_same id (tasks s) i task task2) by
    (done || (unfold task2; by rewrite !lookup_insert_ne)).
  assert (task2 !! "subtasks" = Some (JArr (subtasks ++ [JObj sub]))) as ->.
  { unfold task2. rewrite lookup_insert_ne by done. apply lookup_insert_eq. }
  rewrite (find_subtask_found (uuidv4 o) _ (length subtasks) sub).
  - rewrite (delete_middle subtasks [] (JObj sub)), app_nil_r.
    unfold set_tasks. cbn [tasks reminders]. rewrite list_insert_insert_eq.
    assert (<["updatedAt" := JStr (now o')]> (<["subtasks" := JArr subtasks]> task2)
            = <["updatedAt" := JStr (now o')]> task) as ->; [|reflexivity].
    apply map_eq. intros k. unfold task2.
    destruct (decide (k = "updatedAt")) as [->|H1]; [by rewrite !lookup_insert_eq|].
    rewrite !(lookup_insert_ne _ "updatedAt") by done.
    destruct (decide (k = "subtasks")) as [->|H2].
    + by rewrite lookup_insert_eq.
    + by rewrite !lookup_insert_ne.
  - by rewrite lookup_app_r, Nat.sub_diag by lia.
  - unfold sub. by rewrite object_lookup.
  - intros k v Hk Hv. rewrite lookup_app_l in Hv by done.
    rewrite Forall_forall in Hfresh. apply Hfresh. by eapply list_elem_of_lookup_2.
Qed.

(** X11. POST /api/reminders checks only that taskId, message and
    reminderTime are present and truthy: then it answers 201 and appends a
    reminder with the generated id, the three supplied values and
    isActive = true, whether or not any task has that id; otherwise it
    answers 400 and changes nothing. *)
Theorem post_reminder_validates (o : oracle) (body : obj) (s : store) :
  (truthy (body !! "taskId") && truthy (body !! "message")
   && truthy (body !! "reminderTime") = true →
   ∃ reminder,
     handle o (POST_reminder body) s
     = (Response 201 (Some (JObj reminder)), Store (tasks s) (reminders s ++ [reminder]))
     ∧ reminder !! "id" = Some (JStr (uuidv4 o))
     ∧ reminder !! "taskId" = body !! "taskId"
     ∧ reminder !! "message" = body !! "message"
     ∧ reminder !! "reminderTime" = body !! "reminderTime"
     ∧ reminder !! "isActive" = Some (JBool true))
  ∧ (truthy (body !! "taskId") && truthy (body !! "message")
     && truthy (body !! "reminderTime") = false →
     handle o (POST_reminder body) s
     = (error_response 400 "TaskId, message, and reminderTime are required", s)).
Proof.
  cbn [handle]. unfold post_reminder.
  destruct (truthy (body !! "taskId")), (truthy (body !! "message")),
    (truthy (body !! "reminderTime")); cbn [negb orb andb];
    (split; [|done]); try done.
  intros _. eexists. split; [reflexivity|].
  split_and!; rewrite object_lookup; reflexivity.
Qed.

Lemma filterE_ext {A} (p q : A → result bool) (l : list A) :
  (∀ x, p x = q x) → filterE p l = filterE q l.
Proof.
  intros H. induction l as [|x l IH]; [done|]. cbn [filterE]. by rewrite H, IH.
Qed.

(** X12. The search of GET /api/tasks sees its term only through
    [toLowerCase]: two queries with the same status and priority parameters
    whose search terms are not empty and are the same text once in lower
    case (terms that differ only in case) have the same outcome on every
    collection, whatever the tasks hold. *)
Theorem search_ignores_term_case (q q' : query) (a b : string) (l : list obj) :
  q_status q = q_status q' →
  q_priority q = q_priority q' →
  q_search q = Some (QString a) → q_search q' = Some (QString b) →
  a ≠ "" → b ≠ "" →
  lower a = lower b →
  get_tasks q l = get_tasks q' l.
Proof.
  intros Hs Hp Ha Hb Ea Eb Hab. unfold get_tasks. rewrite Hs, Hp, Ha, Hb.
  rewrite (proj2 (supplied_string (Some (QString a)) a)),
    (proj2 (supplied_string (Some (QString b)) b)) by done.
  apply filterE_ext. intros t. unfold matches_search, term_lower. by rewrite Hab.
Qed.

Lemma count_exclusive (p q : obj → bool) (l : list obj) :
  (∀ x, p x = true → q x = false) → (count p l + count q l ≤ length l)%nat.
Proof.
  intros H. unfold count. induction l as [|x l IH]; cbn; [lia|].
  destruct (p x) eqn:E.
  - rewrite (H x E). cbn. lia.
  - destruct (q x); cbn; lia.
Qed.

Lemma count_length (p : obj → bool) (l : list obj) : (count p l ≤ length l)%nat.
Proof. unfold count. induction l as [|x l IH]; cbn; [lia|]. destruct (p x); cbn; lia. Qed.

Lemma stats_overdue_is_overdue (Date_value : jsval → option Z) (clock : Z) (t : obj) :
  stats_overdue Date_value clock t = is_overdue Date_value clock t.
Proof.
  unfold stats_overdue, is_overdue.
  destruct (truthy (t !! "dueDate")), (is_string (t !! "status") "completed"); cbn;
    try done.
  - by rewrite andb_false_r.
  - by rewrite andb_true_r.
Qed.

Lemma count_ext (p q : obj → bool) (l : list obj) :
  (∀ x, p x = q x) → count p l = count q l.
Proof. intros H. unfold count. f_equal. by apply filter_ext. Qed.

(** X13. The counts of GET /api/stats are consistent: the three status
    counts together never exceed the total and make up the total when every
    task has one of the three statuses; a task is never counted both as
    completed and as overdue, so completed and overdue together do not
    exceed the total either. *)
Theorem get_stats_consistent (Date_value : jsval → option Z) (clock : Z) (s : store) :
  let st := get_stats Date_value clock s in
  (todo st + inProgress st + completed st ≤ total st)%nat
  ∧ (Forall (fun t => known_status t = true) (tasks s) →
     (todo st + inProgress st + completed st = total st)%nat)
  ∧ (completed st + overdue st ≤ total st)%nat.
Proof.
  cbn. unfold count.
  pose proof (Permutation_length (status_partition (tasks s))) as Hlen.
  rewrite !length_app in Hlen.
  split_and!.
  - pose proof (count_length known_status (tasks s)) as H. unfold count in H. lia.
  - intros Hall. rewrite (filter_all known_status) in Hlen by done. lia.
  - apply (count_exclusive (fun t => is_string (t !! "status") "completed")
             (stats_overdue Date_value clock)).
    intros t Hc. unfold stats_overdue. rewrite Hc. cbn. by rewrite andb_false_r.
Qed.


End WithStrings.

Section Samples.
#[local] Existing Instance Engine.ascii_strings.

Lemma failed_request_keeps_store_witness :
  (handle Sample.oracle (POST_subtask "1" ∅) Sample.store0).2 = Sample.store0.
Proof.
  apply (failed_request_keeps_store Sample.oracle (POST_subtask "1" ∅) Sample.store0).
  reflexivity.
Defined.

Lemma unknown_task_not_found_witness :
  handle Sample.oracle (PUT_subtask "7" "sub1" Sample.tick) Sample.store0
  = (error_response 404 "Task not found", Sample.store0).
Proof.
  apply (unknown_task_not_found Sample.oracle _ Sample.store0 "7"); [reflexivity|].
  intros t Ht%list_elem_of_In. cbn in Ht.
  destruct Ht as [<- | [<- | []]]; vm_compute; discriminate.
Defined.

Lemma delete_task_removes_first_witness :
  status (handle Sample.oracle (DELETE_task "2") Sample.store0).1 = 204%nat
  ∧ length (tasks (handle Sample.oracle (DELETE_task "2") Sample.store0).2) = 1%nat
  ∧ status (handle Sample.oracle (DELETE_task "2")
              (handle Sample.oracle (DELETE_task "2") Sample.store0).2).1 = 404%nat.
Proof.
  destruct (delete_task_removes_first Sample.oracle Sample.oracle "2" Sample.store0)
    as (i & t & Hf & E & Hlen & Hagain).
  - eexists. split; [apply list_elem_of_further, list_elem_of_here | reflexivity].
  - assert (find_task "2" (tasks Sample.store0)
            = Some (1%nat, default ∅ (tasks Sample.store0 !! 1%nat))) as Hsecond
      by (vm_compute; reflexivity).
    rewrite Hsecond in Hf. injection Hf as <- <-.
    split_and!.
    + by rewrite E.
    + vm_compute. reflexivity.
    + rewrite Hagain; [reflexivity|].
      intros [|[|[|j]]] u Hu Hj; try done.
      injection Hu as <-. vm_compute. discriminate.
Defined.

Lemma post_task_round_trip_witness :
  handle Sample.oracle (DELETE_task (uuidv4 Sample.oracle))
    (handle Sample.oracle (POST_task Sample.write_spec) Sample.store0).2
  = (Response 204 None, Sample.store0).
Proof.
  destruct (post_task_round_trip Sample.oracle Sample.oracle Sample.write_spec
              Sample.store0) as (t & _ & _ & H).
  - reflexivity.
  - intros u Hu%list_elem_of_In. cbn in Hu.
    destruct Hu as [<- | [<- | []]]; vm_compute; discriminate.
  - exact H.
Defined.

Lemma put_task_idempotent_witness :
  handle Sample.oracle (PUT_task "1" Sample.mark_completed)
    (handle Sample.oracle (PUT_task "1" Sample.mark_completed) Sample.store0).2
  = handle Sample.oracle (PUT_task "1" Sample.mark_completed) Sample.store0.
Proof.
  apply (put_task_idempotent Sample.oracle Sample.oracle "1" Sample.mark_completed
           Sample.store0).
  left. reflexivity.
Defined.

Lemma tasks_and_reminders_independent_witness :
  reminders (handle Sample.oracle (DELETE_task "1") Sample.store0).2
  = reminders Sample.store0.
Proof.
  apply (tasks_and_reminders_independent Sample.oracle (DELETE_task "1") Sample.store0).
  reflexivity.
Defined.

Lemma put_subtask_merges_witness :
  ∃ st',
    (handle Sample.oracle (PUT_subtask "1" "sub2" Sample.tick) Sample.store0).1
    = Response 200 (Some (JObj st'))
    ∧ st' !! "completed" = Some (JBool true)
    ∧ st' !! "title" = Some (JStr "Practice custom hooks").
Proof.
  destruct (put_subtask_merges Sample.oracle "1" "sub2" Sample.tick Sample.store0
              0%nat 1%nat (default ∅ (tasks Sample.store0 !! 0%nat))
              (object [ ("id", Some (JStr "sub2"));
                        ("title", Some (JStr "Practice custom hooks"));
                        ("completed", Some (JBool false)) ])
              (match default ∅ (tasks Sample.store0 !! 0%nat) !! "subtasks" with
               | Some (JArr l) => l
               | _ => []
               end))
    as (st' & _ & _ & E & Hmerge & _).
  - vm_compute. reflexivity.
  - vm_compute. reflexivity.
  - vm_compute. reflexivity.
  - vm_compute. reflexivity.
  - intros [|k] v Hk Hv; [|lia]. injection Hv as <-. split; [discriminate|].
    intros m [= <-]. vm_compute. discriminate.
  - exists st'. split; [exact E|]. rewrite !Hmerge. split; vm_compute; reflexivity.
Defined.

Lemma delete_subtask_removes_first_witness :
  ∃ task',
    tasks (handle Sample.oracle (DELETE_subtask "1" "sub1") Sample.store0).2 !! 0%nat
    = Some task'
    ∧ ∃ rest, task' !! "subtasks" = Some (JArr rest) ∧ length rest = 1%nat.
Proof.
  destruct (delete_subtask_removes_first Sample.oracle "1" "sub1" Sample.store0
              0%nat 0%nat (default ∅ (tasks Sample.store0 !! 0%nat))
              (object [ ("id", Some (JStr "sub1"));
                        ("title", Some (JStr "Read useEffect documentation"));
                        ("completed", Some (JBool true)) ])
              (match default ∅ (tasks Sample.store0 !! 0%nat) !! "subtasks" with
               | Some (JArr l) => l
               | _ => []
               end))
    as (task' & _ & E & Hsub & _).
  - vm_compute. reflexivity.
  - vm_compute. reflexivity.
  - vm_compute. reflexivity.
  - vm_compute. reflexivity.
  - intros k v Hk. lia.
  - exists task'. split; [exact E|]. eexists. split; [exact Hsub|]. vm_compute. reflexivity.
Defined.

Lemma unknown_subtask_not_found_witness :
  handle Sample.oracle (DELETE_subtask "1" "sub3") Sample.store0
  = (error_response 404 "Subtask not found", Sample.store0).
Proof.
  apply (unknown_subtask_not_found Sample.oracle _ Sample.store0 "1" "sub3" 0%nat
           (default ∅ (tasks Sample.store0 !! 0%nat))
           (match default ∅ (tasks Sample.store0 !! 0%nat) !! "subtasks" with
            | Some (JArr l) => l
            | _ => []
            end)).
  - reflexivity.
  - vm_compute. reflexivity.
  - vm_compute. reflexivity.
  - repeat constructor; try discriminate; intros m [= <-]; vm_compute; discriminate.
Defined.

Lemma subtask_round_trip_witness :
  ∃ task,
    tasks (handle Sample.oracle (DELETE_subtask "1" (uuidv4 Sample.oracle))
             (handle Sample.oracle (POST_subtask "1" Sample.eager_subtask)
                Sample.store0).2).2 !! 0%nat = Some task
    ∧ task !! "subtasks" = default ∅ (tasks Sample.store0 !! 0%nat) !! "subtasks".
Proof.
  destruct (subtask_round_trip Sample.oracle Sample.oracle "1" Sample.eager_subtask
              Sample.store0 0%nat (default ∅ (tasks Sample.store0 !! 0%nat))
              (match default ∅ (tasks Sample.store0 !! 0%nat) !! "subtasks" with
               | Some (JArr l) => l
               | _ => []
               end)) as [_ E].
  - vm_compute. reflexivity.
  - vm_compute. reflexivity.
  - reflexivity.
  - repeat constructor; try discriminate; intros m [= <-]; vm_compute; discriminate.
  - rewrite E. cbn [snd tasks]. eexists. split; [reflexivity|].
    by rewrite lookup_insert_ne.
Defined.

Lemma post_reminder_validates_witness :
  ∃ reminder,
    (handle Sample.oracle
       (POST_reminder (object [ ("taskId", Some (JStr "no such task"));
                                ("message", Some (JStr "ping"));
                                ("reminderTime", Some (JStr "2025-02-01T00:00:00.000Z")) ]))
       Sample.store0).1 = Response 201 (Some (JObj reminder))
    ∧ reminder !! "isActive" = Some (JBool true).
Proof.
  destruct (post_reminder_validates Sample.oracle
              (object [ ("taskId", Some (JStr "no such task"));
                        ("message", Some (JStr "ping"));
                        ("reminderTime", Some (JStr "2025-02-01T00:00:00.000Z")) ])
              Sample.store0) as [H _].
  destruct H as (reminder & E & _ & _ & _ & _ & Ha); [reflexivity|].
  exists reminder. split; [by rewrite E | exact Ha].
Defined.

Lemma search_ignores_term_case_witness :
  get_tasks (Query None None (Some (QString "React"))) (tasks Sample.store0)
  = get_tasks (Query None None (Some (QString "REACT"))) (tasks Sample.store0).
Proof.
  apply (search_ignores_term_case _ _ "React" "REACT"); done.
Defined.

Lemma get_stats_consistent_witness :
  (todo (get_stats Engine.Date_value 1738368000000 Sample.store0)
   + inProgress (get_stats Engine.Date_value 1738368000000 Sample.store0)
   + completed (get_stats Engine.Date_value 1738368000000 Sample.store0)
   = total (get_stats Engine.Date_value 1738368000000 Sample.store0))%nat.
Proof.
  apply (get_stats_consistent Engine.Date_value 1738368000000 Sample.store0).
  repeat constructor.
Defined.


End Samples.

End ServerExtraFacts.

(* ===================================================================== *)
(** ** The client against the server *)
(* ===================================================================== *)

Module ClientExtraFacts.
Import TaskContext TaskProvider.

Section WithStrings.
Context {strings : Strings}.

Lemma strict_equal_string (v : jsval) (id : string) :
  strict_equal v (Some (JStr id)) = is_string v id.
Proof. by destruct v as [[]|]. Qed.

(** When exactly one position carries the id, [handleTaskUpdate] is the
    assignment to that position. *)
Lemma handleTaskUpdate_unique (u : obj) (l : list obj) (i : nat) (t : obj) :
  l !! i = Some t →
  strict_equal (t !! "id") (u !! "id") = true →
  (∀ j v, l !! j = Some v → j ≠ i → strict_equal (v !! "id") (u !! "id") = false) →
  handleTaskUpdate u l = <[i := u]> l.
Proof.
  intros Hi Ht Hothers. apply list_eq. intros j.
  unfold handleTaskUpdate. rewrite list_lookup_fmap.
  destruct (decide (j = i)) as [->|Hj].
  - rewrite Hi, list_lookup_insert_eq by by eapply lookup_lt_Some. cbn. by rewrite Ht.
  - rewrite list_lookup_insert_ne by done.
    destruct (l !! j) as [v|] eqn:Hv; [|done]. cbn.
    by rewrite (Hothers j v).
Qed.

(** X15. An optimistic status change on a card shows at once and rolls
    back exactly.  For a task that is the only one with its id in the
    provider's list: before the request settles the list holds the task
    with the new status at the same position and nothing else changed; if
    the request fails the list is again what it was; if it succeeds the
    list stays as it is. *)
Theorem status_change_rolls_back
  (tasks : list obj) (i : nat) (task : obj) (newStatus : string) :
  tasks !! i = Some task →
  strict_equal (task !! "id") (task !! "id") = true →
  (∀ j v, tasks !! j = Some v → j ≠ i →
          strict_equal (v !! "id") (task !! "id") = false) →
  let shown := (TaskCard.handleStatusChange_start task newStatus tasks).1 in
  shown = <[i := <["status" := JStr newStatus]> task]> tasks
  ∧ (∀ message, TaskCard.handleStatusChange_settle task (Api.Thrown message) shown = tasks)
  ∧ (∀ data, TaskCard.handleStatusChange_settle task (Api.Fulfilled data) shown = shown).
Proof.
  intros Hi Hid Hothers shown.
  assert (shown = <[i := <["status" := JStr newStatus]> task]> tasks) as E.
  { unfold shown. cbn [TaskCard.handleStatusChange_start fst].
    apply (handleTaskUpdate_unique _ tasks i task); [done | |].
    - by rewrite lookup_insert_ne.
    - intros j v Hv Hj. rewrite lookup_insert_ne by done. by apply (Hothers j). }
  split; [exact E|]. split; [|done].
  intros message. cbn [TaskCard.handleStatusChange_settle]. rewrite E.
  rewrite (handleTaskUpdate_unique task _ i (<["status" := JStr newStatus]> task)).
  - rewrite list_insert_insert_eq. by apply list_insert_id.
  - apply list_lookup_insert_eq. by eapply lookup_lt_Some.
  - by rewrite lookup_insert_ne.
  - intros j v Hv Hj. rewrite list_lookup_insert_ne in Hv by done. by apply (Hothers j).
Qed.

Lemma filter_single {A} (p : A → bool) (l : list A) (i : nat) (t : A) :
  l !! i = Some t → p t = false →
  (∀ j v, l !! j = Some v → j ≠ i → p v = true) →
  List.filter p l = delete i l.
Proof.
  revert i. induction l as [|x l IH]; intros i Hi Ht Hothers; [done|].
  destruct i as [|i].
  - injection Hi as ->. cbn. rewrite Ht.
    rewrite (ServerFacts.filter_all p l); [done|].
    apply Forall_forall. intros v [j Hj]%list_elem_of_lookup_1.
    by apply (Hothers (S j)).
  - cbn. rewrite (Hothers 0%nat x) by done. f_equal.
    apply IH; [done | done |]. intros j v Hv Hj. apply (Hothers (S j)); [done | lia].
Qed.

Lemma fmap_single {A} (p : A → bool) (g : A → A) (l : list A) (i : nat) (t : A) :
  l !! i = Some t → p t = true →
  (∀ j v, l !! j = Some v → j ≠ i → p v = false) →
  (fun x => if p x then g x else x) <$> l = <[i := g t]> l.
Proof.
  intros Hi Ht Hothers. apply list_eq. intros j. rewrite list_lookup_fmap.
  destruct (decide (j = i)) as [->|Hj].
  - rewrite Hi, list_lookup_insert_eq by by eapply lookup_lt_Some. cbn. by rewrite Ht.
  - rewrite list_lookup_insert_ne by done.
    destruct (l !! j) as [v|] eqn:Hv; [|done]. cbn. by rewrite (Hothers j v).
Qed.

(** A plain id reaches the handler as it was sent. *)
Lemma path_param_plain (id : string) :
  Api.plain id = true → Api.path_param (Some (JStr id)) = Some id.
Proof. intros H. unfold Api.path_param. cbn [property_key to_property_key]. by rewrite H. Qed.

Lemma find_task_unique (id : string) (l : list obj) (i : nat) (t : obj) :
  l !! i = Some t → t !! "id" = Some (JStr id) →
  (∀ j v, l !! j = Some v → j ≠ i → v !! "id" ≠ Some (JStr id)) →
  Server.find_task id l = Some (i, t).
Proof.
  intros Hi Hid Hothers. apply ServerFacts.find_task_Some. split_and!; [done..|].
  intros j u Hu Hj. apply (Hothers j); [done | lia].
Qed.

Section WithEngine.
Variable TypeError_message : string.
Variable SyntaxError_message : string.
Abbreviation apiRequest := (Api.apiRequest TypeError_message SyntaxError_message).
Abbreviation call := (Api.call TypeError_message SyntaxError_message).

Lemma apiRequest_error (n : nat) (msg : string) :
  (400 ≤ n)%nat → msg ≠ "" →
  apiRequest (Api.Delivered (Server.error_response n msg)) = Api.Thrown msg.
Proof.
  intros Hn Hmsg. unfold Api.apiRequest.
  rewrite ServerExtraFacts.succeeded_error by done. cbn [negb].
  unfold Server.error_response. cbn [Server.payload Api.error_field].
  rewrite object_lookup. cbn [foldl fst snd].
  rewrite bool_decide_eq_true_2 by done.
  by rewrite (proj2 (truthy_string msg)).
Qed.

Lemma apiRequest_data (n : nat) (data : json) :
  (200 ≤ n < 300)%nat → n ≠ 204%nat →
  apiRequest (Api.Delivered (Server.Response n (Some data))) = Api.Fulfilled data.
Proof.
  intros Hn H204. unfold Api.apiRequest.
  rewrite ServerExtraFacts.succeeded_response by done. cbn [negb Server.status Server.payload].
  by rewrite bool_decide_eq_false_2.
Qed.

Lemma apiRequest_no_content :
  apiRequest (Api.Delivered (Server.Response 204 None)) = Api.Fulfilled JNull.
Proof.
  unfold Api.apiRequest. rewrite ServerExtraFacts.succeeded_response by lia.
  cbn [negb Server.status]. by rewrite bool_decide_eq_true_2.
Qed.

(** X16. Deleting from a card keeps the client in step with the server.
    Without confirmation nothing is requested.  With it, for a task whose
    id is a string that needs no escaping in a path (letters, digits, [-]
    and [_], as the ids the server generates) and that is the only one with
    its id in a list the client shares with the server, the request reaches
    the delete handler with that id and succeeds, and the client's list
    after [onTaskDelete] is the server's collection after the deletion. *)
Theorem card_delete_in_sync
  (o : Server.oracle) (s : Server.store) (i : nat) (task : obj) (id : string) :
  Server.tasks s !! i = Some task →
  task !! "id" = Some (JStr id) →
  Api.plain id = true →
  (∀ j v, Server.tasks s !! j = Some v → j ≠ i → v !! "id" ≠ Some (JStr id)) →
  TaskCard.handleDelete_start task false = None
  ∧ TaskCard.handleDelete_start task true = Some (Some (Server.DELETE_task id))
  ∧ (call o (Server.DELETE_task id) s).1 = Api.Fulfilled JNull
  ∧ TaskCard.handleDelete_settle task (call o (Server.DELETE_task id) s).1 (Server.tasks s)
    = Server.tasks (call o (Server.DELETE_task id) s).2.
Proof.
  intros Hi Hid Hplain Hothers.
  split; [done|]. split.
  { unfold TaskCard.handleDelete_start, Api.deleteTask.
    by rewrite Hid, path_param_plain. }
  unfold Api.call. cbn [Server.handle fst snd]. unfold Server.delete_task.
  rewrite (find_task_unique id _ i task) by done. cbn [fst snd].
  rewrite apiRequest_no_content. split; [done|].
  cbn [TaskCard.handleDelete_settle Server.tasks Server.set_tasks].
  unfold handleTaskDelete. rewrite Hid.
  apply (filter_single _ _ i task); [done | |].
  - by rewrite strict_equal_string, (proj2 (is_string_spec _ _)).
  - intros j v Hv Hj. rewrite strict_equal_string.
    apply negb_true_iff, not_true_iff_false. rewrite is_string_spec. by apply (Hothers j).
Qed.

(** X17. Saving the edit form against the server, for an edited task
    whose id is a string that needs no escaping in a path (letters, digits,
    [-] and [_], as the ids the server generates): the request reaches the
    update handler with that id.  When no task on the server has the id any
    more, the request fails, the client's tasks are again what they were
    before the optimistic change, the server's message 'Task not found' is
    stored for display and the server is unchanged.  When the client's list
    is the server's collection and the edited task is the only one with its
    id, the request succeeds, the form is closed, no error is stored, and
    every task of the client agrees with the server's task at the same
    position on every property except updatedAt. *)
Theorem edit_form_end_to_end
  (o : Server.oracle) (s : Server.store) (c : state) (taskData editing : obj)
  (id : string) :
  editingTask c = Some editing →
  editing !! "id" = Some (JStr id) →
  Api.plain id = true →
  ∃ p,
    (handleUpdateTask_start c taskData c).2 = Some p
    ∧ Api.updateTask (request_id p) (request_body p)
      = Some (Server.PUT_task id taskData)
    ∧ let started := (handleUpdateTask_start c taskData c).1 in
      let answer := call o (Server.PUT_task id taskData) s in
      let final := handleUpdateTask_settle p (update_settlement answer.1) started in
      ((∀ t, t ∈ Server.tasks s → t !! "id" ≠ Some (JStr id)) →
       tasks final = tasks c
       ∧ error final = Some "Task not found"
       ∧ answer.2 = s)
      ∧ (∀ i old,
           tasks c = Server.tasks s →
           Server.tasks s !! i = Some old →
           old !! "id" = Some (JStr id) →
           (∀ j v, Server.tasks s !! j = Some v → j ≠ i → v !! "id" ≠ Some (JStr id)) →
           error final = error c
           ∧ editingTask final = None
           ∧ showEditModal final = false
           ∧ length (tasks final) = length (Server.tasks answer.2)
           ∧ ∀ j tc, tasks final !! j = Some tc →
               ∃ ts, Server.tasks answer.2 !! j = Some ts
                     ∧ ∀ k, k ≠ "updatedAt" → tc !! k = ts !! k).
Proof.
  intros He Hid Hplain. unfold handleUpdateTask_start. rewrite He. cbn [fst snd].
  eexists. split; [reflexivity|]. cbn [request_id request_body].
  split; [unfold Api.updateTask; by rewrite Hid, path_param_plain|].
  split.
  - intros Hgone. unfold Api.call. cbn [Server.handle]. unfold Server.put_task.
    rewrite (proj2 (ServerFacts.find_task_None id (Server.tasks s))) by done.
    cbn [fst snd]. rewrite apiRequest_error by (lia || done).
    by split_and!.
  - intros i old Hsync Hi Hold Hothers. unfold Api.call. cbn [Server.handle].
    unfold Server.put_task. rewrite (find_task_unique id _ i old) by done.
    cbn [fst snd]. rewrite apiRequest_data by lia.
    rewrite Hsync, Hid.
    rewrite (fmap_single (fun task : obj => strict_equal (task !! "id") (Some (JStr id)))
               (fun task => spread2 task taskData) (Server.tasks s) i old).
    + unfold handleUpdateTask_settle, update_settlement, setIsSubmitting,
        setEditingTask, setShowEditModal, setTasks.
      cbn [tasks error editingTask showEditModal isSubmitting
           Server.tasks Server.set_tasks].
      split_and!; try done.
      * by rewrite !length_insert.
      * intros j tc Hj. destruct (decide (j = i)) as [->|Hne].
        -- rewrite list_lookup_insert_eq in Hj by by eapply lookup_lt_Some.
           injection Hj as <-. eexists. split.
           ++ apply list_lookup_insert_eq. by eapply lookup_lt_Some.
           ++ intros k Hk. by rewrite lookup_insert_ne.
        -- rewrite list_lookup_insert_ne in Hj by done.
           exists tc. split; [by rewrite list_lookup_insert_ne|done].
    + done.
    + by rewrite strict_equal_string, (proj2 (is_string_spec _ _)).
    + intros j v Hv Hj. rewrite strict_equal_string.
      apply not_true_iff_false. rewrite is_string_spec. by apply (Hothers j).
Qed.

(** X18. Creating a task from the form.  Nothing but the submitting flag
    changes before the server answers.  For data with a truthy title the
    server answers 201 and appends the new task, and the client then puts
    that same task in front of its list and closes the dialog; a client
    that shared the server's collection now holds the same tasks as the
    server, in a different order.  For data without one the server's
    message 'Title is required' is stored for display and neither list
    changes. *)
Theorem create_form_end_to_end
  (o : Server.oracle) (s : Server.store) (p : provider) (taskData : obj) :
  tasks (cells (handleCreateTask_start p)) = tasks (cells p)
  ∧ (truthy (taskData !! "title") = true →
     ∃ newTask,
       call o (Api.createTask taskData) s
       = (Api.Fulfilled (JObj newTask),
          Server.Store (Server.tasks s ++ [newTask]) (Server.reminders s))
       ∧ let final := handleCreateTask_settle (Created newTask) (handleCreateTask_start p) in
         tasks (cells final) = newTask :: tasks (cells p)
         ∧ showCreateModal final = false
         ∧ isSubmitting (cells final) = false
         ∧ error (cells final) = error (cells p)
         ∧ (tasks (cells p) = Server.tasks s →
            tasks (cells final) ≡ₚ Server.tasks s ++ [newTask]))
  ∧ (truthy (taskData !! "title") = false →
     call o (Api.createTask taskData) s = (Api.Thrown "Title is required", s)
     ∧ let final := handleCreateTask_settle (NotCreated "Title is required")
                      (handleCreateTask_start p) in
       tasks (cells final) = tasks (cells p)
       ∧ error (cells final) = Some "Title is required"
       ∧ showCreateModal final = showCreateModal p).
Proof.
  split; [done|]. split.
  - intros Ht.
    destruct (ServerFacts.post_task_truthy o taskData s Ht) as (newTask & E & _).
    exists newTask. unfold Api.call, Api.createTask. cbn [Server.handle]. rewrite E.
    cbn [fst snd]. rewrite apiRequest_data by lia.
    split; [done|]. cbn. split_and!; try done.
    intros ->. apply Permutation_cons_append.
  - intros Ht. unfold Api.call, Api.createTask. cbn [Server.handle].
    unfold Server.post_task. rewrite Ht. cbn [negb fst snd].
    rewrite apiRequest_error by (lia || done). done.
Qed.

(** X19. With this server the client never meets a body it cannot read:
    for every request and every store, the outcome of [apiRequest] on the
    server's answer does not depend on how the engine words a parse or
    type error; it is data exactly when the status is 2xx, and otherwise a
    thrown error whose message is the server's own error text, or the
    generic text with status 500 for an exception inside a handler. *)
Theorem answers_are_readable
  (TypeError_message' SyntaxError_message' : string)
  (o : Server.oracle) (r : Server.request) (s : Server.store) :
  let answer := (Server.handle o r s).1 in
  apiRequest (Api.Delivered answer)
  = Api.apiRequest TypeError_message' SyntaxError_message' (Api.Delivered answer)
  ∧ match apiRequest (Api.Delivered answer) with
    | Api.Fulfilled data =>
        Server.succeeded answer = true
        ∧ (Server.status answer = 204%nat → data = JNull)
        ∧ (Server.status answer ≠ 204%nat → Server.payload answer = Some data)
    | Api.Thrown message =>
        Server.succeeded answer = false
        ∧ message ∈ [ "Task not found"; "Subtask not found"; "Title is required";
                      "Subtask title is required"; "Reminder not found";
                      "TaskId, message, and reminderTime are required";
                      "HTTP error! status: 500" ]
    end.
Proof.
  intros answer.
  assert ((∃ n data, (200 ≤ n < 300)%nat ∧ n ≠ 204%nat ∧ answer = Server.Response n (Some data))
          ∨ answer = Server.Response 204 None
          ∨ (∃ n msg, (400 ≤ n)%nat ∧ msg ≠ ""
                      ∧ msg ∈ [ "Task not found"; "Subtask not found"; "Title is required";
                                "Subtask title is required"; "Reminder not found";
                                "TaskId, message, and reminderTime are required" ]
                      ∧ answer = Server.error_response n msg)
          ∨ answer = Server.uncaught) as Hshape.
  { unfold answer. destruct r; cbn [Server.handle fst].
    - unfold Server.get_tasks_handler. destruct (Server.get_tasks q (Server.tasks s)).
      + left. eexists _, _. split_and!; [| | |reflexivity]; lia.
      + by do 3 right.
    - unfold Server.get_task. destruct (Server.find_task id (Server.tasks s)) as [[i t]|].
      + left. eexists _, _. split_and!; [| | |reflexivity]; lia.
      + right; right; left. eexists _, _. split_and!; [| | |reflexivity]; [lia|done|apply list_elem_of_In; cbn; intuition].
    - unfold Server.post_task. destruct (negb (truthy (body !! "title"))).
      + right; right; left. eexists _, _. split_and!; [| | |reflexivity]; [lia|done|apply list_elem_of_In; cbn; intuition].
      + left. eexists _, _. split_and!; [| | |reflexivity]; lia.
    - unfold Server.put_task. destruct (Server.find_task id (Server.tasks s)) as [[i t]|].
      + left. eexists _, _. split_and!; [| | |reflexivity]; lia.
      + right; right; left. eexists _, _. split_and!; [| | |reflexivity]; [lia|done|apply list_elem_of_In; cbn; intuition].
    - unfold Server.delete_task. destruct (Server.find_task id (Server.tasks s)) as [[i t]|].
      + by right; left.
      + right; right; left. eexists _, _. split_and!; [| | |reflexivity]; [lia|done|apply list_elem_of_In; cbn; intuition].
    - unfold Server.post_subtask. destruct (Server.find_task id (Server.tasks s)) as [[i t]|].
      + destruct (negb (truthy (body !! "title"))).
        * right; right; left. eexists _, _. split_and!; [| | |reflexivity]; [lia|done|apply list_elem_of_In; cbn; intuition].
        * destruct (t !! "subtasks") as [[| | | |l|]|]; try by do 3 right.
          left. eexists _, _. split_and!; [| | |reflexivity]; lia.
      + right; right; left. eexists _, _. split_and!; [| | |reflexivity]; [lia|done|apply list_elem_of_In; cbn; intuition].
    - unfold Server.put_subtask. destruct (Server.find_task taskId (Server.tasks s)) as [[i t]|].
      + destruct (t !! "subtasks") as [[| | | |l|]|]; try by do 3 right.
        destruct (Server.find_subtask subtaskId l) as [[[j st]|]|].
        * left. eexists _, _. split_and!; [| | |reflexivity]; lia.
        * right; right; left. eexists _, _. split_and!; [| | |reflexivity]; [lia|done|apply list_elem_of_In; cbn; intuition].
        * by do 3 right.
      + right; right; left. eexists _, _. split_and!; [| | |reflexivity]; [lia|done|apply list_elem_of_In; cbn; intuition].
    - unfold Server.delete_subtask. destruct (Server.find_task taskId (Server.tasks s)) as [[i t]|].
      + destruct (t !! "subtasks") as [[| | | |l|]|]; try by do 3 right.
        destruct (Server.find_subtask subtaskId l) as [[[j st]|]|].
        * by right; left.
        * right; right; left. eexists _, _. split_and!; [| | |reflexivity]; [lia|done|apply list_elem_of_In; cbn; intuition].
        * by do 3 right.
      + right; right; left. eexists _, _. split_and!; [| | |reflexivity]; [lia|done|apply list_elem_of_In; cbn; intuition].
    - left. eexists _, _. split_and!; [| | |reflexivity]; lia.
    - unfold Server.post_reminder.
      destruct (negb (truthy (body !! "taskId")) || negb (truthy (body !! "message"))
                || negb (truthy (body !! "reminderTime"))).
      + right; right; left. eexists _, _. split_and!; [| | |reflexivity]; [lia|done|apply list_elem_of_In; cbn; intuition].
      + left. eexists _, _. split_and!; [| | |reflexivity]; lia.
    - unfold Server.delete_reminder.
      destruct (list_find (fun r => Server.has_id id r) (Server.reminders s)) as [[i t]|].
      + by right; left.
      + right; right; left. eexists _, _. split_and!; [| | |reflexivity]; [lia|done|apply list_elem_of_In; cbn; intuition]. }
  clearbody answer.
  destruct Hshape as [(n & data & Hn & H204 & ->) | [-> | [(n & msg & Hn & Hne & Hin & ->) | ->]]].
  - rewrite apiRequest_data by done.
    unfold Api.apiRequest. rewrite ServerExtraFacts.succeeded_response by done.
    cbn [negb Server.status Server.payload]. rewrite bool_decide_eq_false_2 by done.
    by split_and!.
  - rewrite apiRequest_no_content.
    unfold Api.apiRequest. rewrite ServerExtraFacts.succeeded_response by lia.
    cbn [negb Server.status]. rewrite bool_decide_eq_true_2 by done.
    by split_and!.
  - rewrite apiRequest_error by done.
    split.
    + unfold Api.apiRequest. rewrite ServerExtraFacts.succeeded_error by done. cbn [negb].
      unfold Server.error_response. cbn [Server.payload Api.error_field].
      rewrite object_lookup. cbn [foldl fst snd].
      rewrite bool_decide_eq_true_2 by done.
      by rewrite (proj2 (truthy_string msg)).
    + split; [by apply ServerExtraFacts.succeeded_error|].
      apply list_elem_of_In. apply list_elem_of_In in Hin. cbn in Hin |- *. intuition.
  - split; [reflexivity|]. split; [reflexivity|].
    apply list_elem_of_In. cbn. intuition.
Qed.

End WithEngine.

End WithStrings.

Section Samples.
#[local] Existing Instance Engine.ascii_strings.

Lemma status_change_rolls_back_witness :
  TaskCard.handleStatusChange_settle (default ∅ (Server.tasks Sample.store0 !! 1%nat))
    (Api.Thrown "Task not found")
    (TaskCard.handleStatusChange_start (default ∅ (Server.tasks Sample.store0 !! 1%nat))
       "in-progress" (Server.tasks Sample.store0)).1
  = Server.tasks Sample.store0.
Proof.
  apply (status_change_rolls_back (Server.tasks Sample.store0) 1%nat
           (default ∅ (Server.tasks Sample.store0 !! 1%nat)) "in-progress").
  - reflexivity.
  - vm_compute. reflexivity.
  - intros [|[|j]] v Hv Hj; try done.
    injection Hv as <-. vm_compute. reflexivity.
Defined.

Lemma card_delete_in_sync_witness :
  TaskCard.handleDelete_settle (default ∅ (Server.tasks Sample.store0 !! 0%nat))
    (Api.call "" "" Sample.oracle (Server.DELETE_task "1") Sample.store0).1
    (Server.tasks Sample.store0)
  = Server.tasks (Api.call "" "" Sample.oracle (Server.DELETE_task "1") Sample.store0).2.
Proof.
  apply (card_delete_in_sync "" "" Sample.oracle Sample.store0 0%nat
           (default ∅ (Server.tasks Sample.store0 !! 0%nat)) "1").
  - reflexivity.
  - vm_compute. reflexivity.
  - reflexivity.
  - intros [|[|j]] v Hv Hj; try done.
    injection Hv as <-. vm_compute. discriminate.
Defined.

Lemma edit_form_end_to_end_witness :
  ∃ p,
    (handleUpdateTask_start Sample.editing_first Sample.mark_completed
       Sample.editing_first).2 = Some p
    ∧ error (handleUpdateTask_settle p
               (update_settlement
                  (Api.call "" "" Sample.oracle
                     (Server.PUT_task "1" Sample.mark_completed) Sample.store0).1)
               (handleUpdateTask_start Sample.editing_first Sample.mark_completed
                  Sample.editing_first).1) = None.
Proof.
  destruct (edit_form_end_to_end "" "" Sample.oracle Sample.store0 Sample.editing_first
              Sample.mark_completed (default ∅ (Server.tasks Sample.store0 !! 0%nat)) "1")
    as (p & Hp & _ & _ & Hsync).
  - reflexivity.
  - vm_compute. reflexivity.
  - reflexivity.
  - exists p. split; [exact Hp|].
    destruct (Hsync 0%nat (default ∅ (Server.tasks Sample.store0 !! 0%nat)))
      as (He & _); [reflexivity | reflexivity | vm_compute; reflexivity | |exact He].
    intros [|[|j]] v Hv Hj; try done.
    injection Hv as <-. vm_compute. discriminate.
Defined.

Lemma create_form_end_to_end_witness :
  ∃ newTask,
    Api.call "" "" Sample.oracle (Api.createTask Sample.write_spec) Sample.store0
    = (Api.Fulfilled (JObj newTask),
       Server.Store (Server.tasks Sample.store0 ++ [newTask])
                    (Server.reminders Sample.store0)).
Proof.
  destruct (create_form_end_to_end "" "" Sample.oracle Sample.store0
              (Provider Sample.editing_first false true None) Sample.write_spec)
    as (_ & H & _).
  destruct H as (newTask & E & _); [reflexivity|].
  by exists newTask.
Defined.

Lemma answers_are_readable_witness :
  Api.apiRequest "a" "b"
    (Api.Delivered (Server.handle Sample.oracle (Server.GET_task "9") Sample.store0).1)
  = Api.apiRequest "c" "d"
      (Api.Delivered (Server.handle Sample.oracle (Server.GET_task "9") Sample.store0).1).
Proof.
  apply (answers_are_readable "a" "b" "c" "d" Sample.oracle (Server.GET_task "9")
           Sample.store0).
Defined.

End Samples.

End ClientExtraFacts.

Module CardSubtaskFacts.
Import TaskCardSubtasks.

Section WithStrings.
Context {strings : Strings}.

Lemma findE_found {A} (p : A → result bool) (l : list A) (j : nat) (x : A) :
  l !! j = Some x → p x = Ok true →
  (∀ k v, (k < j)%nat → l !! k = Some v → p v = Ok false) →
  findE p l = Ok (Some (j, x)).
Proof.
  revert j. induction l as [|y l IH]; intros j Hj Hx Hbefore; [done|].
  destruct j as [|j].
  - injection Hj as ->. cbn [findE]. by rewrite Hx.
  - cbn [findE]. rewrite (Hbefore 0%nat y) by (lia || done). cbn.
    rewrite (IH j); [done | done | done |].
    intros k v Hk Hv. apply (Hbefore (S k)); [lia | done].
Qed.

Lemma has_subtask_id_skipped (sid : string) (v : json) :
  ServerExtra.skipped sid v → has_subtask_id (Some (JStr sid)) v = Ok false.
Proof.
  intros [Hnull Hobj]. unfold has_subtask_id.
  destruct v as [| | | | |m]; try done. cbn.
  rewrite ClientExtraFacts.strict_equal_string. f_equal.
  apply not_true_iff_false. rewrite is_string_spec. by apply Hobj.
Qed.

Lemma has_subtask_id_match (sid : string) (st : obj) :
  st !! "id" = Some (JStr sid) → has_subtask_id (Some (JStr sid)) (JObj st) = Ok true.
Proof.
  intros Hid. unfold has_subtask_id. cbn. rewrite Hid. cbn.
  by rewrite bool_decide_eq_true_2.
Qed.

Lemma object_singleton (k : string) (v : json) : object [(k, Some v)] = {[k := v]}.
Proof. unfold object. cbn. apply insert_empty. Qed.

Lemma spread2_singleton (st : obj) (k : string) (v : json) :
  spread2 st (object [(k, Some v)]) = <[k := v]> st.
Proof. unfold spread2. by rewrite object_singleton, insert_union_singleton_l. Qed.

Lemma in_step_insert (l : list obj) (i : nat) (tc ts : obj) :
  (i < length l)%nat →
  (∀ k, k ≠ "updatedAt" → tc !! k = ts !! k) →
  in_step (<[i := tc]> l) (<[i := ts]> l).
Proof.
  intros Hi Hk. split; [by rewrite !length_insert|].
  intros j t Hj. destruct (decide (j = i)) as [->|Hne].
  - rewrite list_lookup_insert_eq in Hj by done. injection Hj as <-.
    exists ts. split; [by apply list_lookup_insert_eq | done].
  - rewrite list_lookup_insert_ne in Hj by done.
    exists t. split; [by rewrite list_lookup_insert_ne | done].
Qed.

Section WithEngine.
Variable TypeError_message : string.
Variable SyntaxError_message : string.
Abbreviation call := (Api.call TypeError_message SyntaxError_message).

(** X20. Ticking a subtask on a card, when the ids of the task and of
    the subtask are strings that need no escaping in a path (letters,
    digits, [-] and [_], as the ids the server generates).  For a task that
    is the only one with its id in a list the client shares with the
    server, and a subtask that is the first with its id: the card flips
    [completed] of that subtask at once and sends exactly the flipped value
    to the handler of that task and subtask; the server accepts it, and the
    client's tasks then agree with the server's on every property except
    updatedAt, subtasks included.  Had the request failed, the client's
    tasks would be what they were. *)
Theorem subtask_toggle_in_step
  (o : Server.oracle) (s : Server.store) (i j : nat) (task st : obj)
  (id subtaskId : string) (subtasks : list json) :
  Server.tasks s !! i = Some task →
  task !! "id" = Some (JStr id) →
  (∀ k v, Server.tasks s !! k = Some v → k ≠ i → v !! "id" ≠ Some (JStr id)) →
  task !! "subtasks" = Some (JArr subtasks) →
  subtasks !! j = Some (JObj st) →
  st !! "id" = Some (JStr subtaskId) →
  (∀ k v, (k < j)%nat → subtasks !! k = Some v → ServerExtra.skipped subtaskId v) →
  Api.plain id = true → Api.plain subtaskId = true →
  let flipped := JBool (negb (truthy (st !! "completed"))) in
  let request := Server.PUT_subtask id subtaskId (object [("completed", Some flipped)]) in
  ∃ shown,
    handleSubtaskToggle_start task (Some (JStr subtaskId)) (Server.tasks s)
    = Ok (Some (shown, Some request))
    ∧ shown = <[i := <["subtasks" :=
                        JArr (<[j := JObj (<["completed" := flipped]> st)]> subtasks)]> task]>
                (Server.tasks s)
    ∧ (call o request s).1 = Api.Fulfilled (JObj (<["completed" := flipped]> st))
    ∧ in_step (settle task (call o request s).1 shown) (Server.tasks (call o request s).2)
    ∧ (∀ message, settle task (Api.Thrown message) shown = Server.tasks s).
Proof.
  intros Hi Hid Hothers Hsub Hj Hst Hbefore Hplain Hplain' flipped request.
  assert (i < length (Server.tasks s))%nat as Hlt by by eapply lookup_lt_Some.
  assert (∀ u : obj, u !! "id" = Some (JStr id) →
            TaskProvider.handleTaskUpdate u (Server.tasks s) = <[i := u]> (Server.tasks s))
    as Hupd.
  { intros u Hu. apply (ClientExtraFacts.handleTaskUpdate_unique u _ i task); [done | |].
    - rewrite Hid, Hu. cbn. by rewrite bool_decide_eq_true_2.
    - intros k v Hv Hk. rewrite Hu, ClientExtraFacts.strict_equal_string.
      apply not_true_iff_false. rewrite is_string_spec. by apply (Hothers k). }
  eexists. split.
  { unfold handleSubtaskToggle_start. rewrite Hsub.
    rewrite (findE_found _ subtasks j (JObj st)); cbn.
    - rewrite Hupd by by rewrite lookup_insert_ne.
      unfold Api.updateSubtask.
      rewrite Hid, !ClientExtraFacts.path_param_plain by done. reflexivity.
    - done.
    - by apply has_subtask_id_match.
    - intros k v Hk Hv. apply has_subtask_id_skipped. by apply (Hbefore k). }
  split; [reflexivity|].
  assert (Server.handle o request s
          = (Server.Response 200 (Some (JObj (<["completed" := flipped]> st))),
             Server.Store
               (<[i := <["updatedAt" := JStr (Server.now o)]>
                         (<["subtasks" :=
                              JArr (<[j := JObj (<["completed" := flipped]> st)]> subtasks)]>
                            task)]> (Server.tasks s))
               (Server.reminders s))) as Hserver.
  { cbn [Server.handle request]. unfold Server.put_subtask.
    rewrite (ClientExtraFacts.find_task_unique id _ i task) by done.
    rewrite Hsub, (ServerExtraFacts.find_subtask_found subtaskId subtasks j st) by done.
    by rewrite spread2_singleton. }
  unfold Api.call. rewrite Hserver. cbn [fst snd Server.tasks].
  rewrite ClientExtraFacts.apiRequest_data by lia.
  split; [reflexivity|]. split.
  - cbn [settle]. apply in_step_insert; [done|].
    intros k Hk. by rewrite (lookup_insert_ne _ "updatedAt").
  - intros message. cbn [settle]. unfold revert.
    rewrite (ClientExtraFacts.handleTaskUpdate_unique task _ i
               (<["subtasks" :=
                    JArr (<[j := JObj (<["completed" := flipped]> st)]> subtasks)]> task)).
    + rewrite list_insert_insert_eq. by apply list_insert_id.
    + by apply list_lookup_insert_eq.
    + rewrite lookup_insert_ne by done. rewrite Hid. cbn. by rewrite bool_decide_eq_true_2.
    + intros k v Hv Hk. rewrite list_lookup_insert_ne in Hv by done.
      rewrite Hid, ClientExtraFacts.strict_equal_string.
      apply not_true_iff_false. rewrite is_string_spec. by apply (Hothers k).
Qed.

Lemma has_subtask_id_total (x : jsval) (v : json) :
  v ≠ JNull → ∃ b, has_subtask_id x v = Ok b.
Proof. intros Hv. unfold has_subtask_id. destruct v; try done; by eexists. Qed.

(** X21. Adding one subtask from a card, with no other change to the
    task meanwhile: the placeholder is replaced by the created subtask.
    For a task whose id is a string that needs no escaping in a path
    (letters, digits, [-] and [_]), that is the only one with its id in a
    list the client shares with the server and whose subtasks are an array
    without null, and for a title of ASCII characters that is not blank:
    the card first shows the subtasks followed by a placeholder with a
    temporary id; the server creates the subtask; the card then shows the
    subtasks followed by the created subtask alone, and the client's tasks
    agree with the server's on every property except updatedAt.  Had the
    request failed, the client's tasks would be what they were. *)
Theorem add_subtask_replaces_placeholder
  (clock : Z) (o : Server.oracle) (s : Server.store) (i : nat) (task : obj)
  (id title : string) (subtasks : list json) :
  Server.tasks s !! i = Some task →
  task !! "id" = Some (JStr id) →
  (∀ k v, Server.tasks s !! k = Some v → k ≠ i → v !! "id" ≠ Some (JStr id)) →
  task !! "subtasks" = Some (JArr subtasks) →
  Forall (fun v => v ≠ JNull) subtasks →
  Api.plain id = true →
  Forall (fun c => (nat_of_ascii c < 128)%nat) (list_ascii_of_string title) →
  trim title ≠ "" →
  let placeholder :=
    object [ ("id", Some (JStr ("temp-" +:+ pretty clock)));
             ("title", Some (JStr (trim title)));
             ("completed", Some (JBool false)) ] in
  let created :=
    object [ ("id", Some (JStr (Server.uuidv4 o)));
             ("title", Some (JStr (trim title)));
             ("completed", Some (JBool false)) ] in
  let request := Server.POST_subtask id (object [("title", Some (JStr (trim title)))]) in
  ∃ shown,
    handleAddSubtask_start clock task title (Server.tasks s)
    = Ok (Some (shown, Some request))
    ∧ shown = <[i := <["subtasks" := JArr (subtasks ++ [JObj placeholder])]> task]>
                (Server.tasks s)
    ∧ (call o request s).1 = Api.Fulfilled (JObj created)
    ∧ handleAddSubtask_settle clock task (call o request s).1 shown
      = <[i := <["subtasks" := JArr (subtasks ++ [JObj created])]> task]> (Server.tasks s)
    ∧ in_step (handleAddSubtask_settle clock task (call o request s).1 shown)
              (Server.tasks (call o request s).2)
    ∧ (∀ message, handleAddSubtask_settle clock task (Api.Thrown message) shown
                  = Server.tasks s).
Proof.
  intros Hi Hid Hothers Hsub Hnonull Hplain _ Htitle placeholder created request.
  assert (i < length (Server.tasks s))%nat as Hlt by by eapply lookup_lt_Some.
  assert (∀ (u : obj) (l : list obj),
            l !! i = Some u → length l = length (Server.tasks s) →
            (∀ k, k ≠ i → l !! k = Server.tasks s !! k) →
            u !! "id" = Some (JStr id) →
            ∀ u', u' !! "id" = Some (JStr id) →
                  TaskProvider.handleTaskUpdate u' l = <[i := u']> l) as Hupd.
  { intros u l Hu Hlen Hsame Huid u' Hu'.
    apply (ClientExtraFacts.handleTaskUpdate_unique u' l i u); [done | |].
    - rewrite Huid, Hu'. cbn. by rewrite bool_decide_eq_true_2.
    - intros k v Hv Hk. rewrite Hsame in Hv by done.
      rewrite Hu', ClientExtraFacts.strict_equal_string.
      apply not_true_iff_false. rewrite is_string_spec. by apply (Hothers k). }
  assert (truthy (Some (JStr (trim title))) = true) as Htruthy by by apply truthy_string.
  exists (<[i := <["subtasks" := JArr (subtasks ++ [JObj placeholder])]> task]>
            (Server.tasks s)).
  split.
  { unfold handleAddSubtask_start. rewrite Htruthy, Hsub. cbn.
    rewrite (Hupd task (Server.tasks s)); [| done | done | done | done |].
    - unfold Api.createSubtask.
      rewrite Hid, ClientExtraFacts.path_param_plain by done. reflexivity.
    - by rewrite lookup_insert_ne. }
  split; [reflexivity|].
  assert (Server.handle o request s
          = (Server.Response 201 (Some (JObj created)),
             Server.Store
               (<[i := <["updatedAt" := JStr (Server.now o)]>
                         (<["subtasks" := JArr (subtasks ++ [JObj created])]> task)]>
                  (Server.tasks s))
               (Server.reminders s))) as Hserver.
  { cbn [Server.handle request]. unfold Server.post_subtask.
    rewrite (ClientExtraFacts.find_task_unique id _ i task) by done.
    rewrite object_lookup. cbn [foldl fst snd].
    rewrite bool_decide_eq_true_2 by done. rewrite Htruthy, Hsub. reflexivity. }
  unfold Api.call. rewrite Hserver. cbn [fst snd Server.tasks].
  rewrite ClientExtraFacts.apiRequest_data by lia.
  assert (handleAddSubtask_settle clock task (Api.Fulfilled (JObj created))
            (<[i := <["subtasks" := JArr (subtasks ++ [JObj placeholder])]> task]>
               (Server.tasks s))
          = <[i := <["subtasks" := JArr (subtasks ++ [JObj created])]> task]>
              (Server.tasks s)) as Hsettle.
  { unfold handleAddSubtask_settle. rewrite Hsub.
    destruct (TaskBoardFacts.filterE_ok
                (has_subtask_id (Some (JStr ("temp-" +:+ pretty clock)))) subtasks)
      as (r & -> & _).
    { eapply Forall_impl; [exact Hnonull|]. intros v Hv. by apply has_subtask_id_total. }
    rewrite (Hupd (<["subtasks" := JArr (subtasks ++ [JObj placeholder])]> task)).
    - by rewrite list_insert_insert_eq.
    - by apply list_lookup_insert_eq.
    - apply length_insert.
    - intros k Hk. by apply list_lookup_insert_ne.
    - by rewrite lookup_insert_ne.
    - by rewrite lookup_insert_ne. }
  split; [reflexivity|]. split; [exact Hsettle|]. split.
  - rewrite Hsettle. apply in_step_insert; [done|].
    intros k Hk. by rewrite (lookup_insert_ne _ "updatedAt").
  - intros message. unfold handleAddSubtask_settle, revert.
    rewrite (Hupd (<["subtasks" := JArr (subtasks ++ [JObj placeholder])]> task)).
    + rewrite list_insert_insert_eq. by apply list_insert_id.
    + by apply list_lookup_insert_eq.
    + apply length_insert.
    + intros k Hk. by apply list_lookup_insert_ne.
    + by rewrite lookup_insert_ne.
    + done.
Qed.

Lemma lacks_subtask_id_spec (sid : string) (v : json) :
  v ≠ JNull →
  lacks_subtask_id (Some (JStr sid)) v
  = Ok (negb match v with JObj m => is_string (m !! "id") sid | _ => false end).
Proof.
  intros Hv. unfold lacks_subtask_id. by destruct v.
Qed.

(** X22. Removing a subtask from a card, when the ids of the task and of
    the subtask are strings that need no escaping in a path (letters,
    digits, [-] and [_], as the ids the server generates).  For a task that
    is the only one with its id in a list the client shares with the
    server, and a subtask that is the only element of the task's subtasks
    with its id (none of them null): the card shows the subtasks without it
    at once; the request reaches the handler of that task and subtask, the
    server accepts the deletion, and the client's tasks then agree with the
    server's on every property except updatedAt.  Had the request failed,
    the client's tasks would be what they were. *)
Theorem delete_subtask_in_step
  (o : Server.oracle) (s : Server.store) (i j : nat) (task st : obj)
  (id subtaskId : string) (subtasks : list json) :
  Server.tasks s !! i = Some task →
  task !! "id" = Some (JStr id) →
  (∀ k v, Server.tasks s !! k = Some v → k ≠ i → v !! "id" ≠ Some (JStr id)) →
  task !! "subtasks" = Some (JArr subtasks) →
  subtasks !! j = Some (JObj st) →
  st !! "id" = Some (JStr subtaskId) →
  (∀ k v, k ≠ j → subtasks !! k = Some v → ServerExtra.skipped subtaskId v) →
  Api.plain id = true → Api.plain subtaskId = true →
  let request := Server.DELETE_subtask id subtaskId in
  ∃ shown,
    handleDeleteSubtask_start task (Some (JStr subtaskId)) (Server.tasks s)
    = Ok (Some (shown, Some request))
    ∧ shown = <[i := <["subtasks" := JArr (delete j subtasks)]> task]> (Server.tasks s)
    ∧ (call o request s).1 = Api.Fulfilled JNull
    ∧ in_step (settle task (call o request s).1 shown) (Server.tasks (call o request s).2)
    ∧ (∀ message, settle task (Api.Thrown message) shown = Server.tasks s).
Proof.
  intros Hi Hid Hothers Hsub Hj Hst Helse Hplain Hplain' request.
  assert (i < length (Server.tasks s))%nat as Hlt by by eapply lookup_lt_Some.
  assert (Forall (fun v => v ≠ JNull) subtasks) as Hnonull.
  { apply Forall_forall. intros v [k Hk]%list_elem_of_lookup_1.
    destruct (decide (k = j)) as [->|Hne]; [congruence|]. by apply (Helse k v). }
  assert (filterE (lacks_subtask_id (Some (JStr subtaskId))) subtasks
          = Ok (delete j subtasks)) as Hfilter.
  { rewrite (ServerFacts.filterE_total _
               (fun v => negb match v with
                              | JObj m => is_string (m !! "id") subtaskId
                              | _ => false
                              end)).
    - f_equal. apply (ClientExtraFacts.filter_single _ _ j (JObj st)); [done | |].
      + by rewrite (proj2 (is_string_spec _ _)).
      + intros k v Hv Hk. destruct (Helse k v Hk Hv) as [_ Hobj].
        destruct v as [| | | | |m]; try done.
        apply negb_true_iff, not_true_iff_false. rewrite is_string_spec. by apply Hobj.
    - eapply Forall_impl; [exact Hnonull|]. intros v Hv. by apply lacks_subtask_id_spec. }
  eexists. split.
  { unfold handleDeleteSubtask_start. rewrite Hsub, Hfilter. cbn.
    rewrite (ClientExtraFacts.handleTaskUpdate_unique _ _ i task).
    - unfold Api.deleteSubtask.
      rewrite Hid, !ClientExtraFacts.path_param_plain by done. reflexivity.
    - done.
    - rewrite lookup_insert_ne by done. rewrite Hid. cbn. by rewrite bool_decide_eq_true_2.
    - intros k v Hv Hk. rewrite lookup_insert_ne by done.
      rewrite Hid, ClientExtraFacts.strict_equal_string.
      apply not_true_iff_false. rewrite is_string_spec. by apply (Hothers k). }
  split; [reflexivity|].
  assert (Server.handle o request s
          = (Server.Response 204 None,
             Server.Store
               (<[i := <["updatedAt" := JStr (Server.now o)]>
                         (<["subtasks" := JArr (delete j subtasks)]> task)]>
                  (Server.tasks s))
               (Server.reminders s))) as Hserver.
  { cbn [Server.handle request]. unfold Server.delete_subtask.
    rewrite (ClientExtraFacts.find_task_unique id _ i task) by done.
    rewrite Hsub, (ServerExtraFacts.find_subtask_found subtaskId subtasks j st); try done.
    intros k v Hk Hv. apply (Helse k v); [lia | done]. }
  unfold Api.call. rewrite Hserver. cbn [fst snd Server.tasks].
  rewrite ClientExtraFacts.apiRequest_no_content.
  split; [reflexivity|]. split.
  - cbn [settle]. apply in_step_insert; [done|].
    intros k Hk. by rewrite (lookup_insert_ne _ "updatedAt").
  - intros message. cbn [settle]. unfold revert.
    rewrite (ClientExtraFacts.handleTaskUpdate_unique task _ i
               (<["subtasks" := JArr (delete j subtasks)]> task)).
    + rewrite list_insert_insert_eq. by apply list_insert_id.
    + by apply list_lookup_insert_eq.
    + rewrite lookup_insert_ne by done. rewrite Hid. cbn. by rewrite bool_decide_eq_true_2.
    + intros k v Hv Hk. rewrite list_lookup_insert_ne in Hv by done.
      rewrite Hid, ClientExtraFacts.strict_equal_string.
      apply not_true_iff_false. rewrite is_string_spec. by apply (Hothers k).
Qed.
End WithEngine.

End WithStrings.

Section Samples.
#[local] Existing Instance Engine.ascii_strings.

Lemma subtask_toggle_in_step_witness :
  ∃ shown,
    handleSubtaskToggle_start (default ∅ (Server.tasks Sample.store0 !! 0%nat))
      (Some (JStr "sub2")) (Server.tasks Sample.store0)
    = Ok (Some (shown,
                Some (Server.PUT_subtask "1" "sub2"
                        (object [("completed", Some (JBool true))])))).
Proof.
  destruct (subtask_toggle_in_step "" "" Sample.oracle Sample.store0 0%nat 1%nat
              (default ∅ (Server.tasks Sample.store0 !! 0%nat))
              (object [ ("id", Some (JStr "sub2"));
                        ("title", Some (JStr "Practice custom hooks"));
                        ("completed", Some (JBool false)) ])
              "1" "sub2"
              (match default ∅ (Server.tasks Sample.store0 !! 0%nat) !! "subtasks" with
               | Some (JArr l) => l
               | _ => []
               end))
    as (shown & E & _).
  - reflexivity.
  - vm_compute. reflexivity.
  - intros [|[|k]] v Hv Hk; try done.
    injection Hv as <-. vm_compute. discriminate.
  - vm_compute. reflexivity.
  - vm_compute. reflexivity.
  - vm_compute. reflexivity.
  - intros [|k] v Hk Hv; [|lia]. injection Hv as <-. split; [discriminate|].
    intros m [= <-]. vm_compute. discriminate.
  - reflexivity.
  - reflexivity.
  - exists shown. exact E.
Defined.

Lemma add_subtask_replaces_placeholder_witness :
  ∃ shown,
    handleAddSubtask_start 1736670600000 (default ∅ (Server.tasks Sample.store0 !! 0%nat))
      "  Read the docs " (Server.tasks Sample.store0)
    = Ok (Some (shown,
                Some (Server.POST_subtask "1"
                        (object [("title", Some (JStr "Read the docs"))])))).
Proof.
  destruct (add_subtask_replaces_placeholder "" "" 1736670600000 Sample.oracle
              Sample.store0 0%nat (default ∅ (Server.tasks Sample.store0 !! 0%nat))
              "1" "  Read the docs "
              (match default ∅ (Server.tasks Sample.store0 !! 0%nat) !! "subtasks" with
               | Some (JArr l) => l
               | _ => []
               end))
    as (shown & E & _).
  - reflexivity.
  - vm_compute. reflexivity.
  - intros [|[|k]] v Hv Hk; try done.
    injection Hv as <-. vm_compute. discriminate.
  - vm_compute. reflexivity.
  - repeat constructor; discriminate.
  - reflexivity.
  - repeat (constructor; [vm_compute; lia|]). constructor.
  - vm_compute. discriminate.
  - exists shown. exact E.
Defined.

Lemma delete_subtask_in_step_witness :
  ∃ shown,
    handleDeleteSubtask_start (default ∅ (Server.tasks Sample.store0 !! 0%nat))
      (Some (JStr "sub1")) (Server.tasks Sample.store0)
    = Ok (Some (shown, Some (Server.DELETE_subtask "1" "sub1"))).
Proof.
  destruct (delete_subtask_in_step "" "" Sample.oracle Sample.store0 0%nat 0%nat
              (default ∅ (Server.tasks Sample.store0 !! 0%nat))
              (object [ ("id", Some (JStr "sub1"));
                        ("title", Some (JStr "Read useEffect documentation"));
                        ("completed", Some (JBool true)) ])
              "1" "sub1"
              (match default ∅ (Server.tasks Sample.store0 !! 0%nat) !! "subtasks" with
               | Some (JArr l) => l
               | _ => []
               end))
    as (shown & E & _).
  - reflexivity.
  - vm_compute. reflexivity.
  - intros [|[|k]] v Hv Hk; try done.
    injection Hv as <-. vm_compute. discriminate.
  - vm_compute. reflexivity.
  - vm_compute. reflexivity.
  - vm_compute. reflexivity.
  - intros [|[|k]] v Hk Hv; try done. injection Hv as <-. split; [discriminate|].
    intros m [= <-]. vm_compute. discriminate.
  - reflexivity.
  - reflexivity.
  - exists shown. exact E.
Defined.

End Samples.

End CardSubtaskFacts.

(* ===================================================================== *)
(** ** Facts on the validation, the input hook and the task form *)
(* ===================================================================== *)

Module FormFacts.
Import UseInput TaskForm.

Lemma trimEnd_empty (s : string) :
  trimEnd s = "" ↔ Forall (fun c => is_space c = true) (list_ascii_of_string s).
Proof.
  induction s as [|c s IH]; cbn [trimEnd list_ascii_of_string].
  - split; [constructor | done].
  - rewrite Forall_cons, <- IH. destruct (trimEnd s) eqn:E.
    + destruct (is_space c); split; [done | done | done | by intros [? _]].
    + split; [done | by intros [_ ?]].
Qed.

Lemma trimStart_blank (s : string) :
  Forall (fun c => is_space c = true) (list_ascii_of_string (trimStart s))
  ↔ Forall (fun c => is_space c = true) (list_ascii_of_string s).
Proof.
  induction s as [|c s IH]; cbn [trimStart list_ascii_of_string]; [done|].
  destruct (is_space c) eqn:E.
  - rewrite IH, Forall_cons. tauto.
  - cbn [list_ascii_of_string]. done.
Qed.

Lemma trim_empty (s : string) :
  trim s = "" ↔ Forall (fun c => is_space c = true) (list_ascii_of_string s).
Proof. unfold trim. by rewrite trimEnd_empty, trimStart_blank. Qed.

Lemma trimStart_head (s : string) :
  trimStart s = "" ∨ ∃ c r, trimStart s = String c r ∧ is_space c = false.
Proof.
  induction s as [|c s IH]; cbn [trimStart]; [by left|].
  destruct (is_space c) eqn:E; [done|]. right. by exists c, s.
Qed.

Lemma trimEnd_idemp (s : string) : trimEnd (trimEnd s) = trimEnd s.
Proof.
  induction s as [|c s IH]; [done|]. cbn [trimEnd].
  destruct (trimEnd s) as [|d r] eqn:E.
  - destruct (is_space c) eqn:Ec; [done|]. cbn [trimEnd]. by rewrite Ec.
  - cbn [trimEnd]. cbn [trimEnd] in IH. rewrite IH. done.
Qed.

Lemma trimEnd_head (c : ascii) (s : string) :
  is_space c = false → ∃ r, trimEnd (String c s) = String c r.
Proof.
  intros Ec. cbn [trimEnd]. destruct (trimEnd s); [rewrite Ec|]; by eexists.
Qed.

Lemma trim_idemp (s : string) : trim (trim s) = trim s.
Proof.
  unfold trim. destruct (trimStart_head s) as [-> | (c & r & -> & Ec)]; [done|].
  destruct (trimEnd_head c r Ec) as [r' E]. rewrite E.
  cbn [trimStart]. rewrite Ec, <- E. apply trimEnd_idemp.
Qed.

Lemma isNotEmpty_nonempty (value : string) :
  Validation.isNotEmpty value = true → value ≠ "".
Proof.
  unfold Validation.isNotEmpty. rewrite negb_true_iff, bool_decide_eq_false.
  intros H ->. by apply H.
Qed.

Lemma has_tag_spec (tag : string) (l : list string) :
  has_tag tag l = true ↔ tag ∈ l.
Proof.
  unfold has_tag. rewrite existsb_exists. split.
  - intros (t & Hin & Ht). apply bool_decide_eq_true in Ht as ->.
    by apply list_elem_of_In.
  - intros Hin. exists tag. split; [by apply list_elem_of_In | by apply bool_decide_eq_true].
Qed.

(** X23. On ASCII text, [isNotEmpty] accepts exactly the values that hold
    a character other than white space: a title made of blanks only counts
    as no title. *)
Theorem isNotEmpty_spec (value : string) :
  Forall (fun c => (nat_of_ascii c < 128)%nat) (list_ascii_of_string value) →
  Validation.isNotEmpty value = true
  ↔ ∃ c, c ∈ list_ascii_of_string value ∧ is_space c = false.
Proof.
  intros _. unfold Validation.isNotEmpty.
  rewrite negb_true_iff, bool_decide_eq_false, trim_empty.
  split.
  - intros H. apply not_Forall_Exists in H; [|intros c; apply _].
    apply Exists_exists in H as (c & Hc & Hs). exists c. split; [done|].
    by apply not_true_is_false.
  - intros (c & Hc & Hs) Hall.
    rewrite Forall_forall in Hall. specialize (Hall c Hc). congruence.
Qed.

Lemma isNotEmpty_spec_witness :
  Validation.isNotEmpty "  a " = true ∧ Validation.isNotEmpty "   " = false.
Proof.
  split.
  - apply (isNotEmpty_spec "  a ").
    + repeat constructor.
    + exists "a"%char. split; [|reflexivity].
      apply list_elem_of_In. cbn. tauto.
  - reflexivity.
Defined.

(** X24. A field of [useInput] shows its error exactly when the last thing
    that happened to it was leaving it (blur) while its value did not pass
    the validation: typing again or resetting hides the error, whatever
    happened before. *)
Theorem error_shown_after_blur
  (initialValue : string) (validationFn : option (string → bool))
  (events : list event) :
  hasError validationFn (after initialValue events) = true
  ↔ ∃ before, events = before ++ [Blur]
              ∧ isValid validationFn (after initialValue before) = false.
Proof.
  unfold after. destruct events as [|e events _] using rev_ind.
  - split; [done|]. intros (before & H & _). by destruct before.
  - rewrite foldl_app. cbn [foldl]. split.
    + destruct e; cbn; try done.
      intros H. exists events. split; [done|].
      unfold hasError in H. cbn in H. by apply negb_true_iff in H.
    + intros (before & H & Hv). apply app_inj_tail in H as [-> ->].
      unfold hasError, isValid in *. cbn. by rewrite Hv.
Qed.

(** X25. The tags of the form stay distinct and non-empty: whatever the
    user types, adds and removes, a list of tags without duplicates and
    without an empty tag stays so, and every tag of the list is one it held
    at the start or a text without white space around it. *)
Theorem tags_stay_distinct (f : form) (events : list tag_event) :
  NoDup (tags f) → "" ∉ tags f →
  NoDup (tags (foldl handle_tag f events))
  ∧ ("" ∉ tags (foldl handle_tag f events))
  ∧ ∀ t, t ∈ tags (foldl handle_tag f events) → t ∈ tags f ∨ trim t = t.
Proof.
  revert f. induction events as [|e events IH] using rev_ind; intros f Hnd Hne.
  - cbn. split_and!; [done | done | by left].
  - rewrite foldl_app. cbn [foldl].
    destruct (IH f Hnd Hne) as (Hnd' & Hne' & Hor). clear IH.
    set (g := foldl handle_tag f events) in *.
    destruct e as [text | | tag]; cbn [handle_tag].
    + by cbn.
    + unfold handleAddTag.
      destruct (truthy (Some (JStr (trim (tagInput g))))) eqn:Et; cbn [andb]; [|done].
      destruct (has_tag (trim (tagInput g)) (tags g)) eqn:Eh; cbn [negb]; [done|].
      cbn [setTagInput setTags tags].
      apply truthy_string in Et.
      assert (trim (tagInput g) ∉ tags g) as Hnot.
      { intros Hin. apply has_tag_spec in Hin. congruence. }
      split_and!.
      * apply NoDup_app. split_and!; [done | | apply NoDup_singleton].
        intros x Hx Hx'. apply list_elem_of_singleton in Hx' as ->. done.
      * intros Hin. apply elem_of_app in Hin as [Hin | Hin]; [done|].
        apply list_elem_of_singleton in Hin. done.
      * intros t Hin. apply elem_of_app in Hin as [Hin | Hin]; [by apply Hor|].
        apply list_elem_of_singleton in Hin as ->. right. apply trim_idemp.
    + cbn [handleRemoveTag setTags tags]. split_and!.
      * apply NoDup_ListNoDup, List.NoDup_filter, NoDup_ListNoDup, Hnd'.
      * intros Hin. apply list_elem_of_In, filter_In in Hin as [Hin _].
        by apply list_elem_of_In in Hin.
      * intros t Hin. apply list_elem_of_In, filter_In in Hin as [Hin _].
        by apply Hor, list_elem_of_In.
Qed.

Lemma tags_stay_distinct_witness :
  NoDup (tags (foldl handle_tag FormSample.typed
                 [TypeTag "urgent"; AddTag; TypeTag "  later"; AddTag;
                  RemoveTag "urgent"]))
  ∧ tags (foldl handle_tag FormSample.typed
            [TypeTag "urgent"; AddTag; TypeTag "  later"; AddTag;
             RemoveTag "urgent"]) = ["later"].
Proof.
  split; [|vm_compute; reflexivity].
  apply (tags_stay_distinct FormSample.typed).
  - vm_compute. apply NoDup_singleton.
  - vm_compute. intros H. apply list_elem_of_singleton in H. discriminate.
Defined.

(** X26. What the task form submits is accepted by the server.  When
    [handleSubmit] passes form data on, the title holds a character other
    than white space, and POST /api/tasks with that data answers 201 and
    stores a task with the title, description, priority, assignee and tags
    of the form, with status 'todo', with a due date that is null when the
    date field is empty, and with the text fields the board's search relies
    on; the 400 answer for a missing title cannot occur. *)
Theorem submitted_form_is_accepted
  (creating : bool) (i0 : initial_values) (f f' : form) (formData : obj)
  (o : Server.oracle) (s : Server.store) :
  handleSubmit creating i0 f = (Some formData, f') →
  Validation.isNotEmpty (value (title f)) = true
  ∧ f' = (if creating then resetForm i0 f else f)
  ∧ ∃ newTask,
      Server.post_task o formData s
      = (Server.Response 201 (Some (JObj newTask)),
         Server.Store (Server.tasks s ++ [newTask]) (Server.reminders s))
      ∧ newTask !! "title" = Some (JStr (value (title f)))
      ∧ newTask !! "description" = Some (JStr (value (description f)))
      ∧ newTask !! "status" = Some (JStr "todo")
      ∧ newTask !! "priority" = Some (JStr (value (priority f)))
      ∧ newTask !! "dueDate"
        = Some (if bool_decide (value (dueDate f) = "") then JNull
                else JStr (value (dueDate f)))
      ∧ newTask !! "assignee" = Some (JStr (value (assignee f)))
      ∧ newTask !! "tags" = Some (JArr (JStr <$> tags f))
      ∧ TaskBoard.well_formed newTask.
Proof.
  unfold handleSubmit.
  destruct (titleHasError f || priorityHasError f) eqn:E1; cbn [orb]; [done|].
  destruct (Validation.isNotEmpty (value (title f))) eqn:E2; cbn [negb]; [|done].
  intros [= <- <-]. split; [done|]. split; [done|].
  apply isNotEmpty_nonempty in E2.
  assert (∀ d, or_else (Some (JStr d)) (JStr "") = JStr d) as Hor.
  { intros d. cbn. case_bool_decide; [by subst | done]. }
  assert (or_else (Some (JStr (value (dueDate f)))) JNull
          = if bool_decide (value (dueDate f) = "") then JNull
            else JStr (value (dueDate f))) as Hd.
  { cbn. by case_bool_decide. }
  set (formData := object _).
  assert (formData !! "title" = Some (JStr (value (title f)))) as Ht
    by (unfold formData; rewrite object_lookup; reflexivity).
  assert (formData !! "description" = Some (JStr (value (description f)))) as Hde
    by (unfold formData; rewrite object_lookup; reflexivity).
  assert (formData !! "priority" = Some (JStr (value (priority f)))) as Hp
    by (unfold formData; rewrite object_lookup; reflexivity).
  assert (formData !! "dueDate"
          = Some (or_else (Some (JStr (value (dueDate f)))) JNull)) as Hdu
    by (unfold formData; rewrite object_lookup; reflexivity).
  assert (formData !! "assignee" = Some (JStr (value (assignee f)))) as Ha
    by (unfold formData; rewrite object_lookup; reflexivity).
  assert (formData !! "tags" = Some (JArr (JStr <$> tags f))) as Hg
    by (unfold formData; rewrite object_lookup; reflexivity).
  clearbody formData.
  unfold Server.post_task. rewrite Ht, Hde, Hp, Hdu, Ha, Hg, !Hor, Hd.
  cbn [truthy default_to]. rewrite bool_decide_false by done. cbn [negb].
  eexists. split; [reflexivity|].
  split_and!; try (rewrite object_lookup; reflexivity).
  unfold TaskBoard.well_formed.
  split_and!; eexists; rewrite object_lookup; reflexivity.
Qed.

Lemma submitted_form_is_accepted_witness :
  ∃ newTask,
    Server.post_task Sample.oracle
      (object [ ("title", Some (JStr "Ship it"));
                ("description", Some (JStr ""));
                ("priority", Some (JStr "medium"));
                ("dueDate", Some JNull);
                ("assignee", Some (JStr ""));
                ("tags", Some (JArr [JStr "urgent"])) ]) Sample.store0
    = (Server.Response 201 (Some (JObj newTask)),
       Server.Store (Server.tasks Sample.store0 ++ [newTask])
         (Server.reminders Sample.store0))
    ∧ newTask !! "title" = Some (JStr "Ship it")
    ∧ newTask !! "dueDate" = Some JNull
    ∧ newTask !! "tags" = Some (JArr [JStr "urgent"]).
Proof.
  destruct (submitted_form_is_accepted true blank_values FormSample.typed
              (resetForm blank_values FormSample.typed)
              (object [ ("title", Some (JStr "Ship it"));
                        ("description", Some (JStr ""));
                        ("priority", Some (JStr "medium"));
                        ("dueDate", Some JNull);
                        ("assignee", Some (JStr ""));
                        ("tags", Some (JArr [JStr "urgent"])) ])
              Sample.oracle Sample.store0)
    as (_ & _ & newTask & E & Ht & _ & _ & _ & Hd & _ & Hg & _).
  { vm_compute. reflexivity. }
  exists newTask. split_and!; [exact E | exact Ht | exact Hd | exact Hg].
Defined.

End FormFacts.

(* ===================================================================== *)
(** ** More facts on the board *)
(* ===================================================================== *)

Module BoardExtraFacts.
Import TaskBoard TaskBoardFacts.

Section WithStrings.
Context {strings : Strings}.

Lemma ascii_compare_lt_trans (a b c : ascii) :
  Ascii.compare a b = Lt → Ascii.compare b c = Lt → Ascii.compare a c = Lt.
Proof.
  unfold Ascii.compare. rewrite !N.compare_lt_iff. lia.
Qed.

Lemma string_compare_lt_trans (x y z : string) :
  String.compare x y = Lt → String.compare y z = Lt → String.compare x z = Lt.
Proof.
  revert y z. induction x as [|a x IH]; intros [|b y] [|c z]; cbn; try done.
  destruct (Ascii.compare a b) eqn:Eab; try done;
    destruct (Ascii.compare b c) eqn:Ebc; try done.
  - apply Ascii.compare_eq_iff in Eab as ->, Ebc as ->.
    rewrite (proj2 (N.compare_eq_iff _ _) eq_refl : Ascii.compare c c = Eq).
    apply IH.
  - apply Ascii.compare_eq_iff in Eab as ->. by rewrite Ebc.
  - apply Ascii.compare_eq_iff in Ebc as ->. by rewrite Eab.
  - by rewrite (ascii_compare_lt_trans a b c).
Qed.

Lemma ltb_asym (x y : string) : String.ltb x y = true → String.ltb y x = false.
Proof.
  unfold String.ltb. rewrite (String.compare_antisym x y).
  by destruct (String.compare y x).
Qed.

(** The comparison of byte strings is such an order. *)
Lemma not_before_trans (x y z : string) :
  String.ltb y x = false → String.ltb z y = false → String.ltb z x = false.
Proof.
  unfold String.ltb. intros Hyx Hzy.
  destruct (String.compare z x) eqn:Ezx; try done.
  destruct (String.compare z y) eqn:Ezy; try done.
  - apply String.compare_eq_iff in Ezy as ->. by rewrite Ezx in Hyx.
  - rewrite (String.compare_antisym z y) in Ezy.
    destruct (String.compare y z) eqn:Eyz; try done.
    by rewrite (string_compare_lt_trans y z x Eyz Ezx) in Hyx.
Qed.

Lemma insertE_sorted {A} (cmp : A → A → result Z) (P : A → Prop) (R : A → A → Prop) :
  (∀ x y z, P x → P y → P z → R x y → R y z → R x z) →
  (∀ x y, P x → P y → ∃ c, cmp x y = Ok c ∧ if c <=? 0 then R x y else R y x) →
  ∀ x l, P x → Forall P l → StronglySorted R l →
  ∃ r, insertE cmp x l = Ok r ∧ r ≡ₚ x :: l ∧ StronglySorted R r.
Proof.
  intros Htrans Hcmp x l Hx. induction l as [|y l IH]; intros HP Hs.
  - exists [x]. split_and!; [done | done | by repeat constructor].
  - apply Forall_cons in HP as [Hy HP].
    apply StronglySorted_inv in Hs as [Hs Hyl].
    cbn [insertE]. destruct (Hcmp x y Hx Hy) as (c & -> & Hc). cbn.
    destruct (c <=? 0).
    + eexists. split_and!; [done | done |].
      constructor; [by constructor|]. constructor; [done|].
      rewrite Forall_forall in Hyl, HP. apply Forall_forall. intros z Hz.
      eapply (Htrans x y z); eauto.
    + destruct (IH HP Hs) as (r & -> & Hperm & Hr). cbn.
      eexists. split_and!; [done | |].
      * rewrite Hperm. apply perm_swap.
      * constructor; [done|]. rewrite Hperm. by constructor.
Qed.

Lemma sortE_sorted {A} (cmp : A → A → result Z) (P : A → Prop) (R : A → A → Prop) :
  (∀ x y z, P x → P y → P z → R x y → R y z → R x z) →
  (∀ x y, P x → P y → ∃ c, cmp x y = Ok c ∧ if c <=? 0 then R x y else R y x) →
  ∀ l, Forall P l →
  ∃ r, sortE cmp l = Ok r ∧ r ≡ₚ l ∧ StronglySorted R r.
Proof.
  intros Htrans Hcmp l. induction l as [|x l IH]; intros HP.
  - exists []. split_and!; [done | done | constructor].
  - apply Forall_cons in HP as [Hx HP].
    destruct (IH HP) as (r & Hr & Hperm & Hs). cbn [sortE]. rewrite Hr. cbn.
    destruct (insertE_sorted cmp P R Htrans Hcmp x r Hx) as (r' & -> & Hperm' & Hs');
      [by rewrite Hperm | done |].
    exists r'. split_and!; [done | by rewrite Hperm', Hperm | done].
Qed.

Lemma forEachE_app {A S} (f : S → A → result S) (acc : S) (l : list A) (x : A) :
  forEachE f acc (l ++ [x]) = (acc' ← forEachE f acc l; f acc' x).
Proof.
  revert acc. induction l as [|y l IH]; intros acc; cbn.
  - by destruct (f acc x).
  - destruct (f acc y); [apply IH | done].
Qed.

Section WithEngine.
Variable Date_value : jsval → option Z.
Variable inherited : string → option string.

Lemma passes_no_search (sel : selections) (t : obj) :
  searchTerm sel = "" →
  passes sel t
  = Ok (matchesStatus (statusFilter sel) t && matchesPriority (priorityFilter sel) t).
Proof. intros H. unfold passes, matchesSearch. rewrite H. reflexivity. Qed.

Lemma compareTasks_no_title (sel : selections) (a b : obj) :
  sortBy sel ≠ "title" → ∃ c, compareTasks Date_value inherited sel a b = Ok c.
Proof.
  intros H. unfold compareTasks, sort_key.
  rewrite !(bool_decide_false (sortBy sel = "title")) by done.
  repeat case_bool_decide; cbn; by eexists.
Qed.

Lemma passes_well_formed (sel : selections) (t : obj) :
  well_formed t → ∃ b, passes sel t = Ok b.
Proof.
  intros H. unfold passes.
  destruct (matchesSearch_well_formed (searchTerm sel) t H) as [b ->]. by eexists.
Qed.


(** X28. Sorted by title, the board's view of well-formed tasks is in
    order.  The engine's comparison [<] of strings is taken to be a strict
    total order, in this form: [x < y] and [y < x] never both hold, and
    when neither [y < x] nor [z < y] holds, [z < x] does not hold either.
    Then the view is computed, it holds exactly the tasks that pass the
    filters, and for the ascending order no task of the view has a title
    that, in lower case, is [<] the title of a task earlier in the view; for
    the other order no task has a title that an earlier title is [<]. *)
Theorem view_sorted_by_title (tasks : list obj) (sel : selections) :
  (∀ x y, string_lt x y = true → string_lt y x = false) →
  (∀ x y z, string_lt y x = false → string_lt z y = false → string_lt z x = false) →
  Forall well_formed tasks → sortBy sel = "title" →
  ∃ view,
    filteredAndSortedTasks Date_value inherited (Some tasks) sel = Ok view
    ∧ (∀ t, t ∈ view ↔ t ∈ tasks ∧ passes sel t = Ok true)
    ∧ StronglySorted
        (fun a b => ∀ x y,
           a !! "title" = Some (JStr x) → b !! "title" = Some (JStr y) →
           if bool_decide (sortOrder sel = "asc")
           then string_lt (lower y) (lower x) = false
           else string_lt (lower x) (lower y) = false) view.
Proof.
  intros Hasym Htrans Hwf Hby. cbn [filteredAndSortedTasks].
  destruct (filterE_ok (passes sel) tasks) as (filtered & -> & Hin).
  { eapply Forall_impl; [exact Hwf|]. intros t. apply passes_well_formed. }
  cbn.
  assert (Forall well_formed filtered) as Hwf'.
  { apply Forall_forall. intros t Ht. apply Hin in Ht as [Ht _].
    rewrite Forall_forall in Hwf. by apply Hwf. }
  destruct (sortE_sorted (compareTasks Date_value inherited sel) well_formed
              (fun a b => ∀ x y,
                 a !! "title" = Some (JStr x) → b !! "title" = Some (JStr y) →
                 if bool_decide (sortOrder sel = "asc")
                 then string_lt (lower y) (lower x) = false
                 else string_lt (lower x) (lower y) = false))
    with (l := filtered) as (view & E & Hperm & Hsorted); [| | done |].
  - intros a b c _ ([tb Hb] & _) _ Hab Hbc x z Hx Hz.
    specialize (Hab x tb Hx Hb). specialize (Hbc tb z Hb Hz).
    destruct (bool_decide (sortOrder sel = "asc")).
    + by apply (Htrans _ (lower tb)).
    + by apply (Htrans (lower z) (lower tb)).
  - intros a b ([ta Ha] & _) ([tb Hb] & _).
    unfold compareTasks, sort_key. rewrite Hby, Ha, Hb. cbn.
    eexists. split; [reflexivity|]. cbn [less_than].
    destruct (string_lt (lower ta) (lower tb)) eqn:Eab.
    + pose proof (Hasym _ _ Eab) as Eba.
      destruct (bool_decide (sortOrder sel = "asc")); cbn;
        intros x y Hx Hy; rewrite Hx in *; rewrite Hy in *;
        simplify_eq; done.
    + destruct (string_lt (lower tb) (lower ta)) eqn:Eba;
        destruct (bool_decide (sortOrder sel = "asc")); cbn;
        intros x y Hx Hy; rewrite Hx in *; rewrite Hy in *;
        simplify_eq; done.
  - exists view. split; [done|]. split; [|done].
    intros t. by rewrite Hperm.
Qed.

Lemma forEachE_push_grouped (g : groups) (view : list obj) :
  Forall (fun t => property_key (t !! "status") ∈ ["todo"; "in-progress"; "completed"]
                   ∨ inherited (property_key (t !! "status")) = None) view →
  forEachE (push_grouped inherited) g view
  = Ok (Groups
          (todo_tasks g ++ List.filter
             (fun t => bool_decide (property_key (t !! "status") = "todo")) view)
          (in_progress_tasks g ++ List.filter
             (fun t => bool_decide (property_key (t !! "status") = "in-progress")) view)
          (completed_tasks g ++ List.filter
             (fun t => bool_decide (property_key (t !! "status") = "completed")) view)).
Proof.
  intros H. revert g. induction H as [|t view Ht _ IH]; intros g.
  - cbn. rewrite !app_nil_r. by destruct g.
  - assert (push_grouped inherited g t
            = Ok (Groups
                    (todo_tasks g ++ List.filter
                       (fun t => bool_decide (property_key (t !! "status") = "todo")) [t])
                    (in_progress_tasks g ++ List.filter
                       (fun t => bool_decide (property_key (t !! "status") = "in-progress"))
                       [t])
                    (completed_tasks g ++ List.filter
                       (fun t => bool_decide (property_key (t !! "status") = "completed"))
                       [t]))) as Hstep.
    { unfold push_grouped. cbn [List.filter].
      repeat case_bool_decide; try congruence; rewrite ?app_nil_r; try done.
      destruct Ht as [Ht | ->]; [|by destruct g].
      apply list_elem_of_In in Ht. cbn in Ht. intuition congruence. }
    cbn [forEachE]. rewrite Hstep. cbn [mbind result_bind].
    rewrite IH. cbn [todo_tasks in_progress_tasks completed_tasks].
    rewrite <- !app_assoc.
    change (t :: view) with ([t] ++ view). by rewrite !List.filter_app.
Qed.

Lemma forEachE_push_grouped_fails (g : groups) (view : list obj) (t : obj) :
  t ∈ view →
  property_key (t !! "status") ∉ ["todo"; "in-progress"; "completed"] →
  inherited (property_key (t !! "status")) ≠ None →
  forEachE (push_grouped inherited) g view = TypeError.
Proof.
  intros Hin Hk Hi. revert g. induction view as [|u view IH]; intros g.
  - by apply elem_of_nil in Hin.
  - cbn [forEachE]. apply elem_of_cons in Hin as [<- | Hin].
    + assert (push_grouped inherited g t = TypeError) as ->; [|done].
      unfold push_grouped.
      rewrite !bool_decide_false
        by (intros E; apply Hk; rewrite E; apply list_elem_of_In; cbn; tauto).
      by destruct (inherited (property_key (t !! "status"))).
    + destruct (push_grouped inherited g u); [by apply IH | done].
Qed.


End WithEngine.

End WithStrings.

Section Samples.
#[local] Existing Instance Engine.ascii_strings.


Lemma view_sorted_by_title_witness :
  ∃ view,
    filteredAndSortedTasks Engine.Date_value Engine.Object_prototype
      (Some (Server.tasks Sample.store0)) FormSample.by_title = Ok view
    ∧ StronglySorted
        (fun a b => ∀ x y,
           a !! "title" = Some (JStr x) → b !! "title" = Some (JStr y) →
           string_lt (lower y) (lower x) = false) view.
Proof.
  destruct (view_sorted_by_title Engine.Date_value Engine.Object_prototype
              (Server.tasks Sample.store0) FormSample.by_title)
    as (view & E & _ & Hs).
  - apply ltb_asym.
  - apply not_before_trans.
  - repeat constructor; try (eexists; reflexivity).
    + by exists ["react"; "learning"].
    + by exists ["project"; "development"].
  - reflexivity.
  - exists view. split; [exact E | exact Hs].
Defined.


End Samples.

End BoardExtraFacts.

(* ===================================================================== *)
(** ** Facts on loading the tasks *)
(* ===================================================================== *)

Module LoadFacts.
Import TaskContext TaskProvider.

Section WithStrings.
Context {strings : Strings}.

Section WithEngine.
Variable TypeError_message : string.
Variable SyntaxError_message : string.

(** X30. Loading brings the client in step with the server.  While the
    request is under way the provider shows the loading state, no error,
    and its old tasks.  [fetchTasks()] without filters is answered, in every
    store, with all the tasks in the server's order, and the store is
    unchanged; when [loadTasks] settles with them the provider holds exactly
    the server's tasks, whatever it held before, the loading state is off
    and the time of the refresh is recorded.  When the request fails the
    provider keeps its tasks and stores the message of the failure, or
    'Failed to load tasks' for an empty one. *)
Theorem load_end_to_end
  (o : Server.oracle) (s : Server.store) (p : provider) (clock message : string) :
  (isLoading (loadTasks_start p) = true
   ∧ error (cells (loadTasks_start p)) = None
   ∧ tasks (cells (loadTasks_start p)) = tasks (cells p))
  ∧ Api.call TypeError_message SyntaxError_message o Api.fetchTasks s
    = (Api.Fulfilled (JArr (JObj <$> Server.tasks s)), s)
  ∧ (let final := loadTasks_settle clock (Loaded (Server.tasks s)) (loadTasks_start p) in
     tasks (cells final) = Server.tasks s
     ∧ isLoading final = false
     ∧ error (cells final) = None
     ∧ lastRefresh final = Some clock)
  ∧ (let final := loadTasks_settle clock (NotLoaded message) (loadTasks_start p) in
     tasks (cells final) = tasks (cells p)
     ∧ isLoading final = false
     ∧ lastRefresh final = lastRefresh p
     ∧ error (cells final)
       = Some (if bool_decide (message = "") then "Failed to load tasks" else message)).
Proof.
  split; [done|]. split.
  - unfold Api.call, Api.fetchTasks. cbn [Server.handle fst snd].
    unfold Server.get_tasks_handler, Server.get_tasks.
    cbn [Server.supplied Server.q_status Server.q_priority Server.q_search].
    by rewrite ClientExtraFacts.apiRequest_data by (lia || done).
  - split; [done|]. cbn. split_and!; try done.
    by case_bool_decide.
Qed.

End WithEngine.

End WithStrings.

End LoadFacts.
